(** * The task runtime: scheduler, worker, port selector and native builtins

    A shallow embedding of the C++ runtime under [src/rt]
    ([rust_scheduler.cpp], [rust_port_selector.cpp], the worker
    [rust_task_thread], the native builtins and the [uvtmp] event-loop
    glue) and the properties of the runtime's specification proved about
    it.

    Objects that the C++ code reaches through pointers live in heaps keyed
    by handles; every method becomes a function in the monad [M] over the
    [world] of those heaps.  A run ends in [Ok], in [Fatal] (an [I(...)] or
    [A(...)] check failed and the runtime aborted with its diagnostic) or
    in [Stuck] (the C++ has no defined behaviour: a NULL or dangling
    pointer was dereferenced or an array was indexed out of range). *)

From Stdlib Require Import ZArith List Lia String Bool.
From stdpp Require Import base option list gmap strings.

Open Scope string_scope.
Open Scope Z_scope.
Open Scope list_scope.

(** ** What the sources leave to the platform *)

(** The width of [size_t] / [uintptr_t] and the ISAAC generator
    ([isaac_init], [isaac_rand], from [rust_util.h] and [rand.h]) are
    not part of the sources modelled here. *)
Class Platform : Type := {
  size_bits : Z;
  size_bits_pos : 0 < size_bits;
  randctx : Type;
  isaac_init : randctx;
  isaac_rand : randctx -> Z * randctx
}.

Section Data.
Context `{Platform}.

Definition size_modulus : Z := 2 ^ size_bits.
Definition SIZE_MAX : Z := size_modulus - 1.

(** Arithmetic on [size_t]: every result is reduced modulo [2 ^ size_bits]. *)
Definition size_wrap (x : Z) : Z := x mod size_modulus.
Definition size_add (x y : Z) : Z := size_wrap (x + y).
Definition size_sub (x y : Z) : Z := size_wrap (x - y).

(** The conversion of a [size_t] to [int] (32 bits, two's complement). *)
Definition to_int (x : Z) : Z := (x + 2 ^ 31) mod 2 ^ 32 - 2 ^ 31.

(** ** Outcomes *)

Inductive result (A : Type) : Type :=
| Ok (a : A)
| Fatal (msg : string)
| Stuck (why : string).
Global Arguments Ok {A} a.
Global Arguments Fatal {A} msg.
Global Arguments Stuck {A} why.

(** Errors that an operation reports to its caller. *)
Inductive rt_error : Type :=
| InvalidArg.

(** ** Objects *)

(** [rust_task_list]: the state of a task is the list it is on
    ([task->get_state() == src] in [transition]). *)
Inductive task_list : Type :=
| newborn
| running
| blocked
| dead.

Global Instance task_list_eq_dec : EqDecision task_list.
Proof. solve_decision. Defined.

(** [rust_cond]: what a task blocks on, a port or a port selector. *)
Inductive rust_cond : Type :=
| cond_port (port : Z)
| cond_selector (sel : Z).

Global Instance rust_cond_eq_dec : EqDecision rust_cond.
Proof. solve_decision. Defined.

(** The locks the modelled code takes. *)
Inductive lock_id : Type :=
| sched_lock (sched : Z)
| thread_lock (thread : Z)
| task_lock (task : Z)
| port_lock (port : Z)
| rendezvous_lock (sel : Z).

Global Instance lock_id_eq_dec : EqDecision lock_id.
Proof. solve_decision. Defined.

(** [struct iomsg] of the event-loop glue, with the tags it declares. *)
Definition whatever_tag : Z := 0.
Definition connected_tag : Z := 1.
Definition wrote_tag : Z := 2.
Definition read_tag : Z := 3.
Definition timer_tag : Z := 4.
Definition exit_tag : Z := 5.

Inductive iomsg_val : Type :=
| connected_val (cd : Z)
| wrote_val (cd : Z)
| read_val (cd : Z) (buf : Z) (nread : Z)
| timer_req_id (req_id : Z).

Record iomsg : Type := {
  tag : Z;
  val : iomsg_val
}.

(** One unit of port data: [unit_sz] raw bytes, or an [iomsg]. *)
Inductive unit_data : Type :=
| raw_unit (bytes : list Z)
| iomsg_unit (msg : iomsg).

(** What a rendezvous destination holds after a write through it: a
    received unit ([port_recv]) or a port reference ([select]). *)
Inductive cell : Type :=
| cell_unit (d : unit_data)
| cell_port (port : Z).

Record rust_task : Type := {
  task_id : Z;
  task_thread : Z;
  task_ref_count : Z;
  task_state : task_list;
  task_cond : option rust_cond;
  task_cond_name : string;
  task_killed : bool;
  task_supervised : bool;
  task_rendezvous_ptr : option Z;
  task_port_table : gmap Z Z;
  task_has_stacks : bool
}.

Record rust_port : Type := {
  port_id : Z;
  port_task : Z;
  port_unit_sz : Z;
  port_buffer : list unit_data;
  port_ref_count : Z
}.

Record rust_port_selector : Type := {
  sel_ports : option (list Z);
  sel_n_ports : Z;
  sel_rctx : randctx
}.

(** [rust_task_thread], the worker.  [rust_scheduler.cpp] reaches it as
    [threads[i]->get_loop()]; the launcher and its loop are one object
    here. *)
Record rust_task_thread : Type := {
  thread_id : Z;
  thread_sched : Z;
  should_exit : bool;
  newborn_tasks : list Z;
  running_tasks : list Z;
  blocked_tasks : list Z;
  dead_tasks : list Z;
  thread_rctx : randctx
}.

Record rust_scheduler : Type := {
  live_threads : Z;
  live_tasks : Z;
  num_threads : Z;
  cur_thread : Z;
  sched_id : Z;
  sched_threads : list Z
}.

Record rust_kernel : Type := {
  max_task_id : Z;
  task_table : gmap Z Z;
  max_sched_id : Z;
  sched_table : gmap Z rust_scheduler
}.

(** What a run leaves behind for an observer. *)
Inductive event : Type :=
| ev_lock (l : lock_id)
| ev_unlock (l : lock_id)
| ev_signal (l : lock_id)
| ev_release_scheduler_id (id : Z)
| ev_release_task_id (id : Z)
| ev_delete_all_stacks (task : Z)
| ev_deref (task : Z)
| ev_delete_task (task : Z)
| ev_unsupervise (task : Z)
| ev_kill (task : Z)
| ev_wakeup (task : Z)
| ev_send (port : Z) (d : unit_data).

Global Instance iomsg_val_eq_dec : EqDecision iomsg_val.
Proof. solve_decision. Defined.

Global Instance iomsg_eq_dec : EqDecision iomsg.
Proof. solve_decision. Defined.

Global Instance unit_data_eq_dec : EqDecision unit_data.
Proof. solve_decision. Defined.

Global Instance event_eq_dec : EqDecision event.
Proof. solve_decision. Defined.

Record world : Type := {
  kernel : rust_kernel;
  threads : gmap Z rust_task_thread;
  tasks : gmap Z rust_task;
  ports : gmap Z rust_port;
  selectors : gmap Z rust_port_selector;
  mem : gmap Z cell;
  trace : list event
}.

(** ** The monad of runtime operations *)

Definition M (A : Type) : Type := world -> result (A * world).

Definition ret {A} (a : A) : M A := fun w => Ok (a, w).

Definition bind {A B} (m : M A) (k : A -> M B) : M B :=
  fun w =>
    match m w with
    | Ok (a, w') => k a w'
    | Fatal msg => Fatal msg
    | Stuck why => Stuck why
    end.

Definition fatal {A} (msg : string) : M A := fun _ => Fatal msg.
Definition stuck {A} (why : string) : M A := fun _ => Stuck why.
Definition gets {A} (f : world -> A) : M A := fun w => Ok (f w, w).
Definition modify (f : world -> world) : M unit := fun w => Ok (tt, f w).

End Data.

Declare Scope rt_scope.
Delimit Scope rt_scope with rt.
Notation "'do' x <- m ; k" := (bind m (fun x => k))
  (at level 10, x name, m at level 100, k at level 200) : rt_scope.
Notation "m ;; k" := (bind m (fun _ => k))
  (at level 100, k at level 200, right associativity) : rt_scope.
Open Scope rt_scope.

Section Operations.
Context `{Platform}.

(** The [I(dom, e)] and [A(dom, e, msg)] checks of [rust_internal.h]:
    a failed check ends the run through [srv->fatal]. *)
Definition assert_I (e : bool) (text : string) : M unit :=
  if e then ret tt else fatal text.
Definition assert_A (e : bool) (msg : string) : M unit :=
  if e then ret tt else fatal msg.

(** *** Field updates *)

Definition set_kernel (k : rust_kernel) (w : world) : world :=
  {| kernel := k; threads := threads w; tasks := tasks w; ports := ports w;
     selectors := selectors w; mem := mem w; trace := trace w |}.
Definition set_threads (m : gmap Z rust_task_thread) (w : world) : world :=
  {| kernel := kernel w; threads := m; tasks := tasks w; ports := ports w;
     selectors := selectors w; mem := mem w; trace := trace w |}.
Definition set_tasks (m : gmap Z rust_task) (w : world) : world :=
  {| kernel := kernel w; threads := threads w; tasks := m; ports := ports w;
     selectors := selectors w; mem := mem w; trace := trace w |}.
Definition set_ports (m : gmap Z rust_port) (w : world) : world :=
  {| kernel := kernel w; threads := threads w; tasks := tasks w; ports := m;
     selectors := selectors w; mem := mem w; trace := trace w |}.
Definition set_selectors (m : gmap Z rust_port_selector) (w : world) : world :=
  {| kernel := kernel w; threads := threads w; tasks := tasks w;
     ports := ports w; selectors := m; mem := mem w; trace := trace w |}.
Definition set_mem (m : gmap Z cell) (w : world) : world :=
  {| kernel := kernel w; threads := threads w; tasks := tasks w;
     ports := ports w; selectors := selectors w; mem := m; trace := trace w |}.
Definition set_trace (t : list event) (w : world) : world :=
  {| kernel := kernel w; threads := threads w; tasks := tasks w;
     ports := ports w; selectors := selectors w; mem := mem w; trace := t |}.

Definition emit (e : event) : M unit :=
  modify (fun w => set_trace (trace w ++ [e]) w).

Definition lock (l : lock_id) : M unit := emit (ev_lock l).
Definition unlock (l : lock_id) : M unit := emit (ev_unlock l).
Definition signal (l : lock_id) : M unit := emit (ev_signal l).

(** *** Dereferencing *)

Definition deref_ptr {A} (heap : world -> gmap Z A) (p : Z) (what : string)
  : M A :=
  fun w =>
    match heap w !! p with
    | Some a => Ok (a, w)
    | None => Stuck what
    end.

Definition load_task (t : Z) : M rust_task :=
  deref_ptr tasks t "rust_task*".
Definition load_port (p : Z) : M rust_port :=
  deref_ptr ports p "rust_port*".
Definition load_selector (s : Z) : M rust_port_selector :=
  deref_ptr selectors s "rust_port_selector*".
Definition load_thread (th : Z) : M rust_task_thread :=
  deref_ptr threads th "rust_task_thread*".
Definition load_sched (s : Z) : M rust_scheduler :=
  deref_ptr (fun w => sched_table (kernel w)) s "rust_scheduler*".

Definition store_task (t : Z) (v : rust_task) : M unit :=
  modify (fun w => set_tasks (<[t := v]> (tasks w)) w).
Definition store_port (p : Z) (v : rust_port) : M unit :=
  modify (fun w => set_ports (<[p := v]> (ports w)) w).
Definition store_selector (s : Z) (v : rust_port_selector) : M unit :=
  modify (fun w => set_selectors (<[s := v]> (selectors w)) w).
Definition store_thread (th : Z) (v : rust_task_thread) : M unit :=
  modify (fun w => set_threads (<[th := v]> (threads w)) w).
Definition store_mem (a : Z) (c : cell) : M unit :=
  modify (fun w => set_mem (<[a := c]> (mem w)) w).

Definition set_sched_table (m : gmap Z rust_scheduler) (k : rust_kernel)
  : rust_kernel :=
  {| max_task_id := max_task_id k; task_table := task_table k;
     max_sched_id := max_sched_id k; sched_table := m |}.
Definition set_task_table (m : gmap Z Z) (k : rust_kernel) : rust_kernel :=
  {| max_task_id := max_task_id k; task_table := m;
     max_sched_id := max_sched_id k; sched_table := sched_table k |}.
Definition set_max_task_id (n : Z) (k : rust_kernel) : rust_kernel :=
  {| max_task_id := n; task_table := task_table k;
     max_sched_id := max_sched_id k; sched_table := sched_table k |}.
Definition set_max_sched_id (n : Z) (k : rust_kernel) : rust_kernel :=
  {| max_task_id := max_task_id k; task_table := task_table k;
     max_sched_id := n; sched_table := sched_table k |}.

Definition store_sched (s : Z) (v : rust_scheduler) : M unit :=
  modify (fun w =>
    set_kernel (set_sched_table (<[s := v]> (sched_table (kernel w)))
                  (kernel w)) w).

(** *** [rust_task] and [rust_task_thread] records *)

Definition set_task_id (id : Z) (t : rust_task) : rust_task :=
  {| task_id := id; task_thread := task_thread t;
     task_ref_count := task_ref_count t; task_state := task_state t;
     task_cond := task_cond t; task_cond_name := task_cond_name t;
     task_killed := task_killed t; task_supervised := task_supervised t;
     task_rendezvous_ptr := task_rendezvous_ptr t;
     task_port_table := task_port_table t;
     task_has_stacks := task_has_stacks t |}.
Definition set_task_ref_count (n : Z) (t : rust_task) : rust_task :=
  {| task_id := task_id t; task_thread := task_thread t;
     task_ref_count := n; task_state := task_state t;
     task_cond := task_cond t; task_cond_name := task_cond_name t;
     task_killed := task_killed t; task_supervised := task_supervised t;
     task_rendezvous_ptr := task_rendezvous_ptr t;
     task_port_table := task_port_table t;
     task_has_stacks := task_has_stacks t |}.
(** [rust_task::set_state(state, cond, cond_name)]. *)
Definition set_state (st : task_list) (c : option rust_cond) (name : string)
    (t : rust_task) : rust_task :=
  {| task_id := task_id t; task_thread := task_thread t;
     task_ref_count := task_ref_count t; task_state := st;
     task_cond := c; task_cond_name := name;
     task_killed := task_killed t; task_supervised := task_supervised t;
     task_rendezvous_ptr := task_rendezvous_ptr t;
     task_port_table := task_port_table t;
     task_has_stacks := task_has_stacks t |}.
Definition set_task_killed (b : bool) (t : rust_task) : rust_task :=
  {| task_id := task_id t; task_thread := task_thread t;
     task_ref_count := task_ref_count t; task_state := task_state t;
     task_cond := task_cond t; task_cond_name := task_cond_name t;
     task_killed := b; task_supervised := task_supervised t;
     task_rendezvous_ptr := task_rendezvous_ptr t;
     task_port_table := task_port_table t;
     task_has_stacks := task_has_stacks t |}.
Definition set_task_supervised (b : bool) (t : rust_task) : rust_task :=
  {| task_id := task_id t; task_thread := task_thread t;
     task_ref_count := task_ref_count t; task_state := task_state t;
     task_cond := task_cond t; task_cond_name := task_cond_name t;
     task_killed := task_killed t; task_supervised := b;
     task_rendezvous_ptr := task_rendezvous_ptr t;
     task_port_table := task_port_table t;
     task_has_stacks := task_has_stacks t |}.
Definition set_task_rendezvous_ptr (p : option Z) (t : rust_task)
  : rust_task :=
  {| task_id := task_id t; task_thread := task_thread t;
     task_ref_count := task_ref_count t; task_state := task_state t;
     task_cond := task_cond t; task_cond_name := task_cond_name t;
     task_killed := task_killed t; task_supervised := task_supervised t;
     task_rendezvous_ptr := p;
     task_port_table := task_port_table t;
     task_has_stacks := task_has_stacks t |}.
Definition set_task_has_stacks (b : bool) (t : rust_task) : rust_task :=
  {| task_id := task_id t; task_thread := task_thread t;
     task_ref_count := task_ref_count t; task_state := task_state t;
     task_cond := task_cond t; task_cond_name := task_cond_name t;
     task_killed := task_killed t; task_supervised := task_supervised t;
     task_rendezvous_ptr := task_rendezvous_ptr t;
     task_port_table := task_port_table t;
     task_has_stacks := b |}.

(** The task list of a worker that [l] names, and its replacement. *)
Definition get_list (l : task_list) (th : rust_task_thread) : list Z :=
  match l with
  | newborn => newborn_tasks th
  | running => running_tasks th
  | blocked => blocked_tasks th
  | dead => dead_tasks th
  end.

Definition set_list (l : task_list) (ts : list Z) (th : rust_task_thread)
  : rust_task_thread :=
  match l with
  | newborn =>
      {| thread_id := thread_id th; thread_sched := thread_sched th;
         should_exit := should_exit th;
         newborn_tasks := ts; running_tasks := running_tasks th;
         blocked_tasks := blocked_tasks th; dead_tasks := dead_tasks th;
         thread_rctx := thread_rctx th |}
  | running =>
      {| thread_id := thread_id th; thread_sched := thread_sched th;
         should_exit := should_exit th;
         newborn_tasks := newborn_tasks th; running_tasks := ts;
         blocked_tasks := blocked_tasks th; dead_tasks := dead_tasks th;
         thread_rctx := thread_rctx th |}
  | blocked =>
      {| thread_id := thread_id th; thread_sched := thread_sched th;
         should_exit := should_exit th;
         newborn_tasks := newborn_tasks th; running_tasks := running_tasks th;
         blocked_tasks := ts; dead_tasks := dead_tasks th;
         thread_rctx := thread_rctx th |}
  | dead =>
      {| thread_id := thread_id th; thread_sched := thread_sched th;
         should_exit := should_exit th;
         newborn_tasks := newborn_tasks th; running_tasks := running_tasks th;
         blocked_tasks := blocked_tasks th; dead_tasks := ts;
         thread_rctx := thread_rctx th |}
  end.

Definition set_should_exit (b : bool) (th : rust_task_thread)
  : rust_task_thread :=
  {| thread_id := thread_id th; thread_sched := thread_sched th;
     should_exit := b;
     newborn_tasks := newborn_tasks th; running_tasks := running_tasks th;
     blocked_tasks := blocked_tasks th; dead_tasks := dead_tasks th;
     thread_rctx := thread_rctx th |}.

Definition set_thread_rctx (r : randctx) (th : rust_task_thread)
  : rust_task_thread :=
  {| thread_id := thread_id th; thread_sched := thread_sched th;
     should_exit := should_exit th;
     newborn_tasks := newborn_tasks th; running_tasks := running_tasks th;
     blocked_tasks := blocked_tasks th; dead_tasks := dead_tasks th;
     thread_rctx := r |}.

(** *** The kernel's id tables *)

(** Modelled from the spec: [rust_kernel.cpp] is not among the sources.
    [register_task(task)]: the kernel keeps a monotonic id allocator per
    table and a map from task id to task. *)
Definition rust_kernel_register_task (t : Z) : M unit :=
  do id <- gets (fun w => max_task_id (kernel w));
  do task <- load_task t;
  store_task t (set_task_id id task) ;;
  modify (fun w =>
    set_kernel (set_task_table (<[id := t]> (task_table (kernel w)))
                  (set_max_task_id (id + 1) (kernel w))) w).

(** Modelled from the spec: [get_task(id)] yields the task or nothing and
    increments the task's reference count on a hit. *)
Definition rust_kernel_get_task_by_id (id : Z) : M (option Z) :=
  do k <- gets kernel;
  match task_table k !! id with
  | Some t =>
      do task <- load_task t;
      store_task t (set_task_ref_count (task_ref_count task + 1) task) ;;
      ret (Some t)
  | None => ret None
  end.

(** Modelled from the spec: [release_task_id(id)] removes the entry. *)
Definition rust_kernel_release_task_id (id : Z) : M unit :=
  emit (ev_release_task_id id) ;;
  modify (fun w =>
    set_kernel (set_task_table (delete id (task_table (kernel w)))
                  (kernel w)) w).

(** Modelled from the spec: [release_scheduler_id(id)], called by a
    scheduler's last worker on exit, removes the entry. *)
Definition rust_kernel_release_scheduler_id (id : Z) : M unit :=
  emit (ev_release_scheduler_id id) ;;
  modify (fun w =>
    set_kernel (set_sched_table (delete id (sched_table (kernel w)))
                  (kernel w)) w).

(** Modelled from the spec: [get_scheduler(id)] yields the scheduler or
    nothing. *)
Definition rust_kernel_get_scheduler_by_id (id : Z) : M (option Z) :=
  do k <- gets kernel;
  ret (match sched_table k !! id with Some _ => Some id | None => None end).

(** *** [rust_task_thread]: task lists *)

(** Constructor of [rust_task_thread]: four empty lists, [should_exit]
    false and a freshly seeded generator. *)
Definition rust_task_thread_new (sched : Z) (id : Z) : rust_task_thread :=
  {| thread_id := id; thread_sched := sched; should_exit := false;
     newborn_tasks := []; running_tasks := []; blocked_tasks := [];
     dead_tasks := []; thread_rctx := isaac_init |}.

(** [rust_task_list::remove] and [append] come from [indexed_list], which
    is not among the sources; removal drops the task from the list. *)
Definition remove_task (t : Z) (l : list Z) : list Z :=
  filter (fun x => x <> t) l.

(** [rust_task_thread::transition].  Which OS thread holds a lock is not
    represented, so the conditional locking around the body leaves no
    trace; the signal does. *)
Definition rust_task_thread_transition (th t : Z) (src dst : task_list)
    (cond : option rust_cond) (cond_name : string) : M unit :=
  do task <- load_task t;
  assert_I (bool_decide (task_state task = src))
    "task->get_state() == src" ;;
  do thr <- load_thread th;
  store_thread th (set_list src (remove_task t (get_list src thr)) thr) ;;
  do thr <- load_thread th;
  store_thread th (set_list dst (get_list dst thr ++ [t]) thr) ;;
  store_task t (set_state dst cond cond_name task) ;;
  signal (thread_lock th).

(** [rust_task_thread::exit]. *)
Definition rust_task_thread_exit (th : Z) : M unit :=
  lock (thread_lock th) ;;
  do thr <- load_thread th;
  store_thread th (set_should_exit true thr) ;;
  signal (thread_lock th) ;;
  unlock (thread_lock th).

(** Modelled from the spec: the constructor of [rust_task] is not among
    the sources.  A task is created in [newborn], pinned to its worker,
    supervised, not killed, with its own stack and an empty rendezvous
    slot; the worker holds the one reference that reaping drops. *)
Definition rust_task_new (thread : Z) : rust_task :=
  {| task_id := 0; task_thread := thread; task_ref_count := 1;
     task_state := newborn; task_cond := None; task_cond_name := "none";
     task_killed := false; task_supervised := true;
     task_rendezvous_ptr := None; task_port_table := ∅;
     task_has_stacks := true |}.

(** [rust_task_thread::create_task]: a new task object is appended to
    [newborn_tasks] under the worker's lock and registered with the
    kernel; its id is returned.  The spawner and the name only reach the
    constructor and the log. *)
Definition rust_task_thread_create_task (th : Z) : M Z :=
  do heap <- gets tasks;
  let t := fresh (dom heap) in
  store_task t (rust_task_new th) ;;
  lock (thread_lock th) ;;
  do thr <- load_thread th;
  store_thread th (set_list newborn (newborn_tasks thr ++ [t]) thr) ;;
  unlock (thread_lock th) ;;
  rust_kernel_register_task t ;;
  do task <- load_task t;
  ret (task_id task).

(** *** [rust_scheduler] *)

Definition set_live_threads (n : Z) (s : rust_scheduler) : rust_scheduler :=
  {| live_threads := n; live_tasks := live_tasks s;
     num_threads := num_threads s; cur_thread := cur_thread s;
     sched_id := sched_id s; sched_threads := sched_threads s |}.
Definition set_live_tasks (n : Z) (s : rust_scheduler) : rust_scheduler :=
  {| live_threads := live_threads s; live_tasks := n;
     num_threads := num_threads s; cur_thread := cur_thread s;
     sched_id := sched_id s; sched_threads := sched_threads s |}.
Definition set_cur_thread (n : Z) (s : rust_scheduler) : rust_scheduler :=
  {| live_threads := live_threads s; live_tasks := live_tasks s;
     num_threads := num_threads s; cur_thread := n;
     sched_id := sched_id s; sched_threads := sched_threads s |}.

(** [rust_scheduler::create_task_thread]: a new worker object. *)
Definition rust_scheduler_create_task_thread (sched : Z) (id : Z) : M Z :=
  do heap <- gets threads;
  let th := fresh (dom heap) in
  store_thread th (rust_task_thread_new sched id) ;;
  ret th.

(** [rust_scheduler::create_task_threads]: the loop
    [for (size_t i = 0; i < num_threads; ++i) threads.push(create_task_thread(i))]
    with [n] iterations left and [acc] the vector so far. *)
Fixpoint create_task_threads_loop (sched : Z) (i : Z) (n : nat)
    (acc : list Z) : M (list Z) :=
  match n with
  | O => ret acc
  | S n' =>
      do th <- rust_scheduler_create_task_thread sched (to_int i);
      create_task_threads_loop sched (size_add i 1) n' (acc ++ [th])
  end.

Definition rust_scheduler_create_task_threads (sched : Z) (num_threads : Z)
  : M (list Z) :=
  create_task_threads_loop sched 0 (Z.to_nat num_threads) [].

(** Constructor of [rust_scheduler]. *)
Definition rust_scheduler_new (num_threads : Z) (id : Z) : M rust_scheduler :=
  do ths <- rust_scheduler_create_task_threads id num_threads;
  ret {| live_threads := num_threads; live_tasks := 0;
         num_threads := num_threads; cur_thread := 0; sched_id := id;
         sched_threads := ths |}.

(** The block of [rust_scheduler::create_task] that runs under
    [scoped_lock with(lock)]: the chosen [thread_no] and the scheduler
    after it. *)
Definition create_task_locked (s : rust_scheduler) : Z * rust_scheduler :=
  let s1 := set_live_tasks (size_add (live_tasks s) 1) s in
  let thread_no := cur_thread s1 in
  let s2 := set_cur_thread (size_add (cur_thread s1) 1) s1 in
  let s3 := if decide (cur_thread s2 >= num_threads s2)
            then set_cur_thread 0 s2 else s2 in
  (thread_no, s3).

(** [rust_scheduler::create_task]. *)
Definition rust_scheduler_create_task (sched : Z) : M Z :=
  lock (sched_lock sched) ;;
  do s <- load_sched sched;
  let '(thread_no, s') := create_task_locked s in
  store_sched sched s' ;;
  unlock (sched_lock sched) ;;
  match sched_threads s' !! Z.to_nat thread_no with
  | Some thread => rust_task_thread_create_task thread
  | None => stuck "threads[thread_no]"
  end.

(** [rust_scheduler::exit]: the loop over [threads[i]->get_loop()->exit()]. *)
Fixpoint exit_loop (ths : list Z) (i : Z) (n : nat) : M unit :=
  match n with
  | O => ret tt
  | S n' =>
      match ths !! Z.to_nat i with
      | Some thread =>
          rust_task_thread_exit thread ;; exit_loop ths (size_add i 1) n'
      | None => stuck "threads[i]"
      end
  end.

Definition rust_scheduler_exit (sched : Z) : M unit :=
  do s <- load_sched sched;
  let current_num_threads := num_threads s in
  exit_loop (sched_threads s) 0 (Z.to_nat current_num_threads).

(** [rust_scheduler::release_task]. *)
Definition rust_scheduler_release_task (sched : Z) : M unit :=
  lock (sched_lock sched) ;;
  do s <- load_sched sched;
  let s' := set_live_tasks (size_sub (live_tasks s) 1) s in
  store_sched sched s' ;;
  let need_exit := bool_decide (live_tasks s' = 0) in
  unlock (sched_lock sched) ;;
  if need_exit then rust_scheduler_exit sched else ret tt.

(** [rust_scheduler::release_task_thread]. *)
Definition rust_scheduler_release_task_thread (sched : Z) : M unit :=
  lock (sched_lock sched) ;;
  do s <- load_sched sched;
  let new_live_threads := size_sub (live_threads s) 1 in
  store_sched sched (set_live_threads new_live_threads s) ;;
  unlock (sched_lock sched) ;;
  if decide (new_live_threads = 0)
  then rust_kernel_release_scheduler_id (sched_id s)
  else ret tt.

(** *** [rust_task] *)

(** Modelled from the spec: [rust_task.cpp] is not among the sources.
    [blocked_on(cond)]: the task is blocked, and on this condition. *)
Definition rust_task_blocked_on (t : Z) (on : rust_cond) : M bool :=
  do task <- load_task t;
  ret (bool_decide (task_state task = blocked /\ task_cond task = Some on)).

(** Modelled from the spec: [block(on_cond, reason)] asserts state
    [running], transitions [running -> blocked] and stores the condition
    and the reason.  The suspension itself is left to the caller:
    [port_recv] and [select] ask for it through their yield flag. *)
Definition rust_task_block (t : Z) (on : rust_cond) (name : string)
  : M unit :=
  do task <- load_task t;
  rust_task_thread_transition (task_thread task) t running blocked
    (Some on) name.

(** Modelled from the spec: [wakeup(from_cond)] asserts state [blocked]
    and [cond == from_cond], transitions [blocked -> running] and signals
    the worker's condition variable. *)
Definition rust_task_wakeup (t : Z) (from : option rust_cond) : M unit :=
  do task <- load_task t;
  assert_A (bool_decide (task_cond task = from)) "cond == from" ;;
  emit (ev_wakeup t) ;;
  rust_task_thread_transition (task_thread task) t blocked running
    None "none".

(** Modelled from the spec: [kill()] sets [killed]; if the state is
    [blocked], it wakes the task. *)
Definition rust_task_kill (t : Z) : M unit :=
  emit (ev_kill t) ;;
  do task <- load_task t;
  store_task t (set_task_killed true task) ;;
  if decide (task_state task = blocked)
  then rust_task_wakeup t (task_cond task)
  else ret tt.

(** Modelled from the spec: [unsupervise()] clears [supervised]. *)
Definition rust_task_unsupervise (t : Z) : M unit :=
  emit (ev_unsupervise t) ;;
  do task <- load_task t;
  store_task t (set_task_supervised false task).

(** Modelled from the spec: a failure is propagated as a kill to the
    parent if and only if the task is [supervised]. *)
Definition propagates_failure (task : rust_task) : bool :=
  task_supervised task.

(** Modelled from the spec: the task's stacks are destroyed. *)
Definition rust_task_delete_all_stacks (t : Z) : M unit :=
  emit (ev_delete_all_stacks t) ;;
  do task <- load_task t;
  store_task t (set_task_has_stacks false task).

(** [rust_task_thread::release_task]. *)
Definition rust_task_thread_release_task (th t : Z) : M unit :=
  do task <- load_task t;
  assert_I (bool_decide (task_ref_count task = 0))
    "task->get_ref_count() == 0" ;;
  do found <- rust_kernel_get_task_by_id (task_id task);
  assert_I (bool_decide (found = None))
    "kernel->get_task_by_id(task->id) == NULL" ;;
  emit (ev_delete_task t) ;;
  modify (fun w => set_tasks (delete t (tasks w)) w) ;;
  do thr <- load_thread th;
  rust_scheduler_release_task (thread_sched thr).

(** Modelled from the spec: [deref()] decrements the reference count,
    which may in turn have the worker release the task. *)
Definition rust_task_deref (t : Z) : M unit :=
  emit (ev_deref t) ;;
  do task <- load_task t;
  let n := task_ref_count task - 1 in
  store_task t (set_task_ref_count n task) ;;
  if decide (n = 0)
  then rust_task_thread_release_task (task_thread task) t
  else ret tt.

(** *** [rust_port] *)

Definition set_port_buffer (b : list unit_data) (p : rust_port) : rust_port :=
  {| port_id := port_id p; port_task := port_task p;
     port_unit_sz := port_unit_sz p; port_buffer := b;
     port_ref_count := port_ref_count p |}.
Definition set_port_ref_count (n : Z) (p : rust_port) : rust_port :=
  {| port_id := port_id p; port_task := port_task p;
     port_unit_sz := port_unit_sz p; port_buffer := port_buffer p;
     port_ref_count := n |}.

(** Modelled from the spec: [rust_port.cpp] is not among the sources.
    [receive(dst)] pops one message into [dst] and returns true if the
    buffer is non-empty, and returns false otherwise. *)
Definition rust_port_receive (p : Z) (dptr : Z) : M bool :=
  do port <- load_port p;
  match port_buffer port with
  | [] => ret false
  | d :: rest =>
      store_mem dptr (cell_unit d) ;;
      store_port p (set_port_buffer rest port) ;;
      ret true
  end.

(** Modelled from the spec: each successful lookup of a port increments
    its reference count before use. *)
Definition rust_task_get_port_by_id (t : Z) (id : Z) : M (option Z) :=
  do task <- load_task t;
  match task_port_table task !! id with
  | Some p =>
      do port <- load_port p;
      store_port p (set_port_ref_count (port_ref_count port + 1) port) ;;
      ret (Some p)
  | None => ret None
  end.

(** Modelled from the spec: dropping a reference to a port; the port is
    deleted with its last reference. *)
Definition rust_port_deref (p : Z) : M unit :=
  do port <- load_port p;
  let n := port_ref_count port - 1 in
  if decide (n = 0)
  then modify (fun w => set_ports (delete p (ports w)) w)
  else store_port p (set_port_ref_count n port).

(** *** [rust_port_selector] *)

Definition set_sel_published (ps : option (list Z)) (n : Z)
    (s : rust_port_selector) : rust_port_selector :=
  {| sel_ports := ps; sel_n_ports := n; sel_rctx := sel_rctx s |}.
Definition set_sel_rctx (r : randctx) (s : rust_port_selector)
  : rust_port_selector :=
  {| sel_ports := sel_ports s; sel_n_ports := sel_n_ports s; sel_rctx := r |}.

(** Constructor of [rust_port_selector]. *)
Definition rust_port_selector_new : rust_port_selector :=
  {| sel_ports := None; sel_n_ports := 0; sel_rctx := isaac_init |}.

(** The index [(i + j) % n_ports] of [select], in [size_t] arithmetic. *)
Definition select_index (i j n_ports : Z) : Z := size_add i j mod n_ports.

(** The first loop of [rust_port_selector::select], from index [i] with
    [fuel] iterations to go: the locks taken and whether a port with a
    message was found. *)
Fixpoint select_scan (ports : list Z) (n_ports j dptr : Z) (i : Z)
    (fuel : nat) (locks_taken : Z) : M (Z * bool) :=
  match fuel with
  | O => ret (locks_taken, false)
  | S fuel' =>
      let k := select_index i j n_ports in
      match ports !! Z.to_nat k with
      | None => stuck "ports[k]"
      | Some port =>
          lock (port_lock port) ;;
          let locks_taken := size_add locks_taken 1 in
          do p <- load_port port;
          if decide (Z.of_nat (length (port_buffer p)) > 0)
          then store_mem dptr (cell_port port) ;; ret (locks_taken, true)
          else select_scan ports n_ports j dptr (size_add i 1) fuel'
                 locks_taken
      end
  end.

(** The last loop of [select]: the locks are released from index 0 up. *)
Fixpoint select_unlock (ports : list Z) (n_ports j : Z) (i : Z) (fuel : nat)
  : M unit :=
  match fuel with
  | O => ret tt
  | S fuel' =>
      let k := select_index i j n_ports in
      match ports !! Z.to_nat k with
      | None => stuck "ports[k]"
      | Some port =>
          unlock (port_lock port) ;;
          select_unlock ports n_ports j (size_add i 1) fuel'
      end
  end.

(** [rust_port_selector::select]; the result is what is left in [*yield].
    [dptr], [ports] and [yield] are references here, so the checks that
    they are not NULL hold by typing, as does the one on [ports[k]]. *)
Definition rust_port_selector_select (this task : Z) (dptr : Z)
    (ports : list Z) (n_ports : Z) : M bool :=
  do s <- load_selector this;
  assert_I (bool_decide (sel_ports s = None)) "this->ports == NULL" ;;
  assert_I (bool_decide (sel_n_ports s = 0)) "this->n_ports == 0" ;;
  assert_I (bool_decide (n_ports <> 0)) "n_ports != 0" ;;
  let '(r, rctx') := isaac_rand (sel_rctx s) in
  store_selector this (set_sel_rctx rctx' s) ;;
  let j := size_wrap r in
  do scan <- select_scan ports n_ports j dptr 0 (Z.to_nat n_ports) 0;
  let '(locks_taken, found_msg) := scan in
  do yield <-
    (if found_msg then ret false
     else
       do s <- load_selector this;
       store_selector this (set_sel_published (Some ports) n_ports s) ;;
       do t <- load_task task;
       assert_I (bool_decide (task_rendezvous_ptr t = None))
         "task->rendezvous_ptr == NULL" ;;
       store_task task (set_task_rendezvous_ptr (Some dptr) t) ;;
       rust_task_block task (cond_selector this)
         "waiting for select rendezvous" ;;
       ret true);
  select_unlock ports n_ports j 0 (Z.to_nat locks_taken) ;;
  ret yield.

(** The loop of [rust_port_selector::msg_sent_on] from index [i]. *)
Fixpoint msg_sent_on_loop (this port task : Z) (i : Z) (fuel : nat)
  : M unit :=
  match fuel with
  | O => ret tt
  | S fuel' =>
      do s <- load_selector this;
      match sel_ports s with
      | None => stuck "ports[i]"
      | Some ports =>
          match ports !! Z.to_nat i with
          | None => stuck "ports[i]"
          | Some q =>
              if decide (port = q)
              then
                store_selector this (set_sel_published None 0 s) ;;
                do t <- load_task task;
                match task_rendezvous_ptr t with
                | None => stuck "*task->rendezvous_ptr"
                | Some slot =>
                    store_mem slot (cell_port port) ;;
                    store_task task (set_task_rendezvous_ptr None t) ;;
                    rust_task_wakeup task (Some (cond_selector this))
                end
              else msg_sent_on_loop this port task (size_add i 1) fuel'
          end
      end
  end.

(** [rust_port_selector::msg_sent_on].  The check that the caller does not
    hold the port's lock is about lock ownership, which is not
    represented. *)
Definition rust_port_selector_msg_sent_on (this port : Z) : M unit :=
  do p <- load_port port;
  let task := port_task p in
  lock (rendezvous_lock this) ;;
  do b <- rust_task_blocked_on task (cond_selector this);
  (if b
   then
     do s <- load_selector this;
     msg_sent_on_loop this port task 0 (Z.to_nat (sel_n_ports s))
   else ret tt) ;;
  unlock (rendezvous_lock this).

(** Modelled from the spec: [send(data)], under the port's lock.  If the
    owning task is blocked on this port and its rendezvous slot is set,
    the message goes into the slot, the slot is cleared and the receiver
    is woken, with no buffer append.  Otherwise the message is appended
    and, if the owner is in a selector, [msg_sent_on] is invoked.  Sends
    to gone owners are dropped. *)
Definition rust_port_send (p : Z) (d : unit_data) : M unit :=
  emit (ev_send p d) ;;
  lock (port_lock p) ;;
  do port <- load_port p;
  do heap <- gets tasks;
  match heap !! port_task port with
  | None => unlock (port_lock p)
  | Some owner =>
      match
        task_rendezvous_ptr owner,
        bool_decide (task_state owner = blocked /\
                     task_cond owner = Some (cond_port p))
      with
      | Some slot, true =>
          store_mem slot (cell_unit d) ;;
          store_task (port_task port) (set_task_rendezvous_ptr None owner) ;;
          rust_task_wakeup (port_task port) (Some (cond_port p)) ;;
          unlock (port_lock p)
      | _, _ =>
          store_port p (set_port_buffer (port_buffer port ++ [d]) port) ;;
          unlock (port_lock p) ;;
          match task_state owner, task_cond owner with
          | blocked, Some (cond_selector sel) =>
              rust_port_selector_msg_sent_on sel p
          | _, _ => ret tt
          end
      end
  end.

(** *** Native builtins *)

(** [port_recv]: what is left in [*yield] and in [*killed].  [task] is the
    calling task, [rust_task_thread::get_task()]. *)
Definition port_recv (task : Z) (dptr : Z) (port : Z) : M (bool * bool) :=
  lock (port_lock port) ;;
  do received <- rust_port_receive port dptr;
  if received
  then unlock (port_lock port) ;; ret (false, false)
  else
    do t <- load_task task;
    if task_killed t
    then unlock (port_lock port) ;; ret (false, true)
    else
      store_task task (set_task_rendezvous_ptr (Some dptr) t) ;;
      rust_task_block task (cond_port port) "waiting for rendezvous data" ;;
      unlock (port_lock port) ;;
      ret (true, false).

(** [chan_id_send]: the value returned, [sent]. *)
Definition chan_id_send (target_task_id target_port_id : Z)
    (sptr : unit_data) : M bool :=
  do target <- rust_kernel_get_task_by_id target_task_id;
  match target with
  | Some target_task =>
      do found <- rust_task_get_port_by_id target_task target_port_id;
      do sent <-
        match found with
        | Some port =>
            rust_port_send port sptr ;;
            lock (task_lock target_task) ;;
            rust_port_deref port ;;
            unlock (task_lock target_task) ;;
            ret true
        | None => ret false
        end;
      rust_task_deref target_task ;;
      ret sent
  | None => ret false
  end.

(** *** The event-loop glue, [rust_uvtmp.cpp] *)

Record chan_handle : Type := {
  chan_task : Z;
  chan_port : Z
}.

Record write_data : Type := {
  wd_cd : Z;
  wd_buf : Z;
  wd_len : Z;
  wd_chan : chan_handle
}.

Record timer_start_data : Type := {
  td_timeout : Z;
  td_req_id : Z;
  td_chan : chan_handle
}.

Record read_start_data : Type := {
  rd_cd : Z;
  rd_chan : chan_handle
}.

(** The file's own [send], a copy of [chan_id_send] without a result. *)
Definition uvtmp_send (chan : chan_handle) (data : unit_data) : M unit :=
  do target <- rust_kernel_get_task_by_id (chan_task chan);
  match target with
  | Some target_task =>
      do found <- rust_task_get_port_by_id target_task (chan_port chan);
      match found with
      | Some port =>
          rust_port_send port data ;;
          lock (task_lock target_task) ;;
          rust_port_deref port ;;
          unlock (task_lock target_task)
      | None => ret tt
      end ;;
      rust_task_deref target_task
  | None => ret tt
  end.

(** The message that [on_connect] builds. *)
Definition on_connect_msg (cd : Z) : iomsg :=
  {| tag := connected_tag; val := connected_val cd |}.

(** The message that [on_write] builds. *)
Definition on_write_msg (wd : write_data) : iomsg :=
  {| tag := timer_tag; val := wrote_val (wd_cd wd) |}.

(** The message that [on_read] builds. *)
Definition on_read_msg (rd : read_start_data) (nread buf : Z) : iomsg :=
  {| tag := read_tag; val := read_val (rd_cd rd) buf nread |}.

(** The message that [on_timer] builds. *)
Definition on_timer_msg (td : timer_start_data) : iomsg :=
  {| tag := timer_tag; val := timer_req_id (td_req_id td) |}.

(** [rust_uvtmp_thread::on_write]; freeing the buffers leaves no mark. *)
Definition rust_uvtmp_thread_on_write (wd : write_data) : M unit :=
  uvtmp_send (wd_chan wd) (iomsg_unit (on_write_msg wd)).

(** [rust_uvtmp_thread::on_timer]. *)
Definition rust_uvtmp_thread_on_timer (td : timer_start_data) : M unit :=
  uvtmp_send (td_chan td) (iomsg_unit (on_timer_msg td)).

(** *** [rust_task_thread]: killing, reaping, scheduling *)

(** The [while (!all_tasks.empty())] loop of [kill_all_tasks]: the task at
    the back of the vector is taken off and killed. *)
Fixpoint kill_all_loop (all_tasks : list Z) (fuel : nat) : M unit :=
  match fuel with
  | O => ret tt
  | S fuel' =>
      match last all_tasks with
      | None => ret tt
      | Some task =>
          rust_task_unsupervise task ;;
          rust_task_kill task ;;
          kill_all_loop (removelast all_tasks) fuel'
      end
  end.

(** [rust_task_thread::kill_all_tasks]. *)
Definition rust_task_thread_kill_all_tasks (th : Z) : M unit :=
  lock (thread_lock th) ;;
  do thr <- load_thread th;
  let all_tasks := running_tasks thr ++ blocked_tasks thr in
  unlock (thread_lock th) ;;
  kill_all_loop all_tasks (length all_tasks).

(** [rust_task_thread::number_of_live_tasks]. *)
Definition rust_task_thread_number_of_live_tasks (th : Z) : M Z :=
  do thr <- load_thread th;
  ret (size_add (Z.of_nat (length (running_tasks thr)))
                (Z.of_nat (length (blocked_tasks thr)))).

(** [rust_task_thread::reap_dead_tasks].  It is entered and left with the
    worker's lock held. *)
Definition rust_task_thread_reap_dead_tasks (th : Z) : M unit :=
  do thr <- load_thread th;
  if decide (length (dead_tasks thr) = 0%nat) then ret tt
  else
    assert_A (bool_decide (length (dead_tasks thr) = 1%nat))
      "Only one task should die during a single turn of the event loop" ;;
    match last (dead_tasks thr) with
    | None => stuck "dead_tasks.pop_value()"
    | Some dead_task =>
        store_thread th (set_list dead (removelast (dead_tasks thr)) thr) ;;
        unlock (thread_lock th) ;;
        do task <- load_task dead_task;
        rust_kernel_release_task_id (task_id task) ;;
        rust_task_delete_all_stacks dead_task ;;
        rust_task_deref dead_task ;;
        lock (thread_lock th)
    end.

(** [rust_task_thread::schedule_task]: the loop returns in its first
    iteration, [j = 0]. *)
Definition rust_task_thread_schedule_task (th : Z) : M (option Z) :=
  do thr <- load_thread th;
  let len := Z.of_nat (length (running_tasks thr)) in
  if decide (len > 0)
  then
    let '(r, rctx') := isaac_rand (thread_rctx thr) in
    store_thread th (set_thread_rctx rctx' thr) ;;
    let k := size_wrap r in
    let i := size_add 0 k mod len in
    match running_tasks thr !! Z.to_nat i with
    | Some t => ret (Some t)
    | None => stuck "running_tasks[i]"
    end
  else ret None.

(** [rust_scheduler::kill_all_tasks]: the loop over the workers. *)
Fixpoint sched_kill_all_loop (ths : list Z) (i : Z) (n : nat) : M unit :=
  match n with
  | O => ret tt
  | S n' =>
      match ths !! Z.to_nat i with
      | Some thread =>
          rust_task_thread_kill_all_tasks thread ;;
          sched_kill_all_loop ths (size_add i 1) n'
      | None => stuck "threads[i]"
      end
  end.

Definition rust_scheduler_kill_all_tasks (sched : Z) : M unit :=
  do s <- load_sched sched;
  sched_kill_all_loop (sched_threads s) 0 (Z.to_nat (num_threads s)).

(** Modelled from the spec: [rust_kernel::create_scheduler] is not among
    the sources.  It allocates an id, constructs a scheduler with
    [num_threads] workers, registers it and returns the id; it fails with
    [InvalidArg] when [num_threads] is 0.  Starting the workers' OS
    threads leaves no mark on the world. *)
Definition rust_kernel_create_scheduler (num_threads : Z)
  : M (rt_error + Z) :=
  if decide (num_threads = 0) then ret (inl InvalidArg)
  else
    do id <- gets (fun w => max_sched_id (kernel w));
    modify (fun w => set_kernel (set_max_sched_id (id + 1) (kernel w)) w) ;;
    do sched <- rust_scheduler_new num_threads id;
    store_sched id sched ;;
    ret (inr id).

(** [rust_new_sched], the builtin that user code calls. *)
Definition rust_new_sched (threads : Z) : M (rt_error + Z) :=
  assert_A (bool_decide (threads > 0))
    "Can't create a scheduler with no threads, silly!" ;;
  rust_kernel_create_scheduler threads.

(** The scenario "spawn [n] tasks back-to-back on one scheduler": the
    ids that the calls return, in order. *)
Fixpoint create_tasks (sched : Z) (n : nat) : M (list Z) :=
  match n with
  | O => ret []
  | S n' =>
      do id <- rust_scheduler_create_task sched;
      do ids <- create_tasks sched n';
      ret (id :: ids)
  end.

(** [rust_scheduler::number_of_threads]. *)
Definition rust_scheduler_number_of_threads (sched : Z) : M Z :=
  do s <- load_sched sched;
  ret (num_threads s).

End Operations.

(** ** Concrete platforms and worlds *)

(** A 64-bit and a 32-bit platform; the generator hands out its state and
    steps by one. *)
Definition x86_64 : Platform :=
  {| size_bits := 64; size_bits_pos := eq_refl; randctx := Z;
     isaac_init := 0; isaac_rand := fun r => (r, r + 1) |}.

Definition i686 : Platform :=
  {| size_bits := 32; size_bits_pos := eq_refl; randctx := Z;
     isaac_init := 0; isaac_rand := fun r => (r, r + 1) |}.

Definition empty_kernel : rust_kernel :=
  {| max_task_id := 0; task_table := ∅; max_sched_id := 0;
     sched_table := ∅ |}.

Definition empty_world `{Platform} : world :=
  {| kernel := empty_kernel; threads := ∅; tasks := ∅; ports := ∅;
     selectors := ∅; mem := ∅; trace := [] |}.

(** The world of an outcome, for the concrete runs. *)
Definition world_of `{Platform} {A} (r : result (A * world)) : world :=
  match r with
  | Ok (_, w) => w
  | _ => empty_world
  end.

(** A scheduler with three workers, as [create_scheduler] builds it in an
    empty world. *)
Definition sched3 : rust_scheduler :=
  {| live_threads := 3; live_tasks := 0; num_threads := 3; cur_thread := 0;
     sched_id := 0; sched_threads := [0; 1; 2] |}.

Definition world3 : @world x86_64 :=
  world_of (@rust_kernel_create_scheduler x86_64 3 empty_world).

(** A worker with one task on each of its lists; task 12 is blocked on
    port 5. *)
Definition mk_task (id thread : Z) (st : task_list) (c : option rust_cond)
  : rust_task :=
  {| task_id := id; task_thread := thread; task_ref_count := 1;
     task_state := st; task_cond := c; task_cond_name := "none";
     task_killed := false; task_supervised := true;
     task_rendezvous_ptr := None; task_port_table := ∅;
     task_has_stacks := true |}.

Definition thread_kill : @rust_task_thread x86_64 :=
  {| thread_id := 0; thread_sched := 0; should_exit := false;
     newborn_tasks := [10]; running_tasks := [11]; blocked_tasks := [12];
     dead_tasks := [13]; thread_rctx := @isaac_init x86_64 |}.

Definition world_kill : @world x86_64 :=
  {| kernel := empty_kernel;
     threads := {[ 0 := thread_kill ]};
     tasks := {[ 10 := mk_task 0 0 newborn None;
                 11 := mk_task 1 0 running None;
                 12 := mk_task 2 0 blocked (Some (cond_port 5));
                 13 := mk_task 3 0 dead None ]};
     ports := ∅; selectors := ∅; mem := ∅; trace := [] |}.

(** ** Vocabulary of the statements *)

Section Vocabulary.
Context `{Platform}.

(** A scheduler as its constructor leaves it and [create_task] keeps it:
    registered under [sched], with between 1 and [SIZE_MAX] workers that
    are all alive and distinct, and its cursor inside the vector. *)
Definition sched_wf (w : world) (sched : Z) (s : rust_scheduler) : Prop :=
  sched_table (kernel w) !! sched = Some s /\
  1 <= num_threads s < size_modulus /\
  0 <= cur_thread s < num_threads s /\
  0 <= live_tasks s < size_modulus /\
  Z.of_nat (length (sched_threads s)) = num_threads s /\
  NoDup (sched_threads s) /\
  Forall (fun th => is_Some (threads w !! th)) (sched_threads s).

(** How many tasks sit in the newborn list of worker [th]. *)
Definition newborn_count (w : world) (th : Z) : nat :=
  match threads w !! th with
  | Some thr => length (newborn_tasks thr)
  | None => O
  end.

(** What one [rust_scheduler::create_task] delegated to worker [th] adds
    to the trace. *)
Definition call_trace (sched th : Z) : list event :=
  [ev_lock (sched_lock sched); ev_unlock (sched_lock sched);
   ev_lock (thread_lock th); ev_unlock (thread_lock th)].

(** Among calls [0 .. n-1], how many have [(c0 + i) mod N = j]. *)
Definition delegated (N c0 : Z) (n : nat) (j : nat) : nat :=
  length (filter (fun i => (c0 + Z.of_nat i) mod N = Z.of_nat j) (seq 0 n)).

(** The worker at index [(cur_thread + i) mod num_threads] of the vector. *)
Definition worker_of_call (s : rust_scheduler) (i : nat) : Z :=
  sched_threads s !!! Z.to_nat ((cur_thread s + Z.of_nat i) mod num_threads s).

End Vocabulary.

(** ** Sequences of scheduler operations *)

Section SchedulerOps.
Context `{Platform}.

(** The operations of [rust_scheduler] that run on a constructed
    scheduler. *)
Inductive sched_op : Type :=
| op_create_task
| op_release_task
| op_release_task_thread
| op_exit
| op_kill_all_tasks
| op_number_of_threads.

Global Instance sched_op_eq_dec : EqDecision sched_op.
Proof. solve_decision. Defined.

Definition run_sched_op (sched : Z) (op : sched_op) : M unit :=
  match op with
  | op_create_task => rust_scheduler_create_task sched ;; ret tt
  | op_release_task => rust_scheduler_release_task sched
  | op_release_task_thread => rust_scheduler_release_task_thread sched
  | op_exit => rust_scheduler_exit sched
  | op_kill_all_tasks => rust_scheduler_kill_all_tasks sched
  | op_number_of_threads => rust_scheduler_number_of_threads sched ;; ret tt
  end.

Fixpoint run_sched_ops (sched : Z) (ops : list sched_op) : M unit :=
  match ops with
  | [] => ret tt
  | op :: ops' => run_sched_op sched op ;; run_sched_ops sched ops'
  end.

(** How often event [e] occurs in a trace. *)
Definition count_event (e : event) (tr : list event) : nat :=
  length (filter (fun x => x = e) tr).

(** How often [op] occurs in a sequence of operations. *)
Definition count_op (op : sched_op) (ops : list sched_op) : nat :=
  length (filter (fun x => x = op) ops).

End SchedulerOps.

Section Frames.
Context `{Platform}.

(** Every successful run of [m] relates the world before to the world
    after by [R]. *)
Definition preserves {A} (R : world -> world -> Prop) (m : M A) : Prop :=
  forall w a w', m w = Ok (a, w') -> R w w'.

(** Nothing was deregistered and every registered scheduler kept its
    [live_threads] and its id. *)
Definition sched_frame (w w' : world) : Prop :=
  (forall id, count_event (ev_release_scheduler_id id) (trace w') =
              count_event (ev_release_scheduler_id id) (trace w)) /\
  (forall sched s, sched_table (kernel w) !! sched = Some s ->
     exists s', sched_table (kernel w') !! sched = Some s' /\
                live_threads s' = live_threads s /\ sched_id s' = sched_id s).

End Frames.

Section KillVocabulary.
Context `{Platform}.

(** The tasks of a list are killed one after the other, first to last. *)
Fixpoint kill_each (ts : list Z) : M unit :=
  match ts with
  | [] => ret tt
  | t :: ts' => rust_task_unsupervise t ;; rust_task_kill t ;; kill_each ts'
  end.

(** A task after [unsupervise()] and [kill()]. *)
Definition killed_task (task : rust_task) : rust_task :=
  let task' := set_task_killed true (set_task_supervised false task) in
  if decide (task_state task = blocked)
  then set_state running None "none" task'
  else task'.

(** What [unsupervise()] and [kill()] on task [t] add to the trace. *)
Definition kill_events (t : Z) (task : rust_task) : list event :=
  [ev_unsupervise t; ev_kill t] ++
  (if decide (task_state task = blocked)
   then [ev_wakeup t; ev_signal (thread_lock (task_thread task))]
   else []).

Definition kill_events_in (w : world) (t : Z) : list event :=
  match tasks w !! t with
  | Some task => kill_events t task
  | None => []
  end.

(** Every worker kept its newborn and its dead list. *)
Definition newborn_dead_frame (w w' : world) : Prop :=
  forall th thr, threads w !! th = Some thr ->
    exists thr', threads w' !! th = Some thr' /\
                 newborn_tasks thr' = newborn_tasks thr /\
                 dead_tasks thr' = dead_tasks thr.

(** The tasks of [ts] are objects of the world and their workers are. *)
Definition tasks_alive (w : world) (ts : list Z) : Prop :=
  forall t, t ∈ ts ->
    exists task thr,
      tasks w !! t = Some task /\ threads w !! task_thread task = Some thr.

End KillVocabulary.

Section SelectVocabulary.
Context `{Platform}.

(** The ports of [select] in the order in which the first loop visits
    them: position [i] holds [ports[(i + j) % n_ports]]. *)
Definition scan_order (ports : list Z) (n_ports j : Z) : list Z :=
  map (fun i => ports !!! Z.to_nat (select_index (Z.of_nat i) j n_ports))
      (seq 0 (Z.to_nat n_ports)).


Definition lock_events (ps : list Z) : list event :=
  map (fun p => ev_lock (port_lock p)) ps.

Definition unlock_events (ps : list Z) : list event :=
  map (fun p => ev_unlock (port_lock p)) ps.



(** A task that has blocked in [select] on selector [this] with
    destination [dptr]. *)
Definition select_blocked (this dptr : Z) (t : rust_task) : rust_task :=
  set_state blocked (Some (cond_selector this))
    "waiting for select rendezvous"
    (set_task_rendezvous_ptr (Some dptr) t).

(** A worker after one of its tasks went from list [src] to [dst]. *)
Definition moved (t : Z) (src dst : task_list) (thr : rust_task_thread)
  : rust_task_thread :=
  let thr1 := set_list src (remove_task t (get_list src thr)) thr in
  set_list dst (get_list dst thr1 ++ [t]) thr1.

End SelectVocabulary.

Section RendezvousVocabulary.
Context `{Platform}.

(** The task after a sender has completed its select rendezvous. *)
Definition select_woken (t : rust_task) : rust_task :=
  set_state running None "none" (set_task_rendezvous_ptr None t).

(** Task [task] is blocked in a select on selector [this] that has
    published the ports [ps], with [slot] as its destination. *)
Definition rendezvous_pending (w : world) (this task slot : Z)
    (ps : list Z) : Prop :=
  exists s t thr,
    selectors w !! this = Some s /\
    sel_ports s = Some ps /\
    sel_n_ports s = Z.of_nat (length ps) /\
    Z.of_nat (length ps) < size_modulus /\
    tasks w !! task = Some t /\
    task_state t = blocked /\
    task_cond t = Some (cond_selector this) /\
    task_rendezvous_ptr t = Some slot /\
    threads w !! task_thread t = Some thr.

(** Senders that reach [msg_sent_on] one after the other; the rendezvous
    lock serialises them. *)
Fixpoint msg_sent_on_all (this : Z) (qs : list Z) : M unit :=
  match qs with
  | [] => ret tt
  | q :: qs' =>
      rust_port_selector_msg_sent_on this q ;; msg_sent_on_all this qs'
  end.

(** Port [q] and its owning task are live objects. *)
Definition port_alive (w : world) (q : Z) : Prop :=
  exists pq tq, ports w !! q = Some pq /\ tasks w !! port_task pq = Some tq.

End RendezvousVocabulary.

Section SelectOrder.
Context `{Platform}.


End SelectOrder.

(** A task with a port that it is about to receive from and to select
    on: task 1 runs on worker 0, owns port 50 (id 5, empty) and the
    selector 1. *)
Definition port_50 : rust_port :=
  {| port_id := 5; port_task := 1; port_unit_sz := 8; port_buffer := [];
     port_ref_count := 1 |}.

Definition task_1 : rust_task :=
  {| task_id := 1; task_thread := 0; task_ref_count := 1;
     task_state := running; task_cond := None; task_cond_name := "none";
     task_killed := false; task_supervised := true;
     task_rendezvous_ptr := None; task_port_table := {[ 5 := 50 ]};
     task_has_stacks := true |}.

Definition thread_sel : @rust_task_thread x86_64 :=
  {| thread_id := 0; thread_sched := 0; should_exit := false;
     newborn_tasks := []; running_tasks := [1]; blocked_tasks := [];
     dead_tasks := []; thread_rctx := @isaac_init x86_64 |}.

Definition world_sel : @world x86_64 :=
  {| kernel := set_task_table {[ 1 := 1 ]} empty_kernel;
     threads := {[ 0 := thread_sel ]};
     tasks := {[ 1 := task_1 ]};
     ports := {[ 50 := port_50 ]};
     selectors := {[ 1 := @rust_port_selector_new x86_64 ]};
     mem := ∅; trace := [] |}.


(** The world after task 1 has blocked in a select on its port with
    destination 8. *)
Definition world_sel_blocked : @world x86_64 :=
  world_of (@rust_port_selector_select x86_64 1 1 8 [50] 1 world_sel).

(** Task 1 of [world_sel] with its kill flag set. *)
Definition world_recv_killed : @world x86_64 :=
  set_tasks {[ 1 := set_task_killed true task_1 ]} world_sel.

Section RecvVocabulary.
Context `{Platform}.

(** A task that has blocked in [port_recv] on [port] with destination
    [dptr]. *)
Definition recv_blocked (port dptr : Z) (t : rust_task) : rust_task :=
  set_state blocked (Some (cond_port port)) "waiting for rendezvous data"
    (set_task_rendezvous_ptr (Some dptr) t).

End RecvVocabulary.

Section SendVocabulary.
Context `{Platform}.

(** What [send] on port [p] relies on: an owner that is blocked runs on
    a live worker, and an owner blocked on a selector is in a pending
    rendezvous on it, which is the state in which [select] blocks a
    task. *)
Definition owner_ready (w : world) (p : Z) : Prop :=
  forall pobj owner,
    ports w !! p = Some pobj ->
    tasks w !! port_task pobj = Some owner ->
    task_state owner = blocked ->
    is_Some (threads w !! task_thread owner) /\
    (forall sel, task_cond owner = Some (cond_selector sel) ->
       exists slot ps, rendezvous_pending w sel (port_task pobj) slot ps).

(** Two states of a task, or of a port, with the same reference count
    and the same identity. *)
Definition same_task_refs (T T' : rust_task) : Prop :=
  task_ref_count T' = task_ref_count T /\ task_id T' = task_id T /\
  task_thread T' = task_thread T /\ task_port_table T' = task_port_table T.

Definition same_port_refs (Q Q' : rust_port) : Prop :=
  port_ref_count Q' = port_ref_count Q /\ port_id Q' = port_id Q /\
  port_task Q' = port_task Q.

(** Every task and every port of [w] is still live in [w'], with the
    reference count it had, and the kernel's tables are the same. *)
Definition refs_frame (w w' : world) : Prop :=
  kernel w' = kernel w /\
  (forall t T, tasks w !! t = Some T ->
     exists T', tasks w' !! t = Some T' /\ same_task_refs T T') /\
  (forall q Q, ports w !! q = Some Q ->
     exists Q', ports w' !! q = Some Q' /\ same_port_refs Q Q').

Definition is_send (e : event) : bool :=
  match e with ev_send _ _ => true | _ => false end.

End SendVocabulary.

(** The completion of a write of four bytes on connection 9, requested
    over the channel to port id 5 of task id 1. *)
Definition write_9 : write_data :=
  {| wd_cd := 9; wd_buf := 0; wd_len := 4;
     wd_chan := {| chan_task := 1; chan_port := 5 |} |}.

Section KernelVocabulary.
Context `{Platform}.

(** The kernel's scheduler ids come from a monotonic allocator: every
    registered id is below [max_sched_id]. *)
Definition sched_ids_below (w : world) : Prop :=
  forall id, is_Some (sched_table (kernel w) !! id) ->
             id < max_sched_id (kernel w).

End KernelVocabulary.

(** ** The worker's scheduling loop *)

Section MainLoop.
Context `{Platform}.

(** Modelled from the spec: [rust_task.cpp] is not among the sources.
    [start] moves the task from [newborn] to [running]. *)
Definition rust_task_start (t : Z) : M unit :=
  do task <- load_task t;
  rust_task_thread_transition (task_thread task) t newborn running
    None "none".

(** Modelled from the spec: a task goes from [running] to [dead] on its
    normal exit or its uncaught failure; the dying happens on the worker,
    in the task's own activation. *)
Definition rust_task_die (t : Z) : M unit :=
  do task <- load_task t;
  rust_task_thread_transition (task_thread task) t running dead
    None "none".

(** Modelled from the spec: what happens to the tasks while a worker has
    given up its lock, in [activate] or in [lock.wait()].  Any thread
    may spawn a task on a scheduler, start a newborn task, wake a
    blocked task, kill a task or tell a worker to exit; only the task
    that the worker has activated blocks or dies, and it does so
    itself. *)
Inductive action : Type :=
| act_create (sched : Z)
| act_start (t : Z)
| act_wakeup (t : Z)
| act_kill (t : Z)
| act_exit (th : Z)
| act_block (on : rust_cond)
| act_die.

(** One action; [self] is the activated task, if there is one. *)
Definition run_action (self : option Z) (a : action) : M unit :=
  match a with
  | act_create sched => rust_scheduler_create_task sched ;; ret tt
  | act_start t => rust_task_start t
  | act_wakeup t =>
      do task <- load_task t;
      rust_task_wakeup t (task_cond task)
  | act_kill t => rust_task_kill t
  | act_exit th => rust_task_thread_exit th
  | act_block on =>
      match self with
      | Some t => rust_task_block t on "blocked"
      | None => ret tt
      end
  | act_die =>
      match self with
      | Some t => rust_task_die t
      | None => ret tt
      end
  end.

Fixpoint run_actions (self : option Z) (script : list action) : M unit :=
  match script with
  | [] => ret tt
  | a :: rest => run_action self a ;; run_actions self rest
  end.

(** [rust_task_thread::activate]: the worker gives up its lock, swaps
    to the task, and takes the lock again when the task has swapped
    back.  What happens in between is [script]. *)
Definition rust_task_thread_activate (th task : Z) (script : list action)
  : M unit :=
  unlock (thread_lock th) ;;
  run_actions (Some task) script ;;
  lock (thread_lock th).

(** The body of the [while] loop of [start_main_loop] up to the call of
    [reap_dead_tasks]: the task that was scheduled and has run, or
    nothing after a [lock.wait()]. *)
Definition main_loop_pick (th : Z) (script : list action) : M (option Z) :=
  do scheduled_task <- rust_task_thread_schedule_task th;
  match scheduled_task with
  | None =>
      run_actions None script ;;
      do thr <- load_thread th;
      assert_A (bool_decide (length (dead_tasks thr) = 0%nat))
        "Tasks should only die after running" ;;
      ret None
  | Some t =>
      do task <- load_task t;
      assert_I (bool_decide (task_state task = running))
        "scheduled_task->running()" ;;
      rust_task_thread_activate th t script ;;
      ret (Some t)
  end.

(** One turn of the loop. *)
Definition main_loop_turn (th : Z) (script : list action) : M unit :=
  do scheduled_task <- main_loop_pick th script;
  match scheduled_task with
  | None => ret tt
  | Some _ => rust_task_thread_reap_dead_tasks th
  end.

(** The [while (!should_exit)] loop, one script per turn; the result
    tells whether the loop was left, or the scripts ran out first. *)
Fixpoint main_loop (th : Z) (scripts : list (list action)) : M bool :=
  match scripts with
  | [] => do thr <- load_thread th; ret (should_exit thr)
  | script :: rest =>
      do thr <- load_thread th;
      if should_exit thr then ret true
      else main_loop_turn th script ;; main_loop th rest
  end.

(** [rust_task_thread::start_main_loop]; the cached C stack leaves no
    mark. *)
Definition rust_task_thread_start_main_loop (th : Z)
    (scripts : list (list action)) : M bool :=
  lock (thread_lock th) ;;
  do left <- main_loop th scripts;
  if left : bool then
    do thr <- load_thread th;
    assert_A (bool_decide (newborn_tasks thr = []))
      "Should have no newborn tasks" ;;
    assert_A (bool_decide (running_tasks thr = []))
      "Should have no running tasks" ;;
    assert_A (bool_decide (blocked_tasks thr = []))
      "Should have no blocked tasks" ;;
    assert_A (bool_decide (dead_tasks thr = []))
      "Should have no dead tasks" ;;
    unlock (thread_lock th) ;;
    ret true
  else ret false.

End MainLoop.

(** ** Vocabulary of the scheduling loop *)

Section LoopVocabulary.
Context `{Platform}.

(** The assertions of the loop about its dead list. *)
Definition loop_assertion (msg : string) : Prop :=
  msg = "Only one task should die during a single turn of the event loop" \/
  msg = "Tasks should only die after running" \/
  msg = "Should have no dead tasks".

(** A run of [m] from a world in [P] ends in [Q] if it returns, and does
    not end in a failed assertion about the dead list. *)
Definition safe {A} (P : world -> Prop) (m : M A)
    (Q : A -> world -> Prop) : Prop :=
  forall w, P w ->
    match m w with
    | Ok (a, w') => Q a w'
    | Fatal msg => ~ loop_assertion msg
    | Stuck _ => True
    end.

(** The three steps of reaping, as they show in the trace. *)
Definition is_reap_event (e : event) : bool :=
  match e with
  | ev_release_task_id _ | ev_delete_all_stacks _ | ev_deref _ => true
  | _ => false
  end.

Definition reap_log (w : world) : list event :=
  filter (fun e => is_reap_event e = true) (trace w).



(** A step that leaves worker [th]'s dead list, the allocator of task
    ids and the reapings as they are, creates no task, keeps every
    task's id, and keeps dead tasks dead. *)
Definition quiet (th : Z) (w w' : world) : Prop :=
  (forall thr, threads w !! th = Some thr ->
     exists thr', threads w' !! th = Some thr' /\
                  dead_tasks thr' = dead_tasks thr) /\
  max_task_id (kernel w') = max_task_id (kernel w) /\
  reap_log w' = reap_log w /\
  (forall t T', tasks w' !! t = Some T' ->
     exists T, tasks w !! t = Some T /\ task_id T' = task_id T) /\
  (forall t T, tasks w !! t = Some T -> task_state T = dead ->
     exists T', tasks w' !! t = Some T' /\ task_state T' = dead).

(** The two parts of [quiet] that are about the worker and the tasks. *)
Definition threads_keep (th : Z) (m m' : gmap Z rust_task_thread) : Prop :=
  forall thr, m !! th = Some thr ->
    exists thr', m' !! th = Some thr' /\ dead_tasks thr' = dead_tasks thr.

Definition tasks_keep (m m' : gmap Z rust_task) : Prop :=
  (forall t T', m' !! t = Some T' ->
     exists T, m !! t = Some T /\ task_id T' = task_id T) /\
  (forall t T, m !! t = Some T -> task_state T = dead ->
     exists T', m' !! t = Some T' /\ task_state T' = dead).



End LoopVocabulary.

Section ReapVocabulary.
Context `{Platform}.



End ReapVocabulary.

(** Task 1 with three empty ports on a 32-bit platform, and a selector
    whose generator is about to return [SIZE_MAX]. *)
Definition world_wrap : @world i686 :=
  {| kernel := set_task_table {[ 1 := 1 ]} empty_kernel;
     threads :=
       {[ 0 := {| thread_id := 0; thread_sched := 0; should_exit := false;
                  newborn_tasks := []; running_tasks := [1];
                  blocked_tasks := []; dead_tasks := [];
                  thread_rctx := @isaac_init i686 |} ]};
     tasks := {[ 1 := task_1 ]};
     ports := {[ 50 := port_50; 51 := port_50; 52 := port_50 ]};
     selectors :=
       {[ 1 := {| sel_ports := None; sel_n_ports := 0;
                  sel_rctx := (2 ^ 32 - 1 : @randctx i686) |} ]};
     mem := ∅; trace := [] |}.

(** ** The event-loop thread, [rust_uvtmp_thread] *)

Section UvThread.

(** What [tcp.data] of a connection points to: nothing yet, the
    connection itself ([close_connections]) or a read request
    ([start_reads]). *)
Inductive tcp_data : Type :=
| tcp_none
| tcp_cd (cd : Z)
| tcp_rd (rd : read_start_data).

(** [struct connect_data].  Pointers are addresses, 0 is NULL. *)
Record connect_data : Type := {
  cd_req_id : Z;
  cd_thread : Z;
  cd_ip_addr : Z;
  cd_connect_data : Z;
  cd_tcp_data : tcp_data;
  cd_chan : chan_handle
}.

(** The requests that the thread hands to libuv, which is not part of
    the sources: each is recorded with the object it is about. *)
Inductive uv_call : Type :=
| uv_tcp_connect (cd : Z)
| uv_close_tcp (cd : Z)
| uv_write (wd : write_data)
| uv_read_start (cd : Z)
| uv_timer_start (this : Z) (td : timer_start_data)
| uv_close_idle.

(** The fields of [rust_uvtmp_thread], the [connect_data] objects that
    it has allocated ([cds], by address) and its calls to libuv so far.
    [req_map] is the [std::map<int, connect_data *>]. *)
Record rust_uvtmp_thread : Type := {
  req_map : gmap Z Z;
  cds : gmap Z connect_data;
  stop_flag : bool;
  connect_queue : list (Z * chan_handle);
  close_connection_queue : list Z;
  write_queue : list write_data;
  read_start_queue : list read_start_data;
  timer_start_queue : list timer_start_data;
  uv_calls : list uv_call
}.

Definition set_req_map (m : gmap Z Z) (u : rust_uvtmp_thread)
  : rust_uvtmp_thread :=
  {| req_map := m; cds := cds u; stop_flag := stop_flag u;
     connect_queue := connect_queue u;
     close_connection_queue := close_connection_queue u;
     write_queue := write_queue u; read_start_queue := read_start_queue u;
     timer_start_queue := timer_start_queue u; uv_calls := uv_calls u |}.
Definition set_cds (m : gmap Z connect_data) (u : rust_uvtmp_thread)
  : rust_uvtmp_thread :=
  {| req_map := req_map u; cds := m; stop_flag := stop_flag u;
     connect_queue := connect_queue u;
     close_connection_queue := close_connection_queue u;
     write_queue := write_queue u; read_start_queue := read_start_queue u;
     timer_start_queue := timer_start_queue u; uv_calls := uv_calls u |}.
Definition set_connect_queue (q : list (Z * chan_handle))
    (u : rust_uvtmp_thread) : rust_uvtmp_thread :=
  {| req_map := req_map u; cds := cds u; stop_flag := stop_flag u;
     connect_queue := q;
     close_connection_queue := close_connection_queue u;
     write_queue := write_queue u; read_start_queue := read_start_queue u;
     timer_start_queue := timer_start_queue u; uv_calls := uv_calls u |}.
Definition set_close_connection_queue (q : list Z) (u : rust_uvtmp_thread)
  : rust_uvtmp_thread :=
  {| req_map := req_map u; cds := cds u; stop_flag := stop_flag u;
     connect_queue := connect_queue u; close_connection_queue := q;
     write_queue := write_queue u; read_start_queue := read_start_queue u;
     timer_start_queue := timer_start_queue u; uv_calls := uv_calls u |}.
Definition set_write_queue (q : list write_data) (u : rust_uvtmp_thread)
  : rust_uvtmp_thread :=
  {| req_map := req_map u; cds := cds u; stop_flag := stop_flag u;
     connect_queue := connect_queue u;
     close_connection_queue := close_connection_queue u;
     write_queue := q; read_start_queue := read_start_queue u;
     timer_start_queue := timer_start_queue u; uv_calls := uv_calls u |}.
Definition set_read_start_queue (q : list read_start_data)
    (u : rust_uvtmp_thread) : rust_uvtmp_thread :=
  {| req_map := req_map u; cds := cds u; stop_flag := stop_flag u;
     connect_queue := connect_queue u;
     close_connection_queue := close_connection_queue u;
     write_queue := write_queue u; read_start_queue := q;
     timer_start_queue := timer_start_queue u; uv_calls := uv_calls u |}.
Definition set_timer_start_queue (q : list timer_start_data)
    (u : rust_uvtmp_thread) : rust_uvtmp_thread :=
  {| req_map := req_map u; cds := cds u; stop_flag := stop_flag u;
     connect_queue := connect_queue u;
     close_connection_queue := close_connection_queue u;
     write_queue := write_queue u; read_start_queue := read_start_queue u;
     timer_start_queue := q; uv_calls := uv_calls u |}.
Definition uv_call_made (c : uv_call) (u : rust_uvtmp_thread)
  : rust_uvtmp_thread :=
  {| req_map := req_map u; cds := cds u; stop_flag := stop_flag u;
     connect_queue := connect_queue u;
     close_connection_queue := close_connection_queue u;
     write_queue := write_queue u; read_start_queue := read_start_queue u;
     timer_start_queue := timer_start_queue u;
     uv_calls := uv_calls u ++ [c] |}.

Definition set_cd_bound (this : Z) (cd : Z) (chan : chan_handle)
    (c : connect_data) : connect_data :=
  {| cd_req_id := cd_req_id c; cd_thread := this;
     cd_ip_addr := cd_ip_addr c; cd_connect_data := cd;
     cd_tcp_data := cd_tcp_data c; cd_chan := chan |}.
Definition set_cd_tcp_data (d : tcp_data) (c : connect_data) : connect_data :=
  {| cd_req_id := cd_req_id c; cd_thread := cd_thread c;
     cd_ip_addr := cd_ip_addr c; cd_connect_data := cd_connect_data c;
     cd_tcp_data := d; cd_chan := cd_chan c |}.

(** The constructor: empty map and queues, [stop_flag] false; the idle
    handle that it starts leaves no mark. *)
Definition rust_uvtmp_thread_new : rust_uvtmp_thread :=
  {| req_map := ∅; cds := ∅; stop_flag := false; connect_queue := [];
     close_connection_queue := []; write_queue := [];
     read_start_queue := []; timer_start_queue := []; uv_calls := [] |}.

(** [req_map[req_id]]: [std::map::operator[]] enters a NULL pointer for
    a key that is not there, and yields the pointer under the key.  The
    key is the [uint32_t] request id converted to [int]. *)
Definition req_map_index (req_id : Z) (u : rust_uvtmp_thread)
  : Z * rust_uvtmp_thread :=
  match req_map u !! to_int req_id with
  | Some cd => (cd, u)
  | None => (0, set_req_map (<[to_int req_id := 0]> (req_map u)) u)
  end.

(** [new connect_data()]: a zeroed object at an address that is neither
    NULL nor in use. *)
Definition new_connect_data (u : rust_uvtmp_thread) : Z :=
  fresh ({[0]} ∪ dom (cds u)).

Definition connect_data_zero : connect_data :=
  {| cd_req_id := 0; cd_thread := 0; cd_ip_addr := 0; cd_connect_data := 0;
     cd_tcp_data := tcp_none;
     cd_chan := {| chan_task := 0; chan_port := 0 |} |}.


(** [rust_uvtmp_thread::connect]: the new connection, or NULL if the
    request id is in use. *)
Definition rust_uvtmp_thread_connect (req_id ip : Z) (chan : chan_handle)
    (u : rust_uvtmp_thread) : Z * rust_uvtmp_thread :=
  match req_map u !! to_int req_id with
  | Some _ => (0, u)
  | None =>
      let cd := new_connect_data u in
      let c := {| cd_req_id := req_id; cd_thread := 0; cd_ip_addr := ip;
                  cd_connect_data := 0; cd_tcp_data := tcp_none;
                  cd_chan := {| chan_task := 0; chan_port := 0 |} |} in
      let u1 := set_cds (<[cd := c]> (cds u)) u in
      let u2 := set_req_map (<[to_int req_id := cd]> (req_map u1)) u1 in
      (cd, set_connect_queue (connect_queue u2 ++ [(cd, chan)]) u2)
  end.

(** [rust_uvtmp_thread::close_connection]. *)
Definition rust_uvtmp_thread_close_connection (req_id : Z)
    (u : rust_uvtmp_thread) : rust_uvtmp_thread :=
  let '(cd, u1) := req_map_index req_id u in
  let u2 :=
    set_close_connection_queue (close_connection_queue u1 ++ [cd]) u1 in
  set_req_map (delete (to_int req_id) (req_map u2)) u2.

(** [rust_uvtmp_thread::write]; [buf] is the address of the thread's own
    copy of the caller's bytes. *)
Definition rust_uvtmp_thread_write (req_id buf len : Z) (chan : chan_handle)
    (u : rust_uvtmp_thread) : rust_uvtmp_thread :=
  let '(cd, u1) := req_map_index req_id u in
  let wd := {| wd_cd := cd; wd_buf := buf; wd_len := len;
               wd_chan := chan |} in
  set_write_queue (write_queue u1 ++ [wd]) u1.

(** [rust_uvtmp_thread::read_start]. *)
Definition rust_uvtmp_thread_read_start (req_id : Z) (chan : chan_handle)
    (u : rust_uvtmp_thread) : rust_uvtmp_thread :=
  let '(cd, u1) := req_map_index req_id u in
  let rd := {| rd_cd := cd; rd_chan := chan |} in
  set_read_start_queue (read_start_queue u1 ++ [rd]) u1.


(** [rust_uvtmp_get_req_id]. *)
Definition rust_uvtmp_get_req_id (cd : Z) (u : rust_uvtmp_thread)
  : result Z :=
  match cds u !! cd with
  | Some c => Ok (cd_req_id c)
  | None => Stuck "cd->req_id"
  end.

(** [make_new_connections]: the [while (!connect_queue.empty())] loop. *)
Fixpoint make_new_connections_loop (this : Z) (fuel : nat)
    (u : rust_uvtmp_thread) : result rust_uvtmp_thread :=
  match fuel with
  | O => Ok u
  | S fuel' =>
      match connect_queue u with
      | [] => Ok u
      | (cd, chan) :: rest =>
          let u1 := set_connect_queue rest u in
          match cds u1 !! cd with
          | None => Stuck "cd->thread"
          | Some c =>
              let u2 :=
                set_cds (<[cd := set_cd_bound this cd chan c]> (cds u1)) u1 in
              make_new_connections_loop this fuel'
                (uv_call_made (uv_tcp_connect cd) u2)
          end
      end
  end.

Definition make_new_connections (this : Z) (u : rust_uvtmp_thread)
  : result rust_uvtmp_thread :=
  make_new_connections_loop this (length (connect_queue u)) u.

(** [close_connections]. *)
Fixpoint close_connections_loop (fuel : nat) (u : rust_uvtmp_thread)
  : result rust_uvtmp_thread :=
  match fuel with
  | O => Ok u
  | S fuel' =>
      match close_connection_queue u with
      | [] => Ok u
      | cd :: rest =>
          let u1 := set_close_connection_queue rest u in
          match cds u1 !! cd with
          | None => Stuck "cd->tcp.data"
          | Some c =>
              let u2 :=
                set_cds (<[cd := set_cd_tcp_data (tcp_cd cd) c]> (cds u1))
                  u1 in
              close_connections_loop fuel' (uv_call_made (uv_close_tcp cd) u2)
          end
      end
  end.

Definition close_connections (u : rust_uvtmp_thread)
  : result rust_uvtmp_thread :=
  close_connections_loop (length (close_connection_queue u)) u.

(** [write_buffers]; [&wd->cd->tcp] needs a connection. *)
Fixpoint write_buffers_loop (fuel : nat) (u : rust_uvtmp_thread)
  : result rust_uvtmp_thread :=
  match fuel with
  | O => Ok u
  | S fuel' =>
      match write_queue u with
      | [] => Ok u
      | wd :: rest =>
          let u1 := set_write_queue rest u in
          match cds u1 !! wd_cd wd with
          | None => Stuck "wd->cd->tcp"
          | Some _ => write_buffers_loop fuel' (uv_call_made (uv_write wd) u1)
          end
      end
  end.

Definition write_buffers (u : rust_uvtmp_thread) : result rust_uvtmp_thread :=
  write_buffers_loop (length (write_queue u)) u.

(** [start_reads]. *)
Fixpoint start_reads_loop (fuel : nat) (u : rust_uvtmp_thread)
  : result rust_uvtmp_thread :=
  match fuel with
  | O => Ok u
  | S fuel' =>
      match read_start_queue u with
      | [] => Ok u
      | rd :: rest =>
          let u1 := set_read_start_queue rest u in
          let cd := rd_cd rd in
          match cds u1 !! cd with
          | None => Stuck "cd->tcp.data"
          | Some c =>
              let u2 :=
                set_cds (<[cd := set_cd_tcp_data (tcp_rd rd) c]> (cds u1))
                  u1 in
              start_reads_loop fuel' (uv_call_made (uv_read_start cd) u2)
          end
      end
  end.

Definition start_reads (u : rust_uvtmp_thread) : result rust_uvtmp_thread :=
  start_reads_loop (length (read_start_queue u)) u.

(** [start_timers]; the back pointer [td->thread = this] goes with the
    call. *)
Fixpoint start_timers_loop (this : Z) (fuel : nat) (u : rust_uvtmp_thread)
  : rust_uvtmp_thread :=
  match fuel with
  | O => u
  | S fuel' =>
      match timer_start_queue u with
      | [] => u
      | td :: rest =>
          let u1 := set_timer_start_queue rest u in
          start_timers_loop this fuel' (uv_call_made (uv_timer_start this td) u1)
      end
  end.

Definition start_timers (this : Z) (u : rust_uvtmp_thread)
  : rust_uvtmp_thread :=
  start_timers_loop this (length (timer_start_queue u)) u.

(** [close_idle_if_stop]. *)
Definition close_idle_if_stop (u : rust_uvtmp_thread) : rust_uvtmp_thread :=
  if stop_flag u then uv_call_made uv_close_idle u else u.

(** [rust_uvtmp_thread::on_idle]. *)
Definition rust_uvtmp_thread_on_idle (this : Z) (u : rust_uvtmp_thread)
  : result rust_uvtmp_thread :=
  match make_new_connections this u with
  | Ok u1 =>
      match close_connections u1 with
      | Ok u2 =>
          match write_buffers u2 with
          | Ok u3 =>
              match start_reads u3 with
              | Ok u4 => Ok (close_idle_if_stop (start_timers this u4))
              | Fatal msg => Fatal msg
              | Stuck why => Stuck why
              end
          | Fatal msg => Fatal msg
          | Stuck why => Stuck why
          end
      | Fatal msg => Fatal msg
      | Stuck why => Stuck why
      end
  | Fatal msg => Fatal msg
  | Stuck why => Stuck why
  end.

(** [tcp_close_cb], which libuv calls with the handle [&cd->tcp] that it
    has closed: whatever [handle->data] points to is deleted as a
    [connect_data].  Deleting NULL does nothing; a read request is no
    [connect_data]. *)
Definition tcp_close_cb (handle : Z) (u : rust_uvtmp_thread)
  : result rust_uvtmp_thread :=
  match cds u !! handle with
  | None => Stuck "handle->data"
  | Some c =>
      match cd_tcp_data c with
      | tcp_none => Ok u
      | tcp_cd cd =>
          match cds u !! cd with
          | Some _ => Ok (set_cds (delete cd (cds u)) u)
          | None => Stuck "delete cd"
          end
      | tcp_rd _ => Stuck "delete cd"
      end
  end.

End UvThread.

(** ** Vocabulary: task lists, exits and the idle callback *)

Section PartitionVocabulary.
Context `{Platform}.

(** The four lists of a worker, one after the other. *)
Definition all_tasks (thr : rust_task_thread) : list Z :=
  newborn_tasks thr ++ running_tasks thr ++ blocked_tasks thr ++
  dead_tasks thr.

(** The lists of every worker hold no task twice, and a task on list
    [l] of worker [th] is a live task of [th] in state [l]. *)
Definition lists_consistent (w : world) : Prop :=
  forall th thr, threads w !! th = Some thr ->
    NoDup (all_tasks thr) /\
    forall l t, t ∈ get_list l thr ->
      exists T, tasks w !! t = Some T /\ task_thread T = th /\
                task_state T = l.

End PartitionVocabulary.

Section ExitVocabulary.
Context `{Platform}.

(** The workers of [ths] have been told to exit and are otherwise as
    in [m]; the other workers are as in [m]. *)
Definition told_to_exit (ths : list Z) (m m' : gmap Z rust_task_thread)
  : Prop :=
  forall th,
    (th ∈ ths ->
     exists thr, m !! th = Some thr /\
                 m' !! th = Some (set_should_exit true thr)) /\
    (th ∉ ths -> m' !! th = m !! th).

(** The lock and signal events of [rust_task_thread::exit] on each of
    [ths], in order. *)
Definition exit_events (ths : list Z) : list event :=
  flat_map (fun th => [ev_lock (thread_lock th); ev_signal (thread_lock th);
                       ev_unlock (thread_lock th)]) ths.

End ExitVocabulary.

Section Run.
Context `{Platform}.

(** [rust_task_thread::run]: the worker's OS thread runs the loop and,
    when the loop has been left, tells its scheduler that it is gone.
    As long as the scripts have run out first, the loop is still
    running. *)
Definition rust_task_thread_run (th : Z) (scripts : list (list action))
  : M bool :=
  do left <- rust_task_thread_start_main_loop th scripts;
  if left : bool then
    do thr <- load_thread th;
    rust_scheduler_release_task_thread (thread_sched thr) ;;
    ret true
  else ret false.

End Run.

Section UvIdleVocabulary.



End UvIdleVocabulary.

(** The three-worker scheduler after one [create_task]. *)
Definition sched3_task : rust_scheduler :=
  {| live_threads := 3; live_tasks := 1; num_threads := 3; cur_thread := 1;
     sched_id := 0; sched_threads := [0; 1; 2] |}.

Definition world3_task : @world x86_64 :=
  world_of (@rust_scheduler_create_task x86_64 0 world3).

(** The channel on which the requests below ask for their completion
    messages. *)
Definition chan_1_50 : chan_handle := {| chan_task := 1; chan_port := 50 |}.


(** ** Further native builtins *)

Section MoreBuiltins.
Context `{Platform}.

(** [get_task_pointer]: the task with this id, or NULL. *)
Definition get_task_pointer (id : Z) : M (option Z) :=
  rust_kernel_get_task_by_id id.

(** [drop_task]. *)
Definition drop_task (target : option Z) : M unit :=
  match target with
  | Some t => rust_task_deref t
  | None => ret tt
  end.

(** [del_port]. *)
Definition del_port (port : Z) : M unit :=
  do p <- load_port port;
  assert_A (bool_decide (port_ref_count p = 1))
    "Expected port ref_count == 1" ;;
  rust_port_deref port.

End MoreBuiltins.

(** ** [rust_log]: what is traced *)

Section RustLog.

(** [enum log_type] of [rust_log]. *)
Inductive log_type : Type :=
| ERR | MEM | COMM | TASK | DOM | ULOG | TRACE | DWARF | CACHE | UPCALL
| TIMER | GC | STDLIB | SPECIAL | KERN | BT | ALL.

Definition log_type_bits (t : log_type) : Z :=
  match t with
  | ERR => 0x1
  | MEM => 0x2
  | COMM => 0x4
  | TASK => 0x8
  | DOM => 0x10
  | ULOG => 0x20
  | TRACE => 0x40
  | DWARF => 0x80
  | CACHE => 0x100
  | UPCALL => 0x200
  | TIMER => 0x400
  | GC => 0x800
  | STDLIB => 0x1000
  | SPECIAL => 0x2000
  | KERN => 0x4000
  | BT => 0x8000
  | ALL => 0xffffffff
  end.

(** [rust_log::is_tracing]: the [uint32_t] [type_bits & _type_bit_mask]
    converted to [bool]. *)
Definition rust_log_is_tracing (type_bit_mask type_bits : Z) : bool :=
  negb (Z.land type_bits type_bit_mask =? 0).

(** The mask that enables the log types of [ts]. *)
Definition mask_of (ts : list log_type) : Z :=
  foldr (fun t m => Z.lor (log_type_bits t) m) 0 ts.

#[global] Instance log_type_eq_dec : EqDecision log_type.
Proof. solve_decision. Defined.

End RustLog.

(** ** [rust_str_push] *)

Section RustVec.
Context `{Platform}.

(** [rust_vec]: [fill] bytes in use out of [alloc]; [vec_data] is the
    allocation behind [data], byte by byte. *)
Record rust_vec : Type := {
  vec_fill : Z;
  vec_alloc : Z;
  vec_data : list Z
}.

(** [reserve_vec] of [rust_util.h] is not among the sources: it is a
    parameter of [rust_str_push]. *)
Variable reserve_vec : rust_vec -> Z -> rust_vec.

(** [data[i] = b], a store inside the allocation. *)
Definition vec_store (i b : Z) (what : string) (d : list Z)
  : result (list Z) :=
  if bool_decide (0 <= i < Z.of_nat (length d))
  then Ok (<[Z.to_nat i := b]> d)
  else Stuck what.

(** [rust_str_push]. *)
Definition rust_str_push (sp : rust_vec) (byte : Z) : result rust_vec :=
  let fill := vec_fill sp in
  let sp1 := reserve_vec sp (size_add fill 1) in
  match vec_store (size_sub fill 1) byte "sp->data[fill-1]"
          (vec_data sp1) with
  | Ok d1 =>
      match vec_store fill 0 "sp->data[fill]" d1 with
      | Ok d2 =>
          Ok {| vec_fill := size_add fill 1; vec_alloc := vec_alloc sp1;
                vec_data := d2 |}
      | Fatal msg => Fatal msg
      | Stuck why => Stuck why
      end
  | Fatal msg => Fatal msg
  | Stuck why => Stuck why
  end.

(** The string that a vector holds: the bytes in use are the string
    followed by its terminator. *)
Definition str_of (v : rust_vec) (s : list Z) : Prop :=
  vec_fill v = Z.of_nat (length s) + 1 /\
  take (S (length s)) (vec_data v) = s ++ [0].

End RustVec.

(** A [reserve_vec] that grows the allocation to the next power of two
    when it is too small. *)
Definition reserve_pow2 (v : rust_vec) (n : Z) : rust_vec :=
  if bool_decide (n <= vec_alloc v) then v
  else
    let a := 2 ^ Z.log2_up n in
    {| vec_fill := vec_fill v; vec_alloc := a;
       vec_data := vec_data v ++
                   replicate (Z.to_nat a - length (vec_data v)) 0 |}.

(** The vector of the string "hi" in an allocation of four bytes. *)
Definition vec_hi : rust_vec :=
  {| vec_fill := 3; vec_alloc := 4; vec_data := [104; 105; 0; 0] |}.

(** ** Vocabulary: messages and connections *)

Section UvLifeVocabulary.

(** No request is waiting for the idle callback. *)
Definition queues_empty (u : rust_uvtmp_thread) : Prop :=
  connect_queue u = [] /\ close_connection_queue u = [] /\
  write_queue u = [] /\ read_start_queue u = [] /\
  timer_start_queue u = [].

(** The call that ends every idle callback of a stopped thread. *)
Definition stop_calls (u : rust_uvtmp_thread) : list uv_call :=
  if stop_flag u then [uv_close_idle] else [].

End UvLifeVocabulary.

Section MessageVocabulary.
Context `{Platform}.

(** What [chan_id_send] adds to the trace when the message is
    buffered. *)
Definition send_events (owner p : Z) (d : unit_data) : list event :=
  [ev_send p d; ev_lock (port_lock p); ev_unlock (port_lock p);
   ev_lock (task_lock owner); ev_unlock (task_lock owner); ev_deref owner].

(** The scenario "send the messages [ds] over one channel, one after
    the other": whether each call reported the message as sent. *)
Fixpoint send_each (target_task_id target_port_id : Z) (ds : list unit_data)
  : M (list bool) :=
  match ds with
  | [] => ret []
  | d :: ds' =>
      do sent <- chan_id_send target_task_id target_port_id d;
      do rest <- send_each target_task_id target_port_id ds';
      ret (sent :: rest)
  end.

(** The scenario "the owner receives from [port] into the destinations
    [dptrs], one after the other": the yield and killed flags of each
    call. *)
Fixpoint recv_each (task port : Z) (dptrs : list Z) : M (list (bool * bool)) :=
  match dptrs with
  | [] => ret []
  | dptr :: dptrs' =>
      do flags <- port_recv task dptr port;
      do rest <- recv_each task port dptrs';
      ret (flags :: rest)
  end.

End MessageVocabulary.

(** A uv thread after [connect] of request 7 and one idle callback. *)
Definition uv_connected : rust_uvtmp_thread :=
  match
    rust_uvtmp_thread_on_idle 1
      (snd (rust_uvtmp_thread_connect 7 8192 chan_1_50
              rust_uvtmp_thread_new))
  with
  | Ok u => u
  | _ => rust_uvtmp_thread_new
  end.

(** ** Vocabulary: killing and spawning *)

Section UnblockVocabulary.
Context `{Platform}.

(** A worker after its blocked tasks have been woken, the last of the
    list first. *)
Definition unblocked (thr : rust_task_thread) : rust_task_thread :=
  set_list blocked []
    (set_list running (running_tasks thr ++ reverse (blocked_tasks thr)) thr).

(** A worker after the blocked tasks [bs] have been woken one after the
    other. *)
Definition woken (bs : list Z) (thr : rust_task_thread) : rust_task_thread :=
  foldl (fun thr t => moved t blocked running thr) thr bs.

(** Task [t] is on the running or on the blocked list of one of the
    workers [ths]. *)
Definition live_on (w : world) (ths : list Z) (t : Z) : Prop :=
  exists th thr,
    th ∈ ths /\ threads w !! th = Some thr /\
    t ∈ running_tasks thr ++ blocked_tasks thr.

End UnblockVocabulary.

(** The world of [world_kill] with its worker under a scheduler. *)
Definition sched_kill : rust_scheduler :=
  {| live_threads := 1; live_tasks := 4; num_threads := 1; cur_thread := 0;
     sched_id := 0; sched_threads := [0] |}.

Definition world_kill_sched : @world x86_64 :=
  set_kernel (set_sched_table {[ 0 := sched_kill ]} empty_kernel) world_kill.

(** * Properties *)

Ltac rt_unfold :=
  unfold lock, unlock, signal in *;
  unfold emit, load_task, load_port, load_selector, load_thread, load_sched,
    store_task, store_port, store_selector, store_thread, store_sched,
    store_mem, assert_I, assert_A in *;
  unfold bind, ret, gets, modify, fatal, stuck, deref_ptr in *.

Section Basics.
Context `{Platform}.

Lemma size_modulus_gt_1 : 1 < size_modulus.
Proof.
  unfold size_modulus. pose proof size_bits_pos.
  change 1 with (2 ^ 0). apply Z.pow_lt_mono_r; lia.
Qed.

Lemma size_wrap_small (x : Z) : 0 <= x < size_modulus -> size_wrap x = x.
Proof. intros. unfold size_wrap. apply Z.mod_small; lia. Qed.

Lemma size_wrap_range (x : Z) : 0 <= size_wrap x < size_modulus.
Proof.
  unfold size_wrap. apply Z.mod_pos_bound.
  pose proof size_modulus_gt_1. lia.
Qed.

Lemma flat_map_map {A B C} (f : B -> list C) (g : A -> B) (l : list A) :
  flat_map f (map g l) = flat_map (fun x => f (g x)) l.
Proof. induction l as [|a l IH]; cbn; [done|]. by rewrite IH. Qed.

End Basics.

(** ** The scheduler places tasks round-robin *)

Section SchedulerCreateTask.
Context `{Platform}.

Lemma create_task_locked_spec (s : rust_scheduler) :
  1 <= num_threads s < size_modulus ->
  0 <= cur_thread s < num_threads s ->
  let '(thread_no, s') := create_task_locked s in
  thread_no = cur_thread s /\
  cur_thread s' = (cur_thread s + 1) mod num_threads s /\
  live_tasks s' = size_add (live_tasks s) 1 /\
  num_threads s' = num_threads s /\
  live_threads s' = live_threads s /\
  sched_id s' = sched_id s /\
  sched_threads s' = sched_threads s.
Proof.
  intros HN Hc. unfold create_task_locked. cbn.
  assert (Hw : size_add (cur_thread s) 1 = cur_thread s + 1).
  { unfold size_add. apply size_wrap_small. lia. }
  rewrite Hw. case_decide; cbn; repeat split; try reflexivity.
  - assert (cur_thread s + 1 = num_threads s) as -> by lia.
    rewrite Z.mod_same; lia.
  - rewrite Z.mod_small; lia.
Qed.

Lemma rust_task_thread_create_task_spec (w : world) (th : Z) (thr : rust_task_thread) :
  threads w !! th = Some thr ->
  exists w',
    rust_task_thread_create_task th w = Ok (max_task_id (kernel w), w') /\
    threads w' = <[th := set_list newborn (newborn_tasks thr ++ [fresh (dom (tasks w))]) thr]> (threads w) /\
    tasks w' = <[fresh (dom (tasks w)) := set_task_id (max_task_id (kernel w)) (rust_task_new th)]> (tasks w) /\
    sched_table (kernel w') = sched_table (kernel w) /\
    task_table (kernel w') = <[max_task_id (kernel w) := fresh (dom (tasks w))]> (task_table (kernel w)) /\
    max_task_id (kernel w') = max_task_id (kernel w) + 1 /\
    trace w' = trace w ++ [ev_lock (thread_lock th); ev_unlock (thread_lock th)] /\
    ports w' = ports w /\ selectors w' = selectors w /\ mem w' = mem w.
Proof.
  intros Hth. unfold rust_task_thread_create_task, rust_kernel_register_task.
  rt_unfold. cbn. rewrite Hth. cbn. rewrite lookup_insert_eq. cbn.
  rewrite lookup_insert_eq. cbn.
  eexists. split; [reflexivity|]. cbn.
  rewrite insert_insert_eq, <- app_assoc. repeat split.
Qed.


Lemma newborn_count_insert_eq (w w' : world) th thr' :
  threads w' = <[th := thr']> (threads w) ->
  newborn_count w' th = length (newborn_tasks thr').
Proof. intros E. unfold newborn_count. rewrite E, lookup_insert_eq. done. Qed.

Lemma newborn_count_insert_ne (w w' : world) th th' thr' :
  threads w' = <[th := thr']> (threads w) -> th <> th' ->
  newborn_count w' th' = newborn_count w th'.
Proof. intros E Hne. unfold newborn_count. rewrite E, lookup_insert_ne; done. Qed.

Lemma rust_scheduler_create_task_spec (w : world) (sched : Z) (s : rust_scheduler) :
  sched_wf w sched s ->
  exists th w',
    sched_threads s !! Z.to_nat (cur_thread s) = Some th /\
    rust_scheduler_create_task sched w = Ok (max_task_id (kernel w), w') /\
    sched_wf w' sched (snd (create_task_locked s)) /\
    trace w' = trace w ++ call_trace sched th /\
    newborn_count w' th = S (newborn_count w th) /\
    (forall th', th' <> th -> newborn_count w' th' = newborn_count w th').
Proof.
  intros (Hs & HN & Hc & Hlv & Hlen & Hnd & Hths).
  pose proof (create_task_locked_spec s HN Hc) as Hl.
  destruct (create_task_locked s) as [thread_no s'] eqn:El.
  destruct Hl as (-> & Hcur & Hlive & HN' & Hlt & Hid & Hths').
  destruct (lookup_lt_is_Some_2 (sched_threads s) (Z.to_nat (cur_thread s)))
    as [th Hth]; [lia|].
  assert (Hthr : is_Some (threads w !! th)).
  { rewrite Forall_forall in Hths. apply Hths.
    eapply list_elem_of_lookup_2; eauto. }
  destruct Hthr as [thr Hthr].
  set (w1 := set_trace ((trace w ++ [ev_lock (sched_lock sched)]) ++
                          [ev_unlock (sched_lock sched)])
              (set_kernel (set_sched_table (<[sched := s']> (sched_table (kernel w))) (kernel w)) w)).
  destruct (rust_task_thread_create_task_spec w1 th thr Hthr)
    as (w' & Hrun & Hthreads & Htasks & Hst & Htt & Hmax & Htr & _).
  exists th, w'. split; [exact Hth|].
  split.
  { unfold rust_scheduler_create_task. rt_unfold. cbn -[create_task_locked].
    rewrite Hs. cbn -[create_task_locked].
    rewrite El. cbn. rewrite Hths', Hth. exact Hrun. }
  split.
  { unfold sched_wf. cbn. rewrite Hst. cbn. rewrite lookup_insert_eq.
    rewrite HN', Hcur, Hths', Hlive. repeat split; try done; try lia.
    - apply Z.mod_pos_bound; lia.
    - apply Z.mod_pos_bound; lia.
    - apply size_wrap_range.
    - apply size_wrap_range.
    - rewrite Forall_forall in *. intros x Hx. rewrite Hthreads.
      destruct (decide (th = x)) as [->|Hne].
      + rewrite lookup_insert_eq. eauto.
      + rewrite lookup_insert_ne by done. apply Hths, Hx. }
  split.
  { rewrite Htr. cbn. unfold call_trace. rewrite <- !app_assoc. done. }
  split.
  { rewrite (newborn_count_insert_eq w1 w' _ _ Hthreads).
    unfold newborn_count. cbn. rewrite Hthr. cbn.
    rewrite length_app. cbn. lia. }
  intros th' Hne.
  rewrite (newborn_count_insert_ne w1 w' _ _ _ Hthreads) by done. done.
Qed.


Lemma delegated_S (N c0 : Z) (n j : nat) :
  0 < N -> 0 <= c0 < N ->
  delegated N c0 (S n) j =
  ((if decide (c0 = Z.of_nat j) then 1 else 0) +
   delegated N ((c0 + 1) mod N) n j)%nat.
Proof.
  intros HN Hc. unfold delegated.
  change (seq 0 (S n)) with (0%nat :: seq 1 n).
  rewrite <- seq_shift, filter_cons.
  replace ((c0 + Z.of_nat 0) mod N) with c0 by (rewrite Z.add_0_r, Z.mod_small; lia).
  assert (E : length (filter (fun i => (c0 + Z.of_nat i) mod N = Z.of_nat j) (map S (seq 0 n))) =
              length (filter (fun i => ((c0 + 1) mod N + Z.of_nat i) mod N = Z.of_nat j) (seq 0 n))).
  { generalize (seq 0 n). intros l. induction l as [|a l IH]; [done|].
    cbn [map]. rewrite !filter_cons.
    replace ((c0 + Z.of_nat (S a)) mod N) with (((c0 + 1) mod N + Z.of_nat a) mod N).
    2:{ rewrite Z.add_mod_idemp_l by lia. f_equal. lia. }
    case_decide; cbn [length]; rewrite IH; done. }
  case_decide; cbn [length]; rewrite E; done.
Qed.

Lemma create_tasks_spec (sched : Z) (n : nat) :
  forall (w : world) (s : rust_scheduler),
  sched_wf w sched s ->
  exists ids w' s',
    create_tasks sched n w = Ok (ids, w') /\
    sched_wf w' sched s' /\
    length ids = n /\
    num_threads s' = num_threads s /\
    sched_threads s' = sched_threads s /\
    live_tasks s' = size_wrap (live_tasks s + Z.of_nat n) /\
    cur_thread s' = (cur_thread s + Z.of_nat n) mod num_threads s /\
    trace w' =
      trace w ++
      flat_map (fun i => call_trace sched (worker_of_call s i)) (seq 0 n) /\
    (forall (j : nat) (th : Z),
        sched_threads s !! j = Some th ->
        newborn_count w' th =
        (newborn_count w th + delegated (num_threads s) (cur_thread s) n j)%nat).
Proof.
  induction n as [|n IH]; intros w s Hwf.
  - exists [], w, s. pose proof Hwf as (Hs & HN & Hc & Hlv & Hlen & Hnd & Hths).
    cbn [create_tasks seq flat_map length Z.of_nat].
    rewrite app_nil_r, !Z.add_0_r, size_wrap_small, Z.mod_small by lia.
    repeat split; try done.
    all: try (intros; unfold delegated; cbn; lia).
  - pose proof Hwf as (Hs & HN & Hc & Hlv & Hlen & Hnd & Hths).
    destruct (rust_scheduler_create_task_spec w sched s Hwf)
      as (th0 & w1 & Hth0 & Hrun & Hwf1 & Htr1 & Hnb1 & Hnbo).
    pose proof (create_task_locked_spec s HN Hc) as Hl.
    destruct (create_task_locked s) as [thread_no s1] eqn:El.
    destruct Hl as (-> & Hcur & Hlive & HN' & Hlt & Hid & Hths').
    cbn [snd] in Hwf1.
    destruct (IH w1 s1 Hwf1)
      as (ids & w' & s' & Hrun' & Hwf' & Hlen' & HN'' & Hths'' & Hlive' & Hcur' & Htr' & Hnb').
    exists (max_task_id (kernel w) :: ids), w', s'.
    split.
    { cbn [create_tasks]. unfold bind at 1. rewrite Hrun.
      unfold bind at 1. rewrite Hrun'. done. }
    split; [done|]. split; [cbn; lia|]. split; [lia|]. split; [congruence|].
    split.
    { rewrite Hlive', Hlive. unfold size_add, size_wrap.
      pose proof size_modulus_gt_1.
      rewrite Z.add_mod_idemp_l by lia. f_equal. lia. }
    split.
    { rewrite Hcur', Hcur, HN'. rewrite Z.add_mod_idemp_l by lia. f_equal. lia. }
    split.
    { rewrite Htr', Htr1, <- app_assoc. f_equal.
      change (seq 0 (S n)) with (0%nat :: seq 1 n). rewrite <- seq_shift.
      cbn [flat_map]. f_equal.
      - unfold worker_of_call. f_equal.
        rewrite Z.add_0_r, Z.mod_small by lia.
        symmetry. apply list_lookup_total_correct. done.
      - rewrite flat_map_map. apply flat_map_ext. intros i.
        unfold worker_of_call.
        rewrite Hths', Hcur, HN'. do 3 f_equal.
        rewrite Z.add_mod_idemp_l by lia. f_equal. lia. }
    intros j th Hj.
    rewrite (Hnb' j th) by congruence.
    rewrite delegated_S by lia. rewrite HN', Hcur.
    destruct (decide (th = th0)) as [->|Hne].
    + assert (j = Z.to_nat (cur_thread s)) as ->.
      { eapply NoDup_lookup; eauto. }
      rewrite Hnb1. rewrite Z2Nat.id by lia.
      rewrite decide_True by done. lia.
    + rewrite Hnbo by done.
      rewrite decide_False; [lia|].
      intros E. apply Hne. rewrite E, Nat2Z.id in Hth0. congruence.
Qed.


Lemma delegated_9_of_3 (c0 : Z) (j : nat) :
  0 <= c0 < 3 -> (j < 3)%nat -> delegated 3 c0 9 j = 3%nat.
Proof.
  intros Hc Hj.
  assert (c0 = 0 \/ c0 = 1 \/ c0 = 2) as [-> | [-> | ->]] by lia;
    destruct j as [|[|[|j]]]; try lia; vm_compute; reflexivity.
Qed.

(** C5.  On a scheduler with N workers, [n] calls of [create_task] made
    one after the other all return; each adds one to [live_tasks] (in
    [size_t] arithmetic, so exactly one while the count stays below
    [SIZE_MAX]) and moves the cursor on by one modulo N; call [i] takes
    the scheduler's lock, releases it and then appends its task under the
    lock of the worker at index [(c0 + i) mod N], where [c0] is the cursor
    before the first call; worker [j] receives as many tasks as there are
    calls [i] with [(c0 + i) mod N = j], which is 3 for each worker when
    N = 3 and n = 9. *)
Theorem create_task_round_robin (w : world) (sched : Z) (s : rust_scheduler)
    (n : nat) :
  sched_wf w sched s ->
  exists ids w' s',
    create_tasks sched n w = Ok (ids, w') /\
    sched_wf w' sched s' /\
    length ids = n /\
    live_tasks s' = size_wrap (live_tasks s + Z.of_nat n) /\
    (live_tasks s + Z.of_nat n <= SIZE_MAX ->
     live_tasks s' = live_tasks s + Z.of_nat n) /\
    cur_thread s' = (cur_thread s + Z.of_nat n) mod num_threads s /\
    trace w' =
      trace w ++
      flat_map (fun i => call_trace sched (worker_of_call s i)) (seq 0 n) /\
    (forall (j : nat) (th : Z),
        sched_threads s !! j = Some th ->
        newborn_count w' th =
        (newborn_count w th +
         delegated (num_threads s) (cur_thread s) n j)%nat) /\
    (num_threads s = 3 -> n = 9%nat ->
     forall th, th ∈ sched_threads s ->
       newborn_count w' th = (newborn_count w th + 3)%nat).
Proof.
  intros Hwf.
  destruct (create_tasks_spec sched n w s Hwf)
    as (ids & w' & s' & Hrun & Hwf' & Hlen & HN & Hths & Hlive & Hcur &
        Htr & Hnb).
  pose proof Hwf as (Hs & HN0 & Hc & Hlv & Hl & Hnd & Hfa).
  exists ids, w', s'.
  split; [exact Hrun|]. split; [exact Hwf'|]. split; [exact Hlen|].
  split; [exact Hlive|].
  split.
  { intros Hle. rewrite Hlive. apply size_wrap_small.
    unfold SIZE_MAX in Hle. lia. }
  split; [exact Hcur|]. split; [exact Htr|]. split; [exact Hnb|].
  { intros H3 H9 th Hin.
    apply list_elem_of_lookup in Hin as [j Hj].
    rewrite (Hnb j th Hj). f_equal. rewrite H3, H9.
    apply delegated_9_of_3; [lia|].
    apply lookup_lt_Some in Hj. lia. }
Qed.

End SchedulerCreateTask.

Lemma world3_wf : @sched_wf x86_64 world3 0 sched3.
Proof.
  unfold sched_wf. split; [vm_compute; reflexivity|].
  split; [vm_compute; split; congruence|].
  split; [vm_compute; split; congruence|].
  split; [vm_compute; split; congruence|].
  split; [reflexivity|].
  split; [apply (bool_decide_unpack _); vm_compute; exact I|].
  repeat constructor; eexists; vm_compute; reflexivity.
Qed.

Lemma create_task_round_robin_witness :
  exists ids w' s',
    @create_tasks x86_64 0 9 world3 = Ok (ids, w') /\
    @sched_wf x86_64 w' 0 s' /\
    cur_thread s' = 0 /\
    live_tasks s' = 9 /\
    forall th, th ∈ [0; 1; 2] ->
      newborn_count w' th = (newborn_count world3 th + 3)%nat.
Proof.
  destruct (@create_task_round_robin x86_64 world3 0 sched3 9 world3_wf)
    as (ids & w' & s' & Hrun & Hwf & _ & Hlive & _ & Hcur & _ & _ & H3).
  exists ids, w', s'. split; [exact Hrun|]. split; [exact Hwf|].
  split; [exact Hcur|]. split; [exact Hlive|].
  intros th Hth. apply H3; [reflexivity|reflexivity|exact Hth].
Defined.

(** ** Frames: what a run leaves untouched *)

Section FrameRules.
Context `{Platform}.
Context (R : world -> world -> Prop) `{!PreOrder R}.

Lemma preserves_ret {A} (a : A) : preserves R (ret a).
Proof. intros w a' w' [= _ <-]. reflexivity. Qed.

Lemma preserves_bind {A B} (m : M A) (k : A -> M B) :
  preserves R m -> (forall a, preserves R (k a)) -> preserves R (bind m k).
Proof.
  intros Hm Hk w b w'. unfold bind.
  destruct (m w) as [[a w1]| |] eqn:E; try discriminate.
  intros Hkw. etransitivity; [eapply Hm, E | eapply Hk, Hkw].
Qed.

Lemma preserves_fatal {A} msg : preserves R (@fatal _ A msg).
Proof. intros w a w'. discriminate. Qed.

Lemma preserves_stuck {A} why : preserves R (@stuck _ A why).
Proof. intros w a w'. discriminate. Qed.

Lemma preserves_gets {A} (f : world -> A) : preserves R (gets f).
Proof. intros w a w' [= _ <-]. reflexivity. Qed.

Lemma preserves_modify (f : world -> world) :
  (forall w, R w (f w)) -> preserves R (modify f).
Proof. intros Hf w a w'. unfold modify. intros [= _ <-]. apply Hf. Qed.

Lemma preserves_deref_ptr {A} (heap : world -> gmap Z A) p what :
  preserves R (deref_ptr heap p what).
Proof.
  intros w a w'. unfold deref_ptr. destruct (heap w !! p); [|discriminate].
  intros [= _ <-]. reflexivity.
Qed.

Lemma preserves_assert_I b text : preserves R (assert_I b text).
Proof. destruct b; [apply preserves_ret | apply preserves_fatal]. Qed.

Lemma preserves_assert_A b text : preserves R (assert_A b text).
Proof. destruct b; [apply preserves_ret | apply preserves_fatal]. Qed.

End FrameRules.

Ltac frame_step :=
  match goal with
  | |- preserves _ (bind _ _) => apply preserves_bind; [typeclasses eauto | | intros ?]
  | |- preserves _ (ret _) => apply preserves_ret; typeclasses eauto
  | |- preserves _ (gets _) => apply preserves_gets; typeclasses eauto
  | |- preserves _ (fatal _) => apply preserves_fatal
  | |- preserves _ (stuck _) => apply preserves_stuck
  | |- preserves _ (assert_I _ _) => apply preserves_assert_I; typeclasses eauto
  | |- preserves _ (assert_A _ _) => apply preserves_assert_A; typeclasses eauto
  | |- preserves _ (load_task _) => apply preserves_deref_ptr; typeclasses eauto
  | |- preserves _ (load_port _) => apply preserves_deref_ptr; typeclasses eauto
  | |- preserves _ (load_thread _) => apply preserves_deref_ptr; typeclasses eauto
  | |- preserves _ (load_selector _) => apply preserves_deref_ptr; typeclasses eauto
  | |- preserves _ (load_sched _) => apply preserves_deref_ptr; typeclasses eauto
  | |- preserves _ (match ?x with _ => _ end) => destruct x
  | |- preserves _ (if ?x then _ else _) => destruct x
  | |- preserves _ (let '(_, _) := ?x in _) => destruct x
  end.

(** ** The scheduler is deregistered by its last worker, once *)

Section SchedulerFrame.
Context `{Platform}.

Global Instance sched_frame_preorder : PreOrder sched_frame.
Proof.
  split.
  - intros w. split; [done|]. intros sched s Hs. eauto.
  - intros w1 w2 w3 [Hc1 Hs1] [Hc2 Hs2]. split.
    + intros id. rewrite Hc2, Hc1. done.
    + intros sched s Hs. destruct (Hs1 _ _ Hs) as (s' & Hs' & Hl & Hi).
      destruct (Hs2 _ _ Hs') as (s'' & Hs'' & Hl' & Hi').
      exists s''. split; [done|]. split; congruence.
Qed.

Lemma count_event_app e (t1 t2 : list event) :
  count_event e (t1 ++ t2) = (count_event e t1 + count_event e t2)%nat.
Proof. unfold count_event. rewrite filter_app, length_app. done. Qed.

Lemma count_event_nil e : count_event e [] = 0%nat.
Proof. done. Qed.

Lemma count_event_cons_eq e (l : list event) :
  count_event e (e :: l) = S (count_event e l).
Proof. unfold count_event. rewrite filter_cons, decide_True by done. done. Qed.

Lemma count_event_cons_ne e e' (l : list event) :
  e' <> e -> count_event e (e' :: l) = count_event e l.
Proof.
  intros. unfold count_event. rewrite filter_cons, decide_False by done. done.
Qed.

Lemma sched_frame_intro (w w' : world) evs :
  trace w' = trace w ++ evs ->
  (forall id, count_event (ev_release_scheduler_id id) evs = 0%nat) ->
  sched_table (kernel w') = sched_table (kernel w) ->
  sched_frame w w'.
Proof.
  intros Ht Hc Hk. split.
  - intros id. rewrite Ht, count_event_app, Hc. lia.
  - intros sched s Hs. exists s. rewrite Hk. done.
Qed.

Lemma sched_frame_emit e :
  (forall id, e <> ev_release_scheduler_id id) ->
  preserves sched_frame (emit e).
Proof.
  intros He. apply preserves_modify. intros w.
  apply (sched_frame_intro _ _ [e]); [done| |done].
  intros id. unfold count_event. rewrite filter_cons.
  rewrite decide_False by apply He. done.
Qed.

Lemma sched_frame_same (f : world -> world) :
  (forall w, trace (f w) = trace w) ->
  (forall w, sched_table (kernel (f w)) = sched_table (kernel w)) ->
  preserves sched_frame (modify f).
Proof.
  intros Ht Hk. apply preserves_modify. intros w.
  apply (sched_frame_intro _ _ []); [by rewrite Ht, app_nil_r|done|apply Hk].
Qed.

End SchedulerFrame.

Ltac sched_frame_prim :=
  match goal with
  | |- preserves sched_frame (emit _) => apply sched_frame_emit; intros ?; discriminate
  | |- preserves sched_frame (lock _) => apply sched_frame_emit; intros ?; discriminate
  | |- preserves sched_frame (unlock _) => apply sched_frame_emit; intros ?; discriminate
  | |- preserves sched_frame (signal _) => apply sched_frame_emit; intros ?; discriminate
  | |- preserves sched_frame (store_task _ _) => apply sched_frame_same; intros ?; reflexivity
  | |- preserves sched_frame (store_thread _ _) => apply sched_frame_same; intros ?; reflexivity
  | |- preserves sched_frame (store_port _ _) => apply sched_frame_same; intros ?; reflexivity
  | |- preserves sched_frame (store_selector _ _) => apply sched_frame_same; intros ?; reflexivity
  | |- preserves sched_frame (store_mem _ _) => apply sched_frame_same; intros ?; reflexivity
  | |- preserves sched_frame (modify _) => apply sched_frame_same; intros ?; reflexivity
  end.

Ltac sched_frame_solve := repeat first [sched_frame_prim | frame_step | eassumption].

Section SchedulerLifetime.
Context `{Platform}.

Lemma sched_frame_transition th t src dst c n :
  preserves sched_frame (rust_task_thread_transition th t src dst c n).
Proof. unfold rust_task_thread_transition. sched_frame_solve. Qed.

Lemma sched_frame_thread_create_task th :
  preserves sched_frame (rust_task_thread_create_task th).
Proof.
  unfold rust_task_thread_create_task, rust_kernel_register_task.
  sched_frame_solve.
Qed.

Lemma sched_frame_wakeup t from : preserves sched_frame (rust_task_wakeup t from).
Proof.
  unfold rust_task_wakeup. sched_frame_solve. apply sched_frame_transition.
Qed.

Lemma sched_frame_kill t : preserves sched_frame (rust_task_kill t).
Proof.
  unfold rust_task_kill. sched_frame_solve. apply sched_frame_wakeup.
Qed.

Lemma sched_frame_unsupervise t : preserves sched_frame (rust_task_unsupervise t).
Proof. unfold rust_task_unsupervise. sched_frame_solve. Qed.

Lemma sched_frame_kill_all_loop fuel : forall all_tasks,
  preserves sched_frame (kill_all_loop all_tasks fuel).
Proof.
  induction fuel as [|fuel IH]; intros all_tasks; cbn [kill_all_loop].
  - sched_frame_solve.
  - sched_frame_solve.
    + apply sched_frame_unsupervise.
    + apply sched_frame_kill.
    + apply IH.
Qed.

Lemma sched_frame_thread_kill_all_tasks th :
  preserves sched_frame (rust_task_thread_kill_all_tasks th).
Proof.
  unfold rust_task_thread_kill_all_tasks. sched_frame_solve.
  apply sched_frame_kill_all_loop.
Qed.

Lemma sched_frame_sched_kill_all_loop ths n : forall i,
  preserves sched_frame (sched_kill_all_loop ths i n).
Proof.
  induction n as [|n IH]; intros i; cbn [sched_kill_all_loop].
  - sched_frame_solve.
  - sched_frame_solve; [apply sched_frame_thread_kill_all_tasks | apply IH].
Qed.

Lemma sched_frame_thread_exit th : preserves sched_frame (rust_task_thread_exit th).
Proof. unfold rust_task_thread_exit. sched_frame_solve. Qed.

Lemma sched_frame_exit_loop ths n : forall i,
  preserves sched_frame (exit_loop ths i n).
Proof.
  induction n as [|n IH]; intros i; cbn [exit_loop].
  - sched_frame_solve.
  - sched_frame_solve; [apply sched_frame_thread_exit | apply IH].
Qed.

Lemma sched_frame_scheduler_exit sched : preserves sched_frame (rust_scheduler_exit sched).
Proof. unfold rust_scheduler_exit. sched_frame_solve. apply sched_frame_exit_loop. Qed.

Lemma sched_frame_ext (w w' : world) evs :
  trace w' = trace w ++ evs ->
  (forall id, count_event (ev_release_scheduler_id id) evs = 0%nat) ->
  (forall sched s, sched_table (kernel w) !! sched = Some s ->
     exists s', sched_table (kernel w') !! sched = Some s' /\
                live_threads s' = live_threads s /\ sched_id s' = sched_id s) ->
  sched_frame w w'.
Proof.
  intros Ht Hc Hk. split; [|exact Hk].
  intros id. rewrite Ht, count_event_app, Hc. lia.
Qed.

Lemma table_insert_keeps (m : gmap Z rust_scheduler) sched s s' :
  m !! sched = Some s ->
  live_threads s' = live_threads s -> sched_id s' = sched_id s ->
  forall sched0 s0, m !! sched0 = Some s0 ->
    exists s1, <[sched := s']> m !! sched0 = Some s1 /\
               live_threads s1 = live_threads s0 /\ sched_id s1 = sched_id s0.
Proof.
  intros Hs Hl Hi sched0 s0 Hs0.
  destruct (decide (sched = sched0)) as [->|Hne].
  - rewrite lookup_insert_eq. exists s'. split; [done|]. split; congruence.
  - rewrite lookup_insert_ne by done. eauto.
Qed.

Lemma create_task_locked_live_threads s :
  live_threads (snd (create_task_locked s)) = live_threads s /\
  sched_id (snd (create_task_locked s)) = sched_id s.
Proof. unfold create_task_locked. cbn. case_decide; done. Qed.

Lemma sched_frame_scheduler_create_task sched :
  preserves sched_frame (rust_scheduler_create_task sched).
Proof.
  intros w a w' Hrun. unfold rust_scheduler_create_task in Hrun.
  rt_unfold. cbn -[create_task_locked] in Hrun.
  destruct (sched_table (kernel w) !! sched) as [s|] eqn:Es; [|discriminate].
  cbn -[create_task_locked] in Hrun.
  pose proof (create_task_locked_live_threads s) as [Hl Hi].
  destruct (create_task_locked s) as [no s'] eqn:El. cbn in Hl, Hi.
  cbn in Hrun.
  destruct (sched_threads s' !! Z.to_nat no) as [th|] eqn:Eth; [|discriminate].
  apply sched_frame_thread_create_task in Hrun.
  etransitivity; [|exact Hrun].
  apply (sched_frame_ext _ _ [ev_lock (sched_lock sched); ev_unlock (sched_lock sched)]).
  - cbn. rewrite <- app_assoc. done.
  - done.
  - cbn. apply (table_insert_keeps _ sched s s'); done.
Qed.

Lemma sched_frame_scheduler_release_task sched :
  preserves sched_frame (rust_scheduler_release_task sched).
Proof.
  intros w a w' Hrun. unfold rust_scheduler_release_task in Hrun.
  rt_unfold. cbn in Hrun.
  destruct (sched_table (kernel w) !! sched) as [s|] eqn:Es; [|discriminate].
  cbn in Hrun.
  set (w1 := set_trace _ _) in Hrun.
  assert (Hw1 : sched_frame w w1).
  { apply (sched_frame_ext _ _ [ev_lock (sched_lock sched); ev_unlock (sched_lock sched)]).
    - cbn. rewrite <- app_assoc. done.
    - done.
    - cbn. apply (table_insert_keeps _ sched s); done. }
  case_bool_decide.
  - apply sched_frame_scheduler_exit in Hrun. etransitivity; eauto.
  - injection Hrun as _ <-. exact Hw1.
Qed.

Lemma sched_frame_number_of_threads sched :
  preserves sched_frame (rust_scheduler_number_of_threads sched).
Proof. unfold rust_scheduler_number_of_threads. sched_frame_solve. Qed.

Lemma sched_frame_op sched op :
  op <> op_release_task_thread -> preserves sched_frame (run_sched_op sched op).
Proof.
  intros Hop. destruct op; cbn [run_sched_op]; try done.
  - sched_frame_solve. apply sched_frame_scheduler_create_task.
  - apply sched_frame_scheduler_release_task.
  - apply sched_frame_scheduler_exit.
  - unfold rust_scheduler_kill_all_tasks. sched_frame_solve.
    apply sched_frame_sched_kill_all_loop.
  - sched_frame_solve. apply sched_frame_number_of_threads.
Qed.

Lemma run_sched_op_dangling sched op (w : world) :
  sched_table (kernel w) !! sched = None ->
  forall a w', run_sched_op sched op w <> Ok (a, w').
Proof.
  intros Hs a w'. destruct op; cbn [run_sched_op];
    unfold rust_scheduler_create_task, rust_scheduler_release_task,
      rust_scheduler_release_task_thread, rust_scheduler_exit,
      rust_scheduler_kill_all_tasks, rust_scheduler_number_of_threads;
    rt_unfold; cbn; rewrite Hs; discriminate.
Qed.

(** The world after [release_task_thread] on a registered scheduler. *)
Lemma release_task_thread_spec (w : world) sched s :
  sched_table (kernel w) !! sched = Some s ->
  exists w',
    rust_scheduler_release_task_thread sched w = Ok (tt, w') /\
    trace w' =
      trace w ++ [ev_lock (sched_lock sched); ev_unlock (sched_lock sched)] ++
      (if decide (size_sub (live_threads s) 1 = 0)
       then [ev_release_scheduler_id (sched_id s)] else []) /\
    sched_table (kernel w') =
      (if decide (size_sub (live_threads s) 1 = 0)
       then delete (sched_id s)
       else fun m => m)
        (<[sched := set_live_threads (size_sub (live_threads s) 1) s]>
           (sched_table (kernel w))).
Proof.
  intros Hs. unfold rust_scheduler_release_task_thread,
    rust_kernel_release_scheduler_id. rt_unfold. cbn. rewrite Hs. cbn.
  case_decide; cbn; eexists; (split; [reflexivity|]); cbn;
    rewrite <- ?app_assoc; done.
Qed.

Lemma size_sub_1 (x : Z) : 1 <= x < size_modulus -> size_sub x 1 = x - 1.
Proof. intros. unfold size_sub. apply size_wrap_small. lia. Qed.

Lemma run_sched_ops_dangling sched ops (w : world) a w' :
  sched_table (kernel w) !! sched = None ->
  run_sched_ops sched ops w = Ok (a, w') -> ops = [] /\ w' = w.
Proof.
  intros Hs. destruct ops as [|op ops]; cbn [run_sched_ops].
  - intros [= _ <-]. done.
  - unfold bind. destruct (run_sched_op sched op w) as [[u w1]| |] eqn:E;
      try discriminate.
    exfalso. eapply run_sched_op_dangling; eauto.
Qed.

Lemma count_op_cons op op' ops :
  count_op op (op' :: ops) =
  ((if decide (op' = op) then 1 else 0) + count_op op ops)%nat.
Proof. unfold count_op. rewrite filter_cons. case_decide; done. Qed.

Lemma count_op_replicate op (n : nat) : count_op op (replicate n op) = n.
Proof.
  induction n as [|n IH]; [done|].
  cbn [replicate]. rewrite count_op_cons, decide_True, IH by done. done.
Qed.

Lemma lifetime_inv sched (ops : list sched_op) :
  forall (w w' : world) (s : rust_scheduler),
  sched_table (kernel w) !! sched = Some s ->
  sched_id s = sched ->
  1 <= live_threads s < size_modulus ->
  run_sched_ops sched ops w = Ok (tt, w') ->
  let k := Z.of_nat (count_op op_release_task_thread ops) in
  k <= live_threads s /\
  count_event (ev_release_scheduler_id sched) (trace w') =
    (count_event (ev_release_scheduler_id sched) (trace w) +
     (if decide (k = live_threads s) then 1 else 0))%nat /\
  (k < live_threads s ->
   exists s', sched_table (kernel w') !! sched = Some s' /\
              live_threads s' = live_threads s - k /\ sched_id s' = sched) /\
  (k = live_threads s -> sched_table (kernel w') !! sched = None).
Proof.
  induction ops as [|op ops IH]; intros w w' s Hs Hid Hlive Hrun k.
  - cbn in Hrun. injection Hrun as <-. subst k. cbn.
    rewrite decide_False by lia. repeat split; try lia.
    intros _. exists s. rewrite Z.sub_0_r. done.
  - cbn [run_sched_ops] in Hrun. unfold bind in Hrun.
    destruct (run_sched_op sched op w) as [[u w1]| |] eqn:E; try discriminate.
    subst k. rewrite count_op_cons.
    destruct (decide (op = op_release_task_thread)) as [->|Hop].
    + cbn [run_sched_op] in E.
      destruct (release_task_thread_spec w sched s Hs) as (w1' & E' & Htr & Htab).
      rewrite E' in E. assert (w1 = w1') as -> by congruence. clear E.
      rewrite size_sub_1 in Htr, Htab by done. rewrite Hid in Htr, Htab.
      destruct (decide (live_threads s - 1 = 0)) as [H1|H1].
      * assert (Hnone : sched_table (kernel w1') !! sched = None).
        { rewrite Htab. apply lookup_delete_eq. }
        destruct (run_sched_ops_dangling sched ops w1' tt w' Hnone Hrun) as [-> ->].
        cbn. rewrite decide_True by lia.
        rewrite Htr, !count_event_app.
        rewrite !count_event_cons_ne by discriminate.
        rewrite count_event_cons_eq, count_event_nil.
        repeat split; try lia. done.
      * assert (Hs1 : sched_table (kernel w1') !! sched =
                      Some (set_live_threads (live_threads s - 1) s)).
        { rewrite Htab. apply lookup_insert_eq. }
        destruct (IH w1' w' _ Hs1 Hid) as (Hk & Hc & Hlt & Heq);
          [cbn; lia | exact Hrun |]. cbn in Hk, Hc, Hlt, Heq.
        rewrite Nat2Z.inj_add. cbn [Z.of_nat Pos.of_succ_nat].
        change (Z.of_nat 1) with 1.
        split; [lia|]. split.
        { rewrite Hc, Htr, !count_event_app.
          rewrite !count_event_cons_ne by discriminate.
          rewrite count_event_nil. clear Hc.
          destruct (decide _), (decide _); lia. }
        split.
        { intros Hlt'. destruct Hlt as (s' & Hs' & Hl' & Hi'); [lia|].
          exists s'. split; [done|]. split; [lia|done]. }
        intros Heq'. apply Heq. lia.
    + cbn [Nat.add].
      pose proof (sched_frame_op sched op Hop w u w1 E) as [Hc Ht].
      destruct (Ht sched s Hs) as (s1 & Hs1 & Hl1 & Hi1).
      destruct (IH w1 w' s1 Hs1) as (Hk & Hc' & Hlt & Heq);
        [congruence | lia | exact Hrun |].
      rewrite Hl1 in Hk, Hc', Hlt, Heq. rewrite Hc in Hc'. done.
Qed.

Lemma lifetime_run sched (n : nat) :
  forall (w : world) (s : rust_scheduler),
  sched_table (kernel w) !! sched = Some s ->
  sched_id s = sched ->
  live_threads s = Z.of_nat (S n) ->
  Z.of_nat (S n) < size_modulus ->
  exists w',
    run_sched_ops sched (replicate (S n) op_release_task_thread) w = Ok (tt, w') /\
    last (trace w') = Some (ev_release_scheduler_id sched).
Proof.
  induction n as [|n IH]; intros w s Hs Hid Hl Hlt.
  - destruct (release_task_thread_spec w sched s Hs) as (w' & E & Htr & Htab).
    rewrite size_sub_1 in Htr by lia. rewrite Hl in Htr. cbn in Htr.
    exists w'. split.
    + cbn. unfold bind. rewrite E. done.
    + rewrite Htr, Hid. rewrite !last_app. done.
  - destruct (release_task_thread_spec w sched s Hs) as (w1 & E & Htr & Htab).
    rewrite size_sub_1 in Htab by lia.
    rewrite decide_False in Htab by lia.
    destruct (IH w1 (set_live_threads (live_threads s - 1) s)) as (w' & E' & Hlast).
    + rewrite Htab. apply lookup_insert_eq.
    + done.
    + cbn. lia.
    + lia.
    + exists w'. split; [|done].
      change (replicate (S (S n)) op_release_task_thread)
        with (op_release_task_thread :: replicate (S n) op_release_task_thread).
      cbn [run_sched_ops run_sched_op]. unfold bind at 1. rewrite E. exact E'.
Qed.

(** C6.  For a registered scheduler with at least one live worker:
    [release_task_thread] returns, decrements [live_threads] between
    taking and releasing the scheduler's lock, and calls
    [release_scheduler_id] with the scheduler's id exactly when the count
    it has written is 0; in every run of scheduler operations the number
    of [release_task_thread] calls stays within [live_threads], the
    scheduler is deregistered once if that number reaches [live_threads]
    and not at all otherwise, so no other operation deregisters it; and
    the run in which each live worker releases once ends with the one
    deregistration. *)
Theorem release_task_thread_deregisters (w : world) (sched : Z)
    (s : rust_scheduler) :
  sched_table (kernel w) !! sched = Some s ->
  sched_id s = sched ->
  1 <= live_threads s < size_modulus ->
  (exists w1,
     rust_scheduler_release_task_thread sched w = Ok (tt, w1) /\
     trace w1 =
       trace w ++ [ev_lock (sched_lock sched); ev_unlock (sched_lock sched)] ++
       (if decide (live_threads s - 1 = 0)
        then [ev_release_scheduler_id sched] else []) /\
     (live_threads s - 1 <> 0 ->
      sched_table (kernel w1) !! sched =
        Some (set_live_threads (live_threads s - 1) s)) /\
     (live_threads s - 1 = 0 -> sched_table (kernel w1) !! sched = None)) /\
  (forall ops w',
     run_sched_ops sched ops w = Ok (tt, w') ->
     let k := Z.of_nat (count_op op_release_task_thread ops) in
     k <= live_threads s /\
     count_event (ev_release_scheduler_id sched) (trace w') =
       (count_event (ev_release_scheduler_id sched) (trace w) +
        (if decide (k = live_threads s) then 1 else 0))%nat /\
     (k < live_threads s ->
      exists s', sched_table (kernel w') !! sched = Some s' /\
                 live_threads s' = live_threads s - k /\
                 sched_id s' = sched) /\
     (k = live_threads s -> sched_table (kernel w') !! sched = None)) /\
  (exists w',
     run_sched_ops sched
       (replicate (Z.to_nat (live_threads s)) op_release_task_thread) w =
       Ok (tt, w') /\
     count_event (ev_release_scheduler_id sched) (trace w') =
       S (count_event (ev_release_scheduler_id sched) (trace w)) /\
     last (trace w') = Some (ev_release_scheduler_id sched) /\
     sched_table (kernel w') !! sched = None).
Proof.
  intros Hs Hid Hlive. split; [|split].
  - destruct (release_task_thread_spec w sched s Hs) as (w1 & E & Htr & Htab).
    rewrite size_sub_1 in Htr, Htab by done. rewrite Hid in Htr, Htab.
    exists w1. split; [exact E|]. split; [exact Htr|]. split.
    + intros Hne. rewrite Htab, decide_False by done. apply lookup_insert_eq.
    + intros Heq. rewrite Htab, decide_True by done. apply lookup_delete_eq.
  - intros ops w' Hrun. exact (lifetime_inv sched ops w w' s Hs Hid Hlive Hrun).
  - destruct (Z.to_nat (live_threads s)) as [|n] eqn:En; [lia|].
    destruct (lifetime_run sched n w s Hs Hid) as (w' & Hrun & Hlast); [lia|lia|].
    exists w'. split; [exact Hrun|].
    destruct (lifetime_inv sched _ w w' s Hs Hid Hlive Hrun) as (_ & Hc & _ & Hn).
    assert (Hk : Z.of_nat (count_op op_release_task_thread
                             (replicate (S n) op_release_task_thread)) =
                 live_threads s).
    { rewrite count_op_replicate. lia. }
    rewrite decide_True in Hc by exact Hk.
    split; [lia|]. split; [exact Hlast|]. apply Hn, Hk.
Qed.

End SchedulerLifetime.

Lemma release_task_thread_deregisters_witness :
  exists w',
    @run_sched_ops x86_64 0 (replicate 3 op_release_task_thread) world3 =
      Ok (tt, w') /\
    count_event (ev_release_scheduler_id 0) (trace w') = 1%nat.
Proof.
  destruct (@release_task_thread_deregisters x86_64 world3 0 sched3)
    as (_ & _ & w' & Hrun & Hc & _).
  - vm_compute. reflexivity.
  - reflexivity.
  - vm_compute. split; congruence.
  - exists w'. split; [exact Hrun|]. rewrite Hc. vm_compute. reflexivity.
Defined.

(** ** Killing all tasks of a worker *)

Ltac elem_inv :=
  repeat match goal with
  | H : _ ∈ [] |- _ => by apply elem_of_nil in H
  | H : _ ∈ _ :: _ |- _ => apply elem_of_cons in H as [H|H]
  | H : _ ∈ _ ++ _ |- _ => apply elem_of_app in H as [H|H]
  end; try discriminate; try congruence.

Section KillAllTasks.
Context `{Platform}.

Lemma kill_all_loop_rev (l : list Z) :
  kill_all_loop l (length l) = kill_each (reverse l).
Proof.
  induction l as [|x l IH] using rev_ind; [done|].
  rewrite length_app, Nat.add_comm. cbn [length Nat.add kill_all_loop].
  rewrite last_snoc, removelast_last, reverse_snoc. cbn [kill_each].
  rewrite IH. done.
Qed.

Lemma kill_one_spec (w : world) t task thr :
  tasks w !! t = Some task ->
  threads w !! task_thread task = Some thr ->
  exists w',
    (rust_task_unsupervise t ;; rust_task_kill t) w = Ok (tt, w') /\
    tasks w' = <[t := killed_task task]> (tasks w) /\
    trace w' = trace w ++ kill_events t task /\
    newborn_dead_frame w w' /\
    kernel w' = kernel w /\ ports w' = ports w /\
    selectors w' = selectors w /\ mem w' = mem w.
Proof.
  intros Ht Hth.
  unfold rust_task_unsupervise, rust_task_kill, rust_task_wakeup,
    rust_task_thread_transition, killed_task, kill_events.
  rt_unfold. cbn. rewrite Ht. cbn. rewrite lookup_insert_eq. cbn.
  destruct (decide (task_state task = blocked)) as [Hb|Hb]; cbn.
  - rewrite lookup_insert_eq. cbn. rewrite bool_decide_eq_true_2 by done. cbn.
    rewrite lookup_insert_eq. cbn.
    rewrite bool_decide_eq_true_2 by done. cbn.
    rewrite Hth. cbn. rewrite lookup_insert_eq. cbn.
    eexists. split; [reflexivity|]. cbn.
    rewrite !insert_insert_eq, <- !app_assoc.
    repeat split; try done.
    intros th0 thr0 Hth0. cbn.
    destruct (decide (task_thread task = th0)) as [<-|Hne].
    + rewrite lookup_insert_eq. eexists. split; [done|].
      rewrite Hth in Hth0. injection Hth0 as <-. done.

    + rewrite lookup_insert_ne by done. eauto.
  - eexists. split; [reflexivity|]. cbn.
    rewrite !insert_insert_eq, <- !app_assoc.
    repeat split; try done.
    intros th0 thr0 Hth0. eauto.
Qed.


Lemma newborn_dead_frame_refl (w : world) : newborn_dead_frame w w.
Proof. intros th thr Hth. eauto. Qed.

Lemma newborn_dead_frame_trans (w1 w2 w3 : world) :
  newborn_dead_frame w1 w2 -> newborn_dead_frame w2 w3 ->
  newborn_dead_frame w1 w3.
Proof.
  intros H12 H23 th thr Hth.
  destruct (H12 th thr Hth) as (thr2 & Hth2 & Hn2 & Hd2).
  destruct (H23 th thr2 Hth2) as (thr3 & Hth3 & Hn3 & Hd3).
  exists thr3. split; [done|]. split; congruence.
Qed.

Lemma flat_map_ext_elem {A B} (f g : A -> list B) (l : list A) :
  (forall x, x ∈ l -> f x = g x) -> flat_map f l = flat_map g l.
Proof.
  induction l as [|a l IH]; intros Hfg; cbn; [done|].
  rewrite Hfg by left. rewrite IH; [done|]. intros x Hx. apply Hfg. by right.
Qed.

Lemma kill_each_spec (ts : list Z) :
  forall w : world,
  NoDup ts -> tasks_alive w ts ->
  exists w',
    kill_each ts w = Ok (tt, w') /\
    trace w' = trace w ++ flat_map (kill_events_in w) ts /\
    (forall t, t ∉ ts -> tasks w' !! t = tasks w !! t) /\
    (forall t, t ∈ ts ->
       exists task, tasks w !! t = Some task /\
                    tasks w' !! t = Some (killed_task task)) /\
    newborn_dead_frame w w' /\
    kernel w' = kernel w /\ ports w' = ports w /\
    selectors w' = selectors w /\ mem w' = mem w.
Proof.
  induction ts as [|t ts IH]; intros w Hnd Halive.
  - exists w. cbn. rewrite app_nil_r. repeat split; try done.
    + intros t Ht. by apply elem_of_nil in Ht.
    + apply newborn_dead_frame_refl.
  - apply NoDup_cons in Hnd as [Hnotin Hnd].
    destruct (Halive t) as (task & thr & Ht & Hth); [left|].
    destruct (kill_one_spec w t task thr Ht Hth)
      as (w1 & Hrun1 & Htasks1 & Htr1 & Hfr1 & Hk1 & Hp1 & Hs1 & Hm1).
    assert (Halive1 : tasks_alive w1 ts).
    { intros t' Ht'. destruct (Halive t') as (task' & thr' & Hta & Hthr); [by right|].
      destruct (Hfr1 _ _ Hthr) as (thr1 & Hthr1 & _).
      exists task', thr1. split; [|done].
      rewrite Htasks1, lookup_insert_ne; [done|]. intros ->. done. }
    destruct (IH w1 Hnd Halive1)
      as (w' & Hrun & Htr & Hout & Hin & Hfr & Hk & Hp & Hs & Hm).
    exists w'. split.
    { cbn [kill_each]. unfold bind at 1.
      unfold bind at 1 in Hrun1.
      destruct (rust_task_unsupervise t w) as [[u w0]| |]; try discriminate.
      unfold bind at 1. rewrite Hrun1. exact Hrun. }
    split.
    { rewrite Htr, Htr1, <- app_assoc. f_equal. cbn [flat_map].
      unfold kill_events_in at 2. rewrite Ht. f_equal.
      apply flat_map_ext_elem. intros t' Ht'. unfold kill_events_in.
      rewrite Htasks1, lookup_insert_ne; [done|].
      intros ->. done. }
    split.
    { intros t' Ht'. apply not_elem_of_cons in Ht' as [Hne Ht'].
      rewrite Hout by done. rewrite Htasks1, lookup_insert_ne; done. }
    split.
    { intros t' Ht'. apply elem_of_cons in Ht' as [->|Ht'].
      - exists task. split; [done|]. rewrite Hout by done.
        rewrite Htasks1. apply lookup_insert_eq.
      - destruct (Hin t' Ht') as (task' & Hta & Hta').
        exists task'. split; [|done].
        rewrite Htasks1, lookup_insert_ne in Hta; [done|]. intros ->. done. }
    split; [eapply newborn_dead_frame_trans; eauto|].
    repeat split; congruence.
Qed.


Lemma kill_events_in_kill (w : world) (t t' : Z) :
  ev_kill t ∈ kill_events_in w t' <-> t = t' /\ is_Some (tasks w !! t').
Proof.
  unfold kill_events_in, kill_events.
  destruct (tasks w !! t') as [task|]; cbn.
  - split.
    + intros Hin. split; [|eauto]. case_decide; elem_inv.
    + intros [-> _]. right. left.
  - split; [intros Hin; elem_inv|]. intros [_ [? ?]]. discriminate.
Qed.

Lemma kill_events_in_unsupervise (w : world) (t t' : Z) :
  ev_unsupervise t ∈ kill_events_in w t' <-> t = t' /\ is_Some (tasks w !! t').
Proof.
  unfold kill_events_in, kill_events.
  destruct (tasks w !! t') as [task|]; cbn.
  - split.
    + intros Hin. split; [|eauto]. case_decide; elem_inv.
    + intros [-> _]. left.
  - split; [intros Hin; elem_inv|]. intros [_ [? ?]]. discriminate.
Qed.

Lemma elem_of_flat_map {A B} (f : A -> list B) (l : list A) (y : B) :
  y ∈ flat_map f l <-> exists x, x ∈ l /\ y ∈ f x.
Proof.
  induction l as [|a l IH]; cbn.
  - split; [intros Hy; elem_inv | intros (x & Hx & _); elem_inv].
  - rewrite elem_of_app, IH. split.
    + intros [Hy|(x & Hx & Hy)].
      * exists a. split; [left|done].
      * exists x. split; [by right|done].
    + intros (x & Hx & Hy). apply elem_of_cons in Hx as [->|Hx]; eauto.
Qed.

Lemma task_lists_partition (n r b d : list Z) :
  NoDup (n ++ r ++ b ++ d) ->
  NoDup (r ++ b) /\ (forall t, t ∈ n ++ d -> t ∉ r ++ b).
Proof.
  rewrite !NoDup_app. intros (Hn & Hn' & Hr & Hr' & Hb & Hb' & Hd).
  split; [split; [done|]; split; [|done]|].
  - intros x Hx Hxb. apply (Hr' x Hx). apply elem_of_app. by left.
  - intros t Ht Hs. apply elem_of_app in Ht as [Ht|Ht].
    + apply (Hn' t Ht). rewrite app_assoc. apply elem_of_app. by left.
    + apply elem_of_app in Hs as [Hs|Hs].
      * apply (Hr' t Hs). apply elem_of_app. by right.
      * by apply (Hb' t Hs).
Qed.

(** C10.  On a worker whose four task lists are pairwise disjoint and
    whose running and blocked tasks are live objects, [kill_all_tasks]
    returns; under the worker's lock it takes the snapshot
    [running_tasks ++ blocked_tasks] and then, from the back of the
    snapshot to its front, calls [unsupervise()] and right after it
    [kill()] on each task: exactly the snapshotted tasks are killed and
    unsupervised, each ends killed and with failure propagation off, every
    other task object is left as it was, in particular those of the
    newborn and dead lists, and every worker keeps its newborn and dead
    lists. *)
Theorem kill_all_tasks_snapshot (w : world) (th : Z) (thr : rust_task_thread) :
  threads w !! th = Some thr ->
  NoDup (newborn_tasks thr ++ running_tasks thr ++ blocked_tasks thr ++
         dead_tasks thr) ->
  tasks_alive w (running_tasks thr ++ blocked_tasks thr) ->
  let snapshot := running_tasks thr ++ blocked_tasks thr in
  let kills := flat_map (kill_events_in w) (reverse snapshot) in
  (exists w',
    rust_task_thread_kill_all_tasks th w = Ok (tt, w') /\
    trace w' =
      trace w ++ [ev_lock (thread_lock th); ev_unlock (thread_lock th)] ++
      kills /\
    (forall t, ev_kill t ∈ kills <-> t ∈ snapshot) /\
    (forall t, ev_unsupervise t ∈ kills <-> t ∈ snapshot) /\
    (forall t, t ∈ snapshot ->
       exists task,
         tasks w !! t = Some task /\
         tasks w' !! t = Some (killed_task task) /\
         task_killed (killed_task task) = true /\
         propagates_failure (killed_task task) = false) /\
    (forall t, t ∉ snapshot -> tasks w' !! t = tasks w !! t) /\
    (forall t, t ∈ newborn_tasks thr ++ dead_tasks thr ->
       tasks w' !! t = tasks w !! t /\
       (ev_kill t ∉ kills) /\ (ev_unsupervise t ∉ kills)) /\
    newborn_dead_frame w w').
Proof.
  intros Hth Hnd Halive snapshot kills.
  destruct (task_lists_partition _ _ _ _ Hnd) as [Hnd' Hdisj].
  fold snapshot in Hnd', Hdisj.
  assert (Halive' : tasks_alive
            (set_trace ((trace w ++ [ev_lock (thread_lock th)]) ++
                          [ev_unlock (thread_lock th)]) w) (reverse snapshot)).
  { intros t Ht. rewrite elem_of_reverse in Ht. exact (Halive t Ht). }
  assert (Hndr : NoDup (reverse snapshot)) by (by rewrite reverse_Permutation).
  destruct (kill_each_spec (reverse snapshot) _ Hndr Halive')
    as (w' & Hrun & Htr & Hout & Hin & Hfr & _).
  assert (Hk : forall t, ev_kill t ∈ kills <-> t ∈ snapshot).
  { intros t. unfold kills. rewrite elem_of_flat_map. split.
    - intros (t' & Ht' & Hev). apply kill_events_in_kill in Hev as [-> _].
      by rewrite elem_of_reverse in Ht'.
    - intros Ht. exists t. split; [by rewrite elem_of_reverse|].
      apply kill_events_in_kill. split; [done|].
      destruct (Halive t Ht) as (task & _ & -> & _). eauto. }
  assert (Hu : forall t, ev_unsupervise t ∈ kills <-> t ∈ snapshot).
  { intros t. unfold kills. rewrite elem_of_flat_map. split.
    - intros (t' & Ht' & Hev). apply kill_events_in_unsupervise in Hev as [-> _].
      by rewrite elem_of_reverse in Ht'.
    - intros Ht. exists t. split; [by rewrite elem_of_reverse|].
      apply kill_events_in_unsupervise. split; [done|].
      destruct (Halive t Ht) as (task & _ & -> & _). eauto. }
  exists w'. split.
  { unfold rust_task_thread_kill_all_tasks. rt_unfold. cbn. rewrite Hth. cbn.
    fold snapshot. rewrite kill_all_loop_rev. exact Hrun. }
  split.
  { rewrite Htr. cbn. rewrite <- !app_assoc. done. }
  split; [exact Hk|]. split; [exact Hu|].
  split.
  { intros t Ht. destruct (Hin t) as (task & Hta & Hta'); [by rewrite elem_of_reverse|].
    exists task. cbn in Hta. split; [done|]. split; [done|].
    unfold killed_task, propagates_failure. case_decide; done. }
  split.
  { intros t Ht. rewrite Hout; [done|]. by rewrite elem_of_reverse. }
  split.
  { intros t Ht. pose proof (Hdisj t Ht) as Hn. split.
    - rewrite Hout; [done|]. by rewrite elem_of_reverse.
    - rewrite Hk, Hu. done. }
  exact Hfr.
Qed.

End KillAllTasks.

Lemma world_kill_alive :
  @tasks_alive x86_64 world_kill [11; 12].
Proof.
  intros t Ht. elem_inv; subst t; eexists _, _; split; vm_compute; reflexivity.
Qed.

Lemma kill_all_tasks_snapshot_witness :
  exists w',
    @rust_task_thread_kill_all_tasks x86_64 0 world_kill = Ok (tt, w') /\
    tasks w' !! 10 = tasks world_kill !! 10 /\
    tasks w' !! 13 = tasks world_kill !! 13.
Proof.
  destruct (@kill_all_tasks_snapshot x86_64 world_kill 0 thread_kill)
    as (w' & Hrun & _ & _ & _ & _ & Hout & _).
  - vm_compute. reflexivity.
  - apply (bool_decide_unpack _). vm_compute. exact I.
  - exact world_kill_alive.
  - exists w'. split; [exact Hrun|].
    split; apply Hout; intros Hin; cbn in Hin; elem_inv.
Defined.

(** ** The port selector: select *)

Section Worlds.
Context `{Platform}.

Lemma world_ext (w1 w2 : world) :
  kernel w1 = kernel w2 -> threads w1 = threads w2 -> tasks w1 = tasks w2 ->
  ports w1 = ports w2 -> selectors w1 = selectors w2 -> mem w1 = mem w2 ->
  trace w1 = trace w2 -> w1 = w2.
Proof. destruct w1, w2; cbn; intros; subst; reflexivity. Qed.

Lemma Ok_eq {A} (a a' : A) (w w' : world) :
  a = a' -> w = w' -> Ok (a, w) = Ok (a', w').
Proof. intros -> ->. reflexivity. Qed.

End Worlds.

Section Select.
Context `{Platform}.


Lemma select_index_range i j n : 0 < n -> 0 <= select_index i j n < n.
Proof. intros. unfold select_index. apply Z.mod_pos_bound. lia. Qed.

Lemma select_index_lookup (ports : list Z) i j n :
  0 < n -> Z.of_nat (length ports) = n ->
  ports !! Z.to_nat (select_index i j n) =
  Some (ports !!! Z.to_nat (select_index i j n)).
Proof.
  intros Hn Hlen. apply list_lookup_lookup_total_lt.
  pose proof (select_index_range i j n Hn). lia.
Qed.










Lemma scan_order_length ports n j : length (scan_order ports n j) = Z.to_nat n.
Proof. unfold scan_order. by rewrite length_map, length_seq. Qed.

Lemma scan_order_lookup ports n j (i : nat) :
  0 < n -> Z.of_nat (length ports) = n -> Z.of_nat i < n ->
  scan_order ports n j !! i =
  ports !! Z.to_nat (select_index (Z.of_nat i) j n).
Proof.
  intros Hn Hlen Hi. unfold scan_order.
  rewrite (select_index_lookup ports _ j n Hn Hlen).
  change (map ?f ?l) with (f <$> l).
  rewrite list_lookup_fmap, lookup_seq_lt by lia. done.
Qed.



End Select.



(** ** The port selector: rendezvous with a sender *)

Section Rendezvous.
Context `{Platform}.

Lemma msg_sent_on_loop_hit (w : world) this port task s ps t thr slot
    (fuel : nat) :
  selectors w !! this = Some s ->
  sel_ports s = Some ps ->
  Z.of_nat (length ps) < size_modulus ->
  tasks w !! task = Some t ->
  task_state t = blocked ->
  task_cond t = Some (cond_selector this) ->
  task_rendezvous_ptr t = Some slot ->
  threads w !! task_thread t = Some thr ->
  forall i : nat,
  (i + fuel = length ps)%nat ->
  port ∈ drop i ps ->
  msg_sent_on_loop this port task (Z.of_nat i) fuel w =
  Ok (tt,
      set_trace (trace w ++ [ev_wakeup task;
                             ev_signal (thread_lock (task_thread t))])
        (set_tasks (<[task := select_woken t]> (tasks w))
           (set_threads
              (<[task_thread t := moved task blocked running thr]> (threads w))
              (set_mem (<[slot := cell_port port]> (mem w))
                 (set_selectors
                    (<[this := set_sel_published None 0 s]> (selectors w))
                    w))))).
Proof.
  intros Hs Hps Hmod Ht Hst Hcond Hrp Hthr.
  induction fuel as [|fuel IH]; intros i Hsum Hin.
  - rewrite drop_ge in Hin by lia. by apply elem_of_nil in Hin.
  - cbn [msg_sent_on_loop]. unfold bind at 1.
    unfold load_selector at 1, deref_ptr. rewrite Hs, Hps.
    rewrite Nat2Z.id.
    destruct (ps !! i) as [q|] eqn:Hq.
    2:{ apply lookup_ge_None in Hq. lia. }
    destruct (decide (port = q)) as [<-|Hne].
    + unfold rust_task_wakeup, rust_task_thread_transition. rt_unfold. cbn.
      rewrite Ht. cbn. rewrite Hrp. cbn. rewrite lookup_insert_eq. cbn.
      rewrite Hcond. rewrite bool_decide_eq_true_2 by done. cbn.
      rewrite lookup_insert_eq. cbn. rewrite Hst.
      rewrite bool_decide_eq_true_2 by done. cbn.
      rewrite Hthr. cbn. rewrite lookup_insert_eq. cbn.
      f_equal. f_equal. apply world_ext; cbn; try done.
      * by rewrite !insert_insert_eq.
      * by rewrite !insert_insert_eq.
      * by rewrite <- app_assoc.
    + replace (size_add (Z.of_nat i) 1) with (Z.of_nat (S i)).
      2:{ unfold size_add. rewrite size_wrap_small; lia. }
      apply IH; [lia|].
      rewrite (drop_S _ q) in Hin by done.
      apply elem_of_cons in Hin as [->|Hin]; done.
Qed.


Lemma msg_sent_on_idle (w : world) this q s :
  selectors w !! this = Some s -> sel_n_ports s = 0 ->
  port_alive w q ->
  rust_port_selector_msg_sent_on this q w =
  Ok (tt, set_trace (trace w ++ [ev_lock (rendezvous_lock this);
                                 ev_unlock (rendezvous_lock this)]) w).
Proof.
  intros Hs Hn (pq & tq & Hq & Htq).
  unfold rust_port_selector_msg_sent_on, rust_task_blocked_on. rt_unfold. cbn.
  rewrite Hq. cbn. rewrite Htq. cbn.
  destruct (bool_decide _); cbn.
  - rewrite Hs. cbn. rewrite Hn. cbn.
    apply Ok_eq; [done|]. apply world_ext; cbn; try done.
    by rewrite <- app_assoc.
  - apply Ok_eq; [done|]. apply world_ext; cbn; try done.
    by rewrite <- app_assoc.
Qed.

Lemma msg_sent_on_all_idle (this : Z) (qs : list Z) : forall (w : world) s,
  selectors w !! this = Some s -> sel_n_ports s = 0 ->
  (forall q, q ∈ qs -> port_alive w q) ->
  msg_sent_on_all this qs w =
  Ok (tt, set_trace
            (trace w ++
             flat_map (fun _ => [ev_lock (rendezvous_lock this);
                                 ev_unlock (rendezvous_lock this)]) qs) w).
Proof.
  induction qs as [|q qs IH]; intros w s Hs Hn Halive.
  - cbn. unfold ret. apply Ok_eq; [done|]. apply world_ext; cbn; try done.
    by rewrite app_nil_r.
  - cbn [msg_sent_on_all flat_map]. unfold bind.
    rewrite (msg_sent_on_idle w this q s Hs Hn) by (apply Halive; left).
    rewrite (IH _ s); [| exact Hs | exact Hn |].
    + apply Ok_eq; [done|]. apply world_ext; cbn; try done.
      by rewrite <- app_assoc.
    + intros q' Hq'. apply (Halive q'). by right.
Qed.

Lemma msg_sent_on_first (w : world) this task slot ps port pobj s t thr :
  selectors w !! this = Some s ->
  sel_ports s = Some ps ->
  sel_n_ports s = Z.of_nat (length ps) ->
  Z.of_nat (length ps) < size_modulus ->
  tasks w !! task = Some t ->
  task_state t = blocked ->
  task_cond t = Some (cond_selector this) ->
  task_rendezvous_ptr t = Some slot ->
  threads w !! task_thread t = Some thr ->
  port ∈ ps ->
  ports w !! port = Some pobj -> port_task pobj = task ->
  rust_port_selector_msg_sent_on this port w =
  Ok (tt,
      set_trace (trace w ++ [ev_lock (rendezvous_lock this); ev_wakeup task;
                             ev_signal (thread_lock (task_thread t));
                             ev_unlock (rendezvous_lock this)])
        (set_tasks (<[task := select_woken t]> (tasks w))
           (set_threads
              (<[task_thread t := moved task blocked running thr]> (threads w))
              (set_mem (<[slot := cell_port port]> (mem w))
                 (set_selectors
                    (<[this := set_sel_published None 0 s]> (selectors w))
                    w))))).
Proof.
  intros Hs Hps Hn Hmod Ht Hst Hcond Hrp Hthr Hin Hp Hown.
  unfold rust_port_selector_msg_sent_on, rust_task_blocked_on.
  unfold bind at 1. unfold load_port at 1, deref_ptr. rewrite Hp, Hown.
  unfold bind at 1. unfold lock at 1, emit, modify.
  unfold bind at 1. unfold bind at 1. unfold load_task at 1, deref_ptr.
  cbn [tasks set_trace]. rewrite Ht. unfold ret at 1.
  rewrite Hst, Hcond. rewrite bool_decide_eq_true_2 by done.
  unfold bind at 1. unfold bind at 1. unfold load_selector at 1, deref_ptr.
  cbn [selectors set_trace]. rewrite Hs. rewrite Hn, Nat2Z.id.
  pose proof (msg_sent_on_loop_hit
                (set_trace (trace w ++ [ev_lock (rendezvous_lock this)]) w)
                this port task s ps t thr slot (length ps)
                Hs Hps Hmod Ht Hst Hcond Hrp Hthr 0%nat) as Hloop.
  change (Z.of_nat 0) with 0 in Hloop. rewrite Hloop; [|lia|done].
  unfold unlock, emit, modify. apply Ok_eq; [done|].
  apply world_ext; cbn; try done. by rewrite <- !app_assoc.
Qed.

Lemma select_not_reentrant (w : world) this task dptr ports_arg n_ports s :
  selectors w !! this = Some s ->
  sel_ports s <> None \/ sel_n_ports s <> 0 ->
  exists msg,
    rust_port_selector_select this task dptr ports_arg n_ports w = Fatal msg.
Proof.
  intros Hs Hactive. unfold rust_port_selector_select. rt_unfold. cbn.
  rewrite Hs. cbn.
  destruct (bool_decide (sel_ports s = None)) eqn:E1; cbn; [|eauto].
  destruct (bool_decide (sel_n_ports s = 0)) eqn:E2; cbn; [|eauto].
  apply bool_decide_eq_true_1 in E1, E2. destruct Hactive; done.
Qed.

Lemma count_event_flat_map_locks e this (qs : list Z) :
  e <> ev_lock (rendezvous_lock this) ->
  e <> ev_unlock (rendezvous_lock this) ->
  count_event e
    (flat_map (fun _ => [ev_lock (rendezvous_lock this);
                         ev_unlock (rendezvous_lock this)]) qs) = 0%nat.
Proof.
  intros H1 H2. induction qs as [|q qs IH]; [done|].
  cbn [flat_map]. rewrite count_event_app, IH.
  rewrite !count_event_cons_ne by done. done.
Qed.

(** The state in which [select] leaves a task that it has blocked is a
    pending rendezvous. *)
Lemma select_blocked_pending (w w' : world) this task dptr ps n s1 t thr :
  selectors w' = <[this := set_sel_published (Some ps) n s1]> (selectors w) ->
  tasks w' = <[task := select_blocked this dptr t]> (tasks w) ->
  threads w' = <[task_thread t := thr]> (threads w) ->
  Z.of_nat (length ps) = n -> n < size_modulus ->
  rendezvous_pending w' this task dptr ps.
Proof.
  intros Hs Ht Hth Hlen Hn.
  exists (set_sel_published (Some ps) n s1), (select_blocked this dptr t), thr.
  rewrite Hs, Ht, !lookup_insert_eq.
  change (task_thread (select_blocked this dptr t)) with (task_thread t).
  rewrite Hth, lookup_insert_eq. cbn.
  repeat split; try done; lia.
Qed.

(** C2.  While task [task] is blocked in a select that has published the
    ports [ps], the first sender to run [msg_sent_on] for a port of [ps]
    clears the published set, writes the port's reference into the
    task's rendezvous slot, clears the slot pointer and wakes the task;
    every sender that runs [msg_sent_on] after it, for whatever port,
    finds nothing published and neither writes nor wakes, so the task is
    woken exactly once.  A select on a selector that still has a
    published set aborts on entry, so a selector carries at most one
    select at a time. *)
Theorem msg_sent_on_one_winner (w : world) (this task slot : Z)
    (ps : list Z) (port : Z) (later : list Z) :
  rendezvous_pending w this task slot ps ->
  port ∈ ps ->
  (exists pobj, ports w !! port = Some pobj /\ port_task pobj = task) ->
  (forall q, q ∈ later -> port_alive w q) ->
  (exists w1 w2 s1 t1,
     rust_port_selector_msg_sent_on this port w = Ok (tt, w1) /\
     mem w1 = <[slot := cell_port port]> (mem w) /\
     selectors w1 !! this = Some s1 /\
     sel_ports s1 = None /\ sel_n_ports s1 = 0 /\
     tasks w1 !! task = Some t1 /\
     task_rendezvous_ptr t1 = None /\ task_state t1 = running /\
     count_event (ev_wakeup task) (trace w1) =
       S (count_event (ev_wakeup task) (trace w)) /\
     msg_sent_on_all this later w1 = Ok (tt, w2) /\
     mem w2 = mem w1 /\ tasks w2 = tasks w1 /\ threads w2 = threads w1 /\
     selectors w2 = selectors w1 /\ ports w2 = ports w1 /\
     trace w2 =
       trace w1 ++
       flat_map (fun _ => [ev_lock (rendezvous_lock this);
                           ev_unlock (rendezvous_lock this)]) later /\
     count_event (ev_wakeup task) (trace w2) =
       S (count_event (ev_wakeup task) (trace w))) /\
  (forall task' dptr ports_arg n_ports,
     exists msg,
       rust_port_selector_select this task' dptr ports_arg n_ports w =
         Fatal msg).
Proof.
  intros (s & t & thr & Hs & Hps & Hn & Hmod & Ht & Hst & Hcond & Hrp & Hthr)
    Hin (pobj & Hp & Hown) Hlater.
  pose proof (msg_sent_on_first w this task slot ps port pobj s t thr
                Hs Hps Hn Hmod Ht Hst Hcond Hrp Hthr Hin Hp Hown) as Hfirst.
  set (w1 := set_trace _ _) in Hfirst.
  assert (Hs1 : selectors w1 !! this = Some (set_sel_published None 0 s)).
  { cbn. apply lookup_insert_eq. }
  assert (Hlater1 : forall q, q ∈ later -> port_alive w1 q).
  { intros q Hq. destruct (Hlater q Hq) as (pq & tq & Hpq & Htq).
    destruct (decide (port_task pq = task)) as [E|E].
    - exists pq, (select_woken t). split; [done|].
      cbn. rewrite E. apply lookup_insert_eq.
    - exists pq, tq. split; [done|]. cbn. by rewrite lookup_insert_ne. }
  pose proof (msg_sent_on_all_idle this later w1 _ Hs1 eq_refl Hlater1)
    as Hrest.
  set (w2 := set_trace _ w1) in Hrest.
  assert (Hc1 : count_event (ev_wakeup task) (trace w1) =
                S (count_event (ev_wakeup task) (trace w))).
  { unfold w1. cbn [trace set_trace]. rewrite count_event_app.
    rewrite count_event_cons_ne, count_event_cons_eq by discriminate.
    rewrite !count_event_cons_ne by discriminate.
    rewrite count_event_nil. lia. }
  split.
  - exists w1, w2, (set_sel_published None 0 s), (select_woken t).
    split; [exact Hfirst|]. split; [done|]. split; [exact Hs1|].
    split; [done|]. split; [done|].
    split; [cbn; apply lookup_insert_eq|]. split; [done|]. split; [done|].
    split; [exact Hc1|]. split; [exact Hrest|].
    split; [done|]. split; [done|]. split; [done|]. split; [done|].
    split; [done|]. split; [done|].
    unfold w2. cbn [trace set_trace]. rewrite count_event_app, Hc1.
    rewrite count_event_flat_map_locks by discriminate. lia.
  - intros task' dptr ports_arg n_ports.
    apply (select_not_reentrant w this task' dptr ports_arg n_ports s Hs).
    left. rewrite Hps. discriminate.
Qed.

End Rendezvous.

Lemma world_sel_blocked_pending :
  @rendezvous_pending x86_64 world_sel_blocked 1 1 8 [50].
Proof.
  eexists _, _, _.
  split; [vm_compute; reflexivity|]. split; [reflexivity|].
  split; [reflexivity|]. split; [vm_compute; reflexivity|].
  split; [vm_compute; reflexivity|]. split; [reflexivity|].
  split; [reflexivity|]. split; [reflexivity|]. vm_compute. reflexivity.
Qed.

Lemma msg_sent_on_one_winner_witness :
  exists w1 w2,
    @rust_port_selector_msg_sent_on x86_64 1 50 world_sel_blocked =
      Ok (tt, w1) /\
    mem w1 !! 8 = Some (cell_port 50) /\
    @msg_sent_on_all x86_64 1 [50; 50] w1 = Ok (tt, w2) /\
    mem w2 = mem w1 /\ tasks w2 = tasks w1.
Proof.
  destruct (@msg_sent_on_one_winner x86_64 world_sel_blocked 1 1 8 [50] 50
              [50; 50] world_sel_blocked_pending)
    as ((w1 & w2 & s1 & t1 & Hrun & Hmem & _ & _ & _ & _ & _ & _ & _ &
         Hrest & Hmem2 & Htasks2 & _) & _).
  - left.
  - eexists. split; [vm_compute; reflexivity|]. reflexivity.
  - intros q Hq. eexists _, _.
    elem_inv; subst q; split; vm_compute; reflexivity.
  - exists w1, w2. split; [exact Hrun|].
    split; [rewrite Hmem; apply lookup_insert_eq|].
    split; [exact Hrest|]. split; [exact Hmem2|exact Htasks2].
Defined.

(** ** Blocking receive *)

Section PortRecv.
Context `{Platform}.

(** C3 (as amended).  [port_recv] on a live port takes the port's lock,
    and releases it before it returns.  If the buffer is non-empty, the
    first message is popped into [*dptr] and both flags are false.  If
    the buffer is empty and the task's kill flag is set, the killed flag
    is true and the yield flag stays false: nothing else changes.  If
    the buffer is empty and the running task is not killed, [dptr] is
    stored in [task->rendezvous_ptr], the task is blocked on the port
    with reason "waiting for rendezvous data", the yield flag is true
    and the killed flag false. *)
Theorem port_recv_cases (w : world) (task dptr port : Z) (pobj : rust_port) :
  ports w !! port = Some pobj ->
  let locked := [ev_lock (port_lock port); ev_unlock (port_lock port)] in
  (forall d rest,
     port_buffer pobj = d :: rest ->
     exists w',
       port_recv task dptr port w = Ok ((false, false), w') /\
       mem w' = <[dptr := cell_unit d]> (mem w) /\
       ports w' = <[port := set_port_buffer rest pobj]> (ports w) /\
       trace w' = trace w ++ locked /\
       tasks w' = tasks w /\ threads w' = threads w /\
       selectors w' = selectors w /\ kernel w' = kernel w) /\
  (forall t,
     port_buffer pobj = [] ->
     tasks w !! task = Some t ->
     task_killed t = true ->
     port_recv task dptr port w =
       Ok ((false, true), set_trace (trace w ++ locked) w)) /\
  (forall t thr,
     port_buffer pobj = [] ->
     tasks w !! task = Some t ->
     task_killed t = false ->
     task_state t = running ->
     threads w !! task_thread t = Some thr ->
     exists w',
       port_recv task dptr port w = Ok ((true, false), w') /\
       tasks w' = <[task := recv_blocked port dptr t]> (tasks w) /\
       threads w' =
         <[task_thread t := moved task running blocked thr]> (threads w) /\
       trace w' =
         trace w ++ [ev_lock (port_lock port);
                     ev_signal (thread_lock (task_thread t));
                     ev_unlock (port_lock port)] /\
       mem w' = mem w /\ ports w' = ports w /\
       selectors w' = selectors w /\ kernel w' = kernel w).
Proof.
  intros Hp locked. split; [|split].
  - intros d rest Hbuf. unfold port_recv, rust_port_receive. rt_unfold. cbn.
    rewrite Hp. cbn. rewrite Hbuf. cbn.
    eexists. split; [reflexivity|]. cbn. rewrite <- app_assoc. done.
  - intros t Hbuf Ht Hk. unfold port_recv, rust_port_receive. rt_unfold. cbn.
    rewrite Hp. cbn. rewrite Hbuf. cbn. rewrite Ht. cbn. rewrite Hk. cbn.
    apply Ok_eq; [done|]. apply world_ext; cbn; try done.
    by rewrite <- app_assoc.
  - intros t thr Hbuf Ht Hk Hst Hthr.
    unfold port_recv, rust_port_receive, rust_task_block,
      rust_task_thread_transition. rt_unfold. cbn.
    rewrite Hp. cbn. rewrite Hbuf. cbn. rewrite Ht. cbn. rewrite Hk. cbn.
    rewrite lookup_insert_eq. cbn. rewrite lookup_insert_eq. cbn.
    rewrite Hst. rewrite bool_decide_eq_true_2 by done. cbn.
    rewrite Hthr. cbn. rewrite lookup_insert_eq. cbn.
    eexists. split; [reflexivity|]. cbn.
    rewrite !insert_insert_eq, <- !app_assoc. done.
Qed.

End PortRecv.

Lemma port_recv_cases_witness :
  exists w',
    @port_recv x86_64 1 7 50 world_sel = Ok ((true, false), w') /\
    tasks w' = <[1 := recv_blocked 50 7 task_1]> (tasks world_sel).
Proof.
  destruct (@port_recv_cases x86_64 world_sel 1 7 50 port_50)
    as (_ & _ & Hblock).
  - vm_compute. reflexivity.
  - destruct (Hblock task_1 thread_sel) as (w' & Hrun & Htasks & _);
      try (vm_compute; reflexivity).
    exists w'. split; [exact Hrun | exact Htasks].
Defined.

(** C3 as stated fails: on an empty port and a killed task, [port_recv]
    sets the killed flag and returns with the yield flag false. *)
Lemma port_recv_killed_does_not_yield :
  (exists t, tasks world_recv_killed !! 1 = Some t /\ task_killed t = true) /\
  (exists p, ports world_recv_killed !! 50 = Some p /\ port_buffer p = []) /\
  @port_recv x86_64 1 7 50 world_recv_killed =
    Ok ((false, true),
        set_trace [ev_lock (port_lock 50); ev_unlock (port_lock 50)]
          world_recv_killed).
Proof.
  split; [|split].
  - eexists. split; [vm_compute; reflexivity|reflexivity].
  - eexists. split; [vm_compute; reflexivity|reflexivity].
  - vm_compute. reflexivity.
Qed.

(** ** Sending on a channel *)

Section ChanSend.
Context `{Platform}.

Lemma refs_frame_refl (w : world) : refs_frame w w.
Proof.
  split; [done|]. split.
  - intros t T Ht. exists T. by repeat split.
  - intros q Q Hq. exists Q. by repeat split.
Qed.

Lemma refs_frame_trans (w1 w2 w3 : world) :
  refs_frame w1 w2 -> refs_frame w2 w3 -> refs_frame w1 w3.
Proof.
  intros (Hk & Ht & Hp) (Hk' & Ht' & Hp'). split; [congruence|]. split.
  - intros t T HT. destruct (Ht t T HT) as (T1 & HT1 & E1 & E2 & E3 & E4).
    destruct (Ht' t T1 HT1) as (T2 & HT2 & F1 & F2 & F3 & F4).
    exists T2. split; [done|]. repeat split; congruence.
  - intros q Q HQ. destruct (Hp q Q HQ) as (Q1 & HQ1 & E1 & E2 & E3).
    destruct (Hp' q Q1 HQ1) as (Q2 & HQ2 & F1 & F2 & F3).
    exists Q2. split; [done|]. repeat split; congruence.
Qed.

Lemma refs_frame_update (w w' : world) t T T' :
  kernel w' = kernel w -> ports w' = ports w ->
  tasks w !! t = Some T -> same_task_refs T T' ->
  tasks w' = <[t := T']> (tasks w) ->
  refs_frame w w'.
Proof.
  intros Hk Hp Ht Hsame Htasks. split; [done|]. split.
  - intros t0 T0 Ht0. rewrite Htasks. destruct (decide (t = t0)) as [<-|Hne].
    + rewrite lookup_insert_eq. exists T'. split; [done|]. congruence.
    + rewrite lookup_insert_ne by done. exists T0. by repeat split.
  - intros q Q Hq. rewrite Hp. exists Q. by repeat split.
Qed.

Lemma refs_frame_port_update (w w' : world) p P P' :
  kernel w' = kernel w -> tasks w' = tasks w ->
  ports w !! p = Some P -> same_port_refs P P' ->
  ports w' = <[p := P']> (ports w) ->
  refs_frame w w'.
Proof.
  intros Hk Ht Hp Hsame Hports. split; [done|]. split.
  - intros t T HT. rewrite Ht. exists T. by repeat split.
  - intros q Q Hq. rewrite Hports. destruct (decide (p = q)) as [<-|Hne].
    + rewrite lookup_insert_eq. exists P'. split; [done|]. congruence.
    + rewrite lookup_insert_ne by done. exists Q. by repeat split.
Qed.

Lemma refs_frame_same (w w' : world) :
  kernel w' = kernel w -> tasks w' = tasks w -> ports w' = ports w ->
  refs_frame w w'.
Proof.
  intros Hk Ht Hp. split; [done|]. split.
  - intros t T HT. rewrite Ht. exists T. by repeat split.
  - intros q Q Hq. rewrite Hp. exists Q. by repeat split.
Qed.

Lemma msg_sent_on_loop_miss (w : world) this port task s ps (fuel : nat) :
  selectors w !! this = Some s ->
  sel_ports s = Some ps ->
  Z.of_nat (length ps) < size_modulus ->
  forall i : nat,
  (i + fuel = length ps)%nat ->
  port ∉ drop i ps ->
  msg_sent_on_loop this port task (Z.of_nat i) fuel w = Ok (tt, w).
Proof.
  intros Hs Hps Hmod.
  induction fuel as [|fuel IH]; intros i Hsum Hin; [done|].
  cbn [msg_sent_on_loop]. unfold bind at 1.
  unfold load_selector at 1, deref_ptr. rewrite Hs, Hps, Nat2Z.id.
  destruct (ps !! i) as [q|] eqn:Hq.
  2:{ apply lookup_ge_None in Hq. lia. }
  rewrite (drop_S _ q) in Hin by done.
  apply not_elem_of_cons in Hin as [Hne Hin].
  destruct (decide (port = q)) as [E|_]; [done|].
  replace (size_add (Z.of_nat i) 1) with (Z.of_nat (S i)).
  2:{ unfold size_add. rewrite size_wrap_small; lia. }
  apply IH; [lia|done].
Qed.

Lemma msg_sent_on_miss (w : world) this task slot ps port pobj :
  rendezvous_pending w this task slot ps ->
  port ∉ ps ->
  ports w !! port = Some pobj -> port_task pobj = task ->
  rust_port_selector_msg_sent_on this port w =
  Ok (tt, set_trace (trace w ++ [ev_lock (rendezvous_lock this);
                                 ev_unlock (rendezvous_lock this)]) w).
Proof.
  intros (s & t & thr & Hs & Hps & Hn & Hmod & Ht & Hst & Hcond & Hrp & Hthr)
    Hin Hp Hown.
  unfold rust_port_selector_msg_sent_on, rust_task_blocked_on.
  unfold bind at 1. unfold load_port at 1, deref_ptr. rewrite Hp, Hown.
  unfold bind at 1. unfold lock at 1, emit, modify.
  unfold bind at 1. unfold bind at 1. unfold load_task at 1, deref_ptr.
  cbn [tasks set_trace]. rewrite Ht. unfold ret at 1.
  rewrite Hst, Hcond. rewrite bool_decide_eq_true_2 by done.
  unfold bind at 1. unfold bind at 1. unfold load_selector at 1, deref_ptr.
  cbn [selectors set_trace]. rewrite Hs. rewrite Hn, Nat2Z.id.
  pose proof (msg_sent_on_loop_miss
                (set_trace (trace w ++ [ev_lock (rendezvous_lock this)]) w)
                this port task s ps (length ps) Hs Hps Hmod 0%nat) as Hloop.
  change (Z.of_nat 0) with 0 in Hloop. rewrite Hloop; [|lia|done].
  unfold unlock, emit, modify. apply Ok_eq; [done|].
  apply world_ext; cbn; try done. by rewrite <- !app_assoc.
Qed.


Lemma rendezvous_pending_ports (w : world) pm tr this task slot ps :
  rendezvous_pending w this task slot ps ->
  rendezvous_pending (set_trace tr (set_ports pm w)) this task slot ps.
Proof. intros (s & t & thr & Hp). by exists s, t, thr. Qed.

Lemma rust_port_send_returns (w : world) p d pobj :
  ports w !! p = Some pobj -> owner_ready w p ->
  exists w' tail,
    rust_port_send p d w = Ok (tt, w') /\
    refs_frame w w' /\
    trace w' = trace w ++ ev_send p d :: tail /\
    Forall (fun e => is_send e = false) tail.
Proof.
  intros Hp Hready. unfold rust_port_send.
  unfold bind at 1. unfold emit at 1, modify.
  unfold bind at 1. unfold lock at 1, emit, modify.
  unfold bind at 1. unfold load_port at 1, deref_ptr.
  cbn [ports set_trace trace]. rewrite Hp.
  unfold bind at 1. unfold gets at 1. cbn [tasks set_trace].
  destruct (tasks w !! port_task pobj) as [owner|] eqn:Ho.
  2:{ unfold unlock, emit, modify. cbn [trace set_trace].
      eexists _, [ev_lock (port_lock p); ev_unlock (port_lock p)].
      split; [reflexivity|]. split; [by apply refs_frame_same|].
      split; [cbn; by rewrite <- !app_assoc|].
      repeat constructor. }
  assert (Hbuf : forall w0,
    w0 = set_trace ((trace w ++ [ev_send p d]) ++ [ev_lock (port_lock p)]) w ->
    exists w' tail,
      (store_port p (set_port_buffer (port_buffer pobj ++ [d]) pobj) ;;
       unlock (port_lock p) ;;
       match task_state owner, task_cond owner with
       | blocked, Some (cond_selector sel) =>
           rust_port_selector_msg_sent_on sel p
       | _, _ => ret tt
       end) w0 = Ok (tt, w') /\
      refs_frame w w' /\
      trace w' = trace w ++ ev_send p d :: tail /\
      Forall (fun e => is_send e = false) tail).
  { intros w0 ->.
    unfold bind at 1. unfold store_port at 1, modify.
    unfold bind at 1. unfold unlock at 1, emit, modify.
    cbn [ports set_trace trace set_ports].
    set (pm := <[p := set_port_buffer (port_buffer pobj ++ [d]) pobj]> (ports w)).
    set (w1 := set_trace _ _).
    assert (Hf1 : refs_frame w w1).
    { apply (refs_frame_port_update w w1 p pobj
               (set_port_buffer (port_buffer pobj ++ [d]) pobj));
        try done. }
    assert (Htr1 : trace w1 = trace w ++ ev_send p d ::
                     [ev_lock (port_lock p); ev_unlock (port_lock p)]).
    { unfold w1. cbn. by rewrite <- !app_assoc. }
    assert (Hret : exists w' tail, ret tt w1 = Ok (tt, w') /\
              refs_frame w w' /\ trace w' = trace w ++ ev_send p d :: tail /\
              Forall (fun e => is_send e = false) tail).
    { eexists w1, _. split; [reflexivity|]. split; [done|].
      split; [exact Htr1|]. repeat constructor. }
    destruct (task_state owner) eqn:Hst; try exact Hret.
    destruct (task_cond owner) as [[q|sel]|] eqn:Hcond; try exact Hret.
    destruct (Hready pobj owner Hp Ho Hst) as [_ Hsel].
    destruct (Hsel sel Hcond) as (slot & ps & Hpend).
    assert (Hpend1 : rendezvous_pending w1 sel (port_task pobj) slot ps).
    { destruct Hpend as (s & t & thr & Hpend). by exists s, t, thr. }
    assert (Hp1 : ports w1 !! p =
                  Some (set_port_buffer (port_buffer pobj ++ [d]) pobj)).
    { unfold w1, pm. cbn. apply lookup_insert_eq. }
    destruct (decide (p ∈ ps)) as [Hin|Hout].
    - destruct Hpend1
        as (s & t & thr & Hs & Hps & Hn & Hmod & Ht & Hst' & Hc' & Hrp & Hthr).
      rewrite (msg_sent_on_first w1 sel (port_task pobj) slot ps p _ s t thr
                 Hs Hps Hn Hmod Ht Hst' Hc' Hrp Hthr Hin Hp1 eq_refl).
      eexists _, _. split; [reflexivity|]. split; [|split].
      + eapply refs_frame_trans; [exact Hf1|].
        eapply (refs_frame_update w1 _ (port_task pobj) t (select_woken t));
          try done.
      + cbn [trace set_trace]. rewrite Htr1, <- app_assoc. reflexivity.
      + repeat constructor.
    - rewrite (msg_sent_on_miss w1 sel (port_task pobj) slot ps p _
                 Hpend1 Hout Hp1 eq_refl).
      eexists _, _. split; [reflexivity|]. split; [|split].
      + eapply refs_frame_trans; [exact Hf1|]. by apply refs_frame_same.
      + cbn [trace set_trace]. rewrite Htr1, <- app_assoc. reflexivity.
      + repeat constructor. }
  destruct (task_rendezvous_ptr owner) as [slot|] eqn:Hrp.
  2:{ by apply Hbuf. }
  destruct (bool_decide _) eqn:Hb; [|by apply Hbuf].
  apply bool_decide_eq_true_1 in Hb as [Hst Hcond].
  destruct (Hready pobj owner Hp Ho Hst) as [[thr Hthr] _].
  unfold rust_task_wakeup, rust_task_thread_transition. rt_unfold. cbn.
  rewrite lookup_insert_eq. cbn. rewrite Hcond.
  rewrite bool_decide_eq_true_2 by done. cbn.
  rewrite lookup_insert_eq. cbn. rewrite Hst.
  rewrite bool_decide_eq_true_2 by done. cbn.
  rewrite Hthr. cbn. rewrite lookup_insert_eq. cbn.
  eexists _, _. split; [reflexivity|]. split; [|split].
  - apply (refs_frame_update w _ (port_task pobj) owner
             (set_state running None "none"
                (set_task_rendezvous_ptr None owner))); try done.
    cbn. by rewrite !insert_insert_eq.
  - cbn. rewrite <- !app_assoc. reflexivity.
  - repeat constructor.
Qed.


Lemma owner_ready_bump (w : world) tt T p P n m :
  tasks w !! tt = Some T -> ports w !! p = Some P -> owner_ready w p ->
  owner_ready
    (set_ports (<[p := set_port_ref_count m P]> (ports w))
       (set_tasks (<[tt := set_task_ref_count n T]> (tasks w)) w)) p.
Proof.
  intros HT HP Hready pobj owner Hp Ho Hst.
  cbn in Hp, Ho. rewrite lookup_insert_eq in Hp.
  injection Hp as <-. cbn in Ho.
  assert (Hold : exists o, tasks w !! port_task P = Some o /\
            task_state o = task_state owner /\
            task_cond o = task_cond owner /\
            task_thread o = task_thread owner).
  { destruct (decide (tt = port_task P)) as [E|E].
    - rewrite E, lookup_insert_eq in Ho. injection Ho as <-.
      exists T. rewrite <- E. by repeat split.
    - rewrite lookup_insert_ne in Ho by done. by exists owner. }
  destruct Hold as (o & Ho' & E1 & E2 & E3).
  rewrite <- E1 in Hst.
  destruct (Hready P o HP Ho' Hst) as [Hthr Hsel]. split.
  - cbn. by rewrite <- E3.
  - intros sel Hcond. rewrite <- E2 in Hcond.
    destruct (Hsel sel Hcond) as (slot & ps & s & t & thr & Hs & Hps & Hn &
      Hmod & Ht & Hst' & Hc' & Hrp & Hthr').
    exists slot, ps. cbn [port_task set_port_ref_count].
    destruct (decide (tt = port_task P)) as [E|E].
    + exists s, (set_task_ref_count n t), thr. cbn.
      rewrite <- E, lookup_insert_eq. rewrite <- E in Ht.
      assert (t = T) as -> by congruence. by repeat split.
    + exists s, t, thr. cbn. rewrite lookup_insert_ne by done.
      by repeat split.
Qed.

Lemma set_task_ref_count_id (T : rust_task) n :
  set_task_ref_count (task_ref_count T) (set_task_ref_count n T) = T.
Proof. by destruct T. Qed.

(** C8.  [chan_id_send] on a stale channel returns false without an
    error and without touching a port: if the task id does not resolve,
    nothing changes at all; if the task resolves but the port id does
    not, the reference taken on the task is dropped again and nothing
    else changes.  When both resolve, [send] is invoked once on the
    resolved port, the call returns true, and the references that the
    two lookups took are released: every task and every port has the
    reference count it had before the call. *)
Theorem chan_id_send_stale_or_sent (w : world)
    (target_task_id target_port_id : Z) (sptr : unit_data) :
  (task_table (kernel w) !! target_task_id = None ->
   chan_id_send target_task_id target_port_id sptr w = Ok (false, w)) /\
  (forall target T,
     task_table (kernel w) !! target_task_id = Some target ->
     tasks w !! target = Some T ->
     1 <= task_ref_count T ->
     (task_port_table T !! target_port_id = None ->
      chan_id_send target_task_id target_port_id sptr w =
        Ok (false, set_trace (trace w ++ [ev_deref target]) w)) /\
     (forall p P,
        task_port_table T !! target_port_id = Some p ->
        ports w !! p = Some P ->
        1 <= port_ref_count P ->
        owner_ready w p ->
        exists w' tail,
          chan_id_send target_task_id target_port_id sptr w = Ok (true, w') /\
          trace w' = trace w ++ ev_send p sptr :: tail /\
          Forall (fun e => is_send e = false) tail /\
          refs_frame w w')).
Proof.
  split.
  - intros Hnone. unfold chan_id_send, rust_kernel_get_task_by_id.
    rt_unfold. cbn. by rewrite Hnone.
  - intros target T Hid HT Hrc. split.
    + intros Hport.
      unfold chan_id_send, rust_kernel_get_task_by_id,
        rust_task_get_port_by_id, rust_task_deref.
      rt_unfold. cbn. rewrite Hid. cbn. rewrite HT. cbn.
      rewrite lookup_insert_eq. cbn. rewrite Hport. cbn.
      rewrite lookup_insert_eq. cbn.
      replace (task_ref_count T + 1 - 1) with (task_ref_count T) by lia.
      destruct (decide (task_ref_count T = 0)) as [E|_]; [lia|].
      apply Ok_eq; [done|]. apply world_ext; cbn; try done.
      rewrite insert_insert_eq.
      rewrite (set_task_ref_count_id T). by apply insert_id.
    + intros p P Hport HP Hprc Hready.
      unfold chan_id_send, rust_kernel_get_task_by_id,
        rust_task_get_port_by_id, rust_port_deref, rust_task_deref.
      rt_unfold. cbn -[rust_port_send]. rewrite Hid.
      cbn -[rust_port_send]. rewrite HT. cbn -[rust_port_send].
      rewrite lookup_insert_eq. cbn -[rust_port_send]. rewrite Hport.
      cbn -[rust_port_send]. rewrite HP. cbn -[rust_port_send].
      lazymatch goal with
      | |- context [rust_port_send p sptr ?W] => set (w1 := W)
      end.
      destruct (rust_port_send_returns w1 p sptr
                  (set_port_ref_count (port_ref_count P + 1) P))
        as (w2 & tail & Hsend & Hframe & Htr & Htail).
      { unfold w1. cbn. apply lookup_insert_eq. }
      { by apply owner_ready_bump. }
      rewrite Hsend.
      destruct Hframe as (Hk & Htasks & Hports).
      destruct (Hports p (set_port_ref_count (port_ref_count P + 1) P))
        as (P2 & HP2 & Hprc2 & Hpid2 & Hptask2).
      { unfold w1. cbn. apply lookup_insert_eq. }
      destruct (Htasks target (set_task_ref_count (task_ref_count T + 1) T))
        as (T2 & HT2 & Hrc2 & Hid2 & Hthr2 & Htab2).
      { unfold w1. cbn. apply lookup_insert_eq. }
      cbn in Hprc2, Hrc2. cbn.
      rewrite HP2. cbn. rewrite Hprc2.
      replace (port_ref_count P + 1 - 1) with (port_ref_count P) by lia.
      destruct (decide (port_ref_count P = 0)) as [E|_]; [lia|]. cbn.
      rewrite HT2. cbn. rewrite Hrc2.
      replace (task_ref_count T + 1 - 1) with (task_ref_count T) by lia.
      destruct (decide (task_ref_count T = 0)) as [E|_]; [lia|]. cbn.
      eexists _, _. split; [reflexivity|]. cbn.
      split; [|split].
      * rewrite Htr. unfold w1. cbn. rewrite <- !app_assoc. cbn. reflexivity.
      * rewrite Forall_app. split; [done|]. repeat constructor.
      * split; [exact Hk|]. split.
        -- intros t T0 HT0. cbn.
           destruct (decide (target = t)) as [<-|Hne].
           ++ rewrite lookup_insert_eq. eexists. split; [reflexivity|].
              assert (T0 = T) as -> by congruence.
              cbn in Hid2, Hthr2, Htab2. by repeat split.
           ++ rewrite lookup_insert_ne by done.
              destruct (Htasks t T0) as (T0' & ? & ?); [|by exists T0'].
              unfold w1. cbn. by rewrite lookup_insert_ne.
        -- intros q Q HQ. cbn.
           destruct (decide (p = q)) as [<-|Hne].
           ++ rewrite lookup_insert_eq. eexists. split; [reflexivity|].
              assert (Q = P) as -> by congruence.
              cbn in Hpid2, Hptask2. by repeat split.
           ++ rewrite lookup_insert_ne by done.
              destruct (Hports q Q) as (Q' & ? & ?); [|by exists Q'].
              unfold w1. cbn. by rewrite lookup_insert_ne.
Qed.

End ChanSend.

Lemma world_sel_blocked_ready : @owner_ready x86_64 world_sel_blocked 50.
Proof.
  intros pobj owner Hp Ho Hst. vm_compute in Hp. injection Hp as <-.
  split.
  - vm_compute in Ho. injection Ho as <-. eexists. vm_compute. reflexivity.
  - intros sel Hcond. vm_compute in Ho. injection Ho as <-.
    injection Hcond as <-. exists 8, [50]. exact world_sel_blocked_pending.
Qed.

Lemma chan_id_send_stale_or_sent_witness :
  @chan_id_send x86_64 2 5 (raw_unit [42]) world_sel_blocked =
    Ok (false, world_sel_blocked) /\
  @chan_id_send x86_64 1 6 (raw_unit [42]) world_sel_blocked =
    Ok (false,
        set_trace (trace world_sel_blocked ++ [ev_deref 1])
          world_sel_blocked) /\
  exists w' tail,
    @chan_id_send x86_64 1 5 (raw_unit [42]) world_sel_blocked =
      Ok (true, w') /\
    trace w' =
      trace world_sel_blocked ++ ev_send 50 (raw_unit [42]) :: tail /\
    refs_frame world_sel_blocked w'.
Proof.
  split; [|split].
  - apply (@chan_id_send_stale_or_sent x86_64 world_sel_blocked 2 5).
    vm_compute. reflexivity.
  - destruct (@chan_id_send_stale_or_sent x86_64 world_sel_blocked 1 6
                (raw_unit [42])) as [_ Hres].
    destruct (Hres 1 (select_blocked 1 8 task_1)) as [Hstale _].
    + vm_compute. reflexivity.
    + vm_compute. reflexivity.
    + vm_compute. discriminate.
    + apply Hstale. vm_compute. reflexivity.
  - destruct (@chan_id_send_stale_or_sent x86_64 world_sel_blocked 1 5
                (raw_unit [42])) as [_ Hres].
    destruct (Hres 1 (select_blocked 1 8 task_1)) as [_ Hsent].
    + vm_compute. reflexivity.
    + vm_compute. reflexivity.
    + vm_compute. discriminate.
    + destruct (Hsent 50 port_50) as (w' & tail & Hrun & Htr & _ & Hframe).
      * vm_compute. reflexivity.
      * vm_compute. reflexivity.
      * vm_compute. discriminate.
      * exact world_sel_blocked_ready.
      * exists w', tail. split; [exact Hrun|]. split; [exact Htr|].
        exact Hframe.
Defined.


(** ** Completion messages of the event loop *)

(** C9.  The message that [on_write] sends on the requesting channel
    when a write completes carries [timer_tag], not [wrote_tag]: the
    payload is the [wrote_val] of a write completion, the tag is the one
    of a timer.  On [world_sel], the completion of [write_9] puts the
    message with tag [timer_tag] into the buffer of port 50. *)
Theorem on_write_sends_timer_tag :
  (forall wd,
     @rust_uvtmp_thread_on_write x86_64 wd =
       @uvtmp_send x86_64 (wd_chan wd)
         (iomsg_unit {| tag := timer_tag; val := wrote_val (wd_cd wd) |})) /\
  (forall wd, tag (on_write_msg wd) <> wrote_tag) /\
  exists w',
    @rust_uvtmp_thread_on_write x86_64 write_9 world_sel = Ok (tt, w') /\
    port_buffer <$> ports w' !! 50 =
      Some [iomsg_unit {| tag := timer_tag; val := wrote_val 9 |}].
Proof.
  split; [reflexivity|]. split; [intros wd; discriminate|].
  eexists. split; vm_compute; reflexivity.
Qed.


(** ** Creating a scheduler *)

Section CreateScheduler.
Context `{Platform}.

Lemma create_task_threads_loop_spec (sched : Z) (n : nat) :
  forall (i : nat) (acc : list Z) (w : world),
  Z.of_nat i + Z.of_nat n < size_modulus ->
  exists ths w',
    create_task_threads_loop sched (Z.of_nat i) n acc w =
      Ok (acc ++ ths, w') /\
    length ths = n /\ NoDup ths /\
    (forall th, th ∈ ths -> threads w !! th = None) /\
    (forall (k : nat) th, ths !! k = Some th ->
       threads w' !! th =
         Some (rust_task_thread_new sched (to_int (Z.of_nat (i + k))))) /\
    (forall th, th ∉ ths -> threads w' !! th = threads w !! th) /\
    kernel w' = kernel w /\ tasks w' = tasks w /\ ports w' = ports w /\
    selectors w' = selectors w /\ mem w' = mem w /\ trace w' = trace w.
Proof.
  induction n as [|n IH]; intros i acc w Hi.
  - exists [], w. cbn. unfold ret. rewrite app_nil_r.
    split; [done|]. split; [done|]. split; [constructor|].
    split; [by intros th Hth; apply elem_of_nil in Hth|].
    split; [by intros k th Hk|]. done.
  - cbn [create_task_threads_loop].
    unfold rust_scheduler_create_task_thread. rt_unfold.
    cbn -[create_task_threads_loop].
    set (th0 := fresh (dom (threads w))).
    assert (Hfresh : threads w !! th0 = None).
    { apply not_elem_of_dom. apply is_fresh. }
    set (w1 := set_threads _ w).
    replace (size_add (Z.of_nat i) 1) with (Z.of_nat (S i)).
    2:{ unfold size_add. rewrite size_wrap_small; lia. }
    destruct (IH (S i) (acc ++ [th0]) w1) as
      (ths & w' & Hrun & Hlen & Hnd & Hnew & Hlook & Hold & Hrest); [lia|].
    assert (Hth0 : th0 ∉ ths).
    { intros Hin. specialize (Hnew th0 Hin). unfold w1 in Hnew. cbn in Hnew.
      by rewrite lookup_insert_eq in Hnew. }
    exists (th0 :: ths), w'. rewrite Hrun, <- app_assoc.
    split; [done|]. split; [cbn; lia|]. split; [by constructor|].
    split; [|split; [|split]].
    + intros th Hth. apply elem_of_cons in Hth as [->|Hth]; [done|].
      specialize (Hnew th Hth). unfold w1 in Hnew. cbn in Hnew.
      rewrite lookup_insert_ne in Hnew; [done|].
      intros <-. done.
    + intros [|k] th Hk.
      * cbn in Hk. injection Hk as <-. rewrite (Hold th0 Hth0).
        unfold w1. cbn. rewrite lookup_insert_eq. by rewrite Nat.add_0_r.
      * cbn in Hk. rewrite (Hlook k th Hk). do 4 f_equal. lia.
    + intros th Hth. apply not_elem_of_cons in Hth as [Hne Hth].
      rewrite (Hold th Hth). unfold w1. cbn. by rewrite lookup_insert_ne.
    + exact Hrest.
Qed.


(** C7.  A zero thread count fails: [create_scheduler] reports
    [InvalidArg] and changes nothing, and the builtin [rust_new_sched]
    refuses it before that, by its own check of [threads > 0].  For every
    thread count [N >= 1], on a kernel whose registered ids are below
    its allocator, [create_scheduler], and [rust_new_sched] with it,
    takes the id [max_sched_id], which is not registered, advances the
    allocator, constructs a scheduler with [N] new worker objects
    numbered from 0, registers it under the id and returns the id;
    nothing else changes. *)
Theorem create_scheduler_registers (w : world) :
  rust_kernel_create_scheduler 0 w = Ok (inl InvalidArg, w) /\
  rust_new_sched 0 w =
    Fatal "Can't create a scheduler with no threads, silly!" /\
  (forall N,
     1 <= N < size_modulus ->
     sched_ids_below w ->
     let id := max_sched_id (kernel w) in
     exists w' s,
       rust_kernel_create_scheduler N w = Ok (inr id, w') /\
       rust_new_sched N w = Ok (inr id, w') /\
       sched_table (kernel w) !! id = None /\
       sched_table (kernel w') = <[id := s]> (sched_table (kernel w)) /\
       max_sched_id (kernel w') = id + 1 /\
       sched_ids_below w' /\
       sched_wf w' id s /\
       sched_id s = id /\ num_threads s = N /\ live_threads s = N /\
       live_tasks s = 0 /\ cur_thread s = 0 /\
       (forall (k : nat) th,
          sched_threads s !! k = Some th ->
          threads w !! th = None /\
          threads w' !! th =
            Some (rust_task_thread_new id (to_int (Z.of_nat k)))) /\
       (forall th, th ∉ sched_threads s ->
                   threads w' !! th = threads w !! th) /\
       task_table (kernel w') = task_table (kernel w) /\
       max_task_id (kernel w') = max_task_id (kernel w) /\
       tasks w' = tasks w /\ ports w' = ports w /\
       selectors w' = selectors w /\ mem w' = mem w /\ trace w' = trace w).
Proof.
  split; [reflexivity|]. split; [reflexivity|].
  intros N HN Hbelow id.
  assert (Hfresh : sched_table (kernel w) !! id = None).
  { destruct (sched_table (kernel w) !! id) eqn:E; [|done].
    assert (id < max_sched_id (kernel w)) by (apply Hbelow; eauto).
    unfold id in *. lia. }
  set (w0 := set_kernel (set_max_sched_id (id + 1) (kernel w)) w).
  destruct (create_task_threads_loop_spec id (Z.to_nat N) 0%nat [] w0)
    as (ths & w1 & Hrun & Hlen & Hnd & Hnew & Hlook & Hold & Hk & Htasks &
        Hports & Hsels & Hmem & Htrace); [lia|].
  change (Z.of_nat 0) with 0 in Hrun. cbn [app] in Hrun.
  set (s := {| live_threads := N; live_tasks := 0; num_threads := N;
               cur_thread := 0; sched_id := id; sched_threads := ths |}).
  set (w' := set_kernel (set_sched_table (<[id := s]> (sched_table (kernel w1)))
                           (kernel w1)) w1).
  assert (Hcreate : rust_kernel_create_scheduler N w = Ok (inr id, w')).
  { unfold rust_kernel_create_scheduler, rust_scheduler_new,
      rust_scheduler_create_task_threads.
    destruct (decide (N = 0)) as [E|_]; [lia|].
    rt_unfold. cbn -[create_task_threads_loop].
    fold id. fold w0. rewrite Hrun. reflexivity. }
  exists w', s. split; [exact Hcreate|]. split.
  { unfold rust_new_sched, assert_A. rewrite bool_decide_eq_true_2 by lia.
    unfold bind at 1. unfold ret at 1. exact Hcreate. }
  split; [exact Hfresh|].
  split; [unfold w'; cbn; by rewrite Hk|].
  split; [unfold w'; cbn; by rewrite Hk|].
  split.
  { intros id' [s' Hs']. unfold w' in *. cbn in *. rewrite Hk in *. cbn in *.
    destruct (decide (id = id')) as [<-|Hne]; [lia|].
    rewrite lookup_insert_ne in Hs' by done.
    assert (id' < max_sched_id (kernel w)) by (apply Hbelow; eauto).
    unfold id. lia. }
  split.
  { unfold sched_wf. split; [unfold w'; cbn; apply lookup_insert_eq|].
    cbn. split; [done|]. split; [lia|].
    split; [pose proof size_modulus_gt_1; lia|].
    split; [lia|]. split; [done|].
    apply Forall_forall. intros th Hth.
    apply list_elem_of_lookup in Hth as [k Hk'].
    rewrite (Hlook k th Hk'). eauto. }
  split; [done|]. split; [done|]. split; [done|]. split; [done|].
  split; [done|].
  split.
  { intros k th Hk'. split.
    - assert (Hin : th ∈ ths) by (by eapply list_elem_of_lookup_2).
      exact (Hnew th Hin).
    - exact (Hlook k th Hk'). }
  split; [exact Hold|].
  unfold w'. cbn. rewrite Hk. cbn. done.
Qed.

End CreateScheduler.

Lemma create_scheduler_registers_witness :
  exists w' s,
    @rust_new_sched x86_64 3 empty_world = Ok (inr 0, w') /\
    sched_table (kernel w') = {[ 0 := s ]} /\
    num_threads s = 3 /\ length (sched_threads s) = 3%nat.
Proof.
  destruct (@create_scheduler_registers x86_64 empty_world) as (_ & _ & Hpos).
  destruct (Hpos 3) as (w' & s & _ & Hrun & _ & Htab & _ & _ & Hwf & _ & Hn & _).
  - vm_compute. split; [discriminate|reflexivity].
  - intros id [s Hs]. cbn in Hs. by rewrite lookup_empty in Hs.
  - exists w', s. split; [exact Hrun|]. split; [exact Htab|].
    split; [exact Hn|].
    destruct Hwf as (_ & _ & _ & _ & Hlen & _). rewrite Hn in Hlen. lia.
Defined.


(** ** The worker reaps each dead task once *)

Section SafeRules.
Context `{Platform}.




Lemma safe_gets {A} (P : world -> Prop) (f : world -> A) :
  safe P (gets f) (fun a w => P w /\ a = f w).
Proof. intros w Hw. cbn. done. Qed.



Lemma safe_assert_I (P : world -> Prop) (b : bool) text :
  ~ loop_assertion text ->
  safe P (assert_I b text) (fun _ w => P w /\ b = true).
Proof. intros Ht w Hw. unfold assert_I. destruct b; cbn; done. Qed.



End SafeRules.

Section Quiet.
Context `{Platform}.
Context (th : Z).

Lemma quiet_intro (w w' : world) :
  threads_keep th (threads w) (threads w') ->
  max_task_id (kernel w') = max_task_id (kernel w) ->
  reap_log w' = reap_log w ->
  tasks_keep (tasks w) (tasks w') ->
  quiet th w w'.
Proof. intros Hth Hk Hlog [Ht1 Ht2]. by repeat split. Qed.

Lemma threads_keep_refl m : threads_keep th m m.
Proof. intros thr Hthr. by exists thr. Qed.


Lemma tasks_keep_refl m : tasks_keep m m.
Proof.
  split.
  - intros t T HT. by exists T.
  - intros t T HT Hd. by exists T.
Qed.



Global Instance quiet_preorder : PreOrder (quiet th).
Proof.
  split.
  - intros w. apply quiet_intro; try done.
    + apply threads_keep_refl.
    + apply tasks_keep_refl.
  - intros w1 w2 w3 (Ht & Hk & Hl & Ha & Hd) (Ht' & Hk' & Hl' & Ha' & Hd').
    split; [|split; [|split; [|split]]].
    + intros thr Hthr. destruct (Ht thr Hthr) as (thr1 & H1 & E1).
      destruct (Ht' thr1 H1) as (thr2 & H2 & E2).
      exists thr2. split; [done|]. congruence.
    + congruence.
    + congruence.
    + intros t T3 HT3. destruct (Ha' t T3 HT3) as (T2 & HT2 & E2).
      destruct (Ha t T2 HT2) as (T1 & HT1 & E1).
      exists T1. split; [done|]. congruence.
    + intros t T1 HT1 Hdead. destruct (Hd t T1 HT1 Hdead) as (T2 & HT2 & E2).
      exact (Hd' t T2 HT2 E2).
Qed.












End Quiet.



Section CalmOps.
Context `{Platform}.
Context (th : Z).














End CalmOps.

Section LoopInvariant.
Context `{Platform}.
Context (th : Z).



























End LoopInvariant.



(** ** The scan of [select] at the top of [size_t] *)

Section ScanWrap.
Context `{Platform}.

Lemma select_index_at_max (n i : Z) :
  1 <= i < size_modulus ->
  select_index i (size_modulus - 1) n = (i - 1) mod n.
Proof.
  intros Hi. unfold select_index, size_add, size_wrap.
  replace (i + (size_modulus - 1)) with ((i - 1) + 1 * size_modulus) by lia.
  rewrite Z.mod_add by lia.
  rewrite (Z.mod_small (i - 1) size_modulus) by lia. done.
Qed.

Lemma select_index_zero_at_max (n : Z) :
  select_index 0 (size_modulus - 1) n = (size_modulus - 1) mod n.
Proof.
  pose proof size_modulus_gt_1.
  unfold select_index, size_add, size_wrap. rewrite Z.add_0_l.
  rewrite (Z.mod_small (size_modulus - 1) size_modulus) by lia. done.
Qed.

(** X1.  [select] computes [k = (i + j) % n_ports] in [size_t], so the
    sum wraps before it is reduced.  With the random start [j] at
    [SIZE_MAX] and a number of ports that does not divide
    [2 ^ size_bits] (any [n_ports] that is not a power of two), the scan
    is no rotation of the ports: scan positions [0] and [r + 1], for
    [r = SIZE_MAX % n_ports], both look at [ports[r]], and no position
    looks at the last port of the array. *)
Theorem select_scan_misses_last (ports : list Z) (n : Z) :
  2 <= n < size_modulus ->
  size_modulus mod n <> 0 ->
  Z.of_nat (length ports) = n ->
  NoDup ports ->
  let j := size_modulus - 1 in
  let r := j mod n in
  let order := scan_order ports n j in
  0 <= r < n - 1 /\
  select_index 0 j n = r /\
  select_index (r + 1) j n = r /\
  (forall i, 0 <= i < n -> select_index i j n <> n - 1) /\
  order !! 0%nat = order !! Z.to_nat (r + 1) /\
  (forall p, ports !! Z.to_nat (n - 1) = Some p -> p ∉ order).
Proof.
  intros Hn Hmod Hlen Hnd j r order.
  pose proof size_modulus_gt_1 as HM.
  assert (Hr : 0 <= r < n - 1).
  { unfold r, j.
    pose proof (Z.mod_pos_bound size_modulus n ltac:(lia)) as Hs.
    pose proof (Z.div_mod size_modulus n ltac:(lia)) as Hdm.
    assert (E : (size_modulus - 1) mod n = size_modulus mod n - 1).
    { symmetry. apply (Z.mod_unique _ _ (size_modulus / n)); lia. }
    lia. }
  assert (H0 : select_index 0 j n = r) by apply select_index_zero_at_max.
  assert (Hpos : forall i, 1 <= i < n -> select_index i j n = i - 1).
  { intros i Hi. unfold j. rewrite select_index_at_max by lia.
    apply Z.mod_small. lia. }
  assert (Hall : forall i, 0 <= i < n -> select_index i j n <> n - 1).
  { intros i Hi. destruct (decide (i = 0)) as [->|Hne].
    - rewrite H0. lia.
    - rewrite Hpos by lia. lia. }
  split; [exact Hr|]. split; [exact H0|].
  split; [rewrite Hpos by lia; lia|]. split; [exact Hall|]. split.
  - unfold order.
    rewrite (scan_order_lookup ports n j 0) by lia.
    rewrite (scan_order_lookup ports n j (Z.to_nat (r + 1))) by lia.
    rewrite Z2Nat.id by lia. change (Z.of_nat 0) with 0.
    rewrite H0, Hpos by lia. do 2 f_equal. lia.
  - intros p Hp Hin. apply list_elem_of_lookup in Hin as [i Hi].
    pose proof (lookup_lt_Some _ _ _ Hi) as Hlt.
    unfold order in Hi, Hlt. rewrite scan_order_length in Hlt.
    rewrite scan_order_lookup in Hi by lia.
    pose proof (select_index_range (Z.of_nat i) j n ltac:(lia)) as Hrange.
    assert (Z.to_nat (select_index (Z.of_nat i) j n) = Z.to_nat (n - 1)).
    { eapply NoDup_lookup; eauto. }
    apply (Hall (Z.of_nat i)); lia.
Qed.

End ScanWrap.

Lemma select_scan_misses_last_witness :
  @scan_order i686 [50; 51; 52] 3 (2 ^ 32 - 1) !! 0%nat =
    @scan_order i686 [50; 51; 52] 3 (2 ^ 32 - 1) !! 1%nat /\
  52 ∉ @scan_order i686 [50; 51; 52] 3 (2 ^ 32 - 1).
Proof.
  destruct (@select_scan_misses_last i686 [50; 51; 52] 3)
    as (_ & _ & _ & _ & Hdup & Hmiss).
  - vm_compute. split; [discriminate|reflexivity].
  - vm_compute. discriminate.
  - reflexivity.
  - repeat constructor; cbn; intros Hin; elem_inv; discriminate.
  - split; [exact Hdup|]. apply Hmiss. reflexivity.
Defined.

(** The scan on a 32-bit platform with three ports and [j = SIZE_MAX]:
    [ports[0]], [ports[0]], [ports[1]], where a rotation would be the
    three ports.  A select that finds no message takes the lock of port
    50 twice and never looks at port 52. *)
Lemma select_scan_wraps :
  @scan_order i686 [50; 51; 52] 3 (2 ^ 32 - 1) = [50; 50; 51] /\
  map (fun i => [50; 51; 52] !!! Z.to_nat ((i + (2 ^ 32 - 1)) mod 3))
      [0; 1; 2] = [50; 51; 52] /\
  exists w',
    @rust_port_selector_select i686 1 1 8 [50; 51; 52] 3 world_wrap =
      Ok (true, w') /\
    trace w' =
      lock_events [50; 50; 51] ++ [ev_signal (thread_lock 0)] ++
      unlock_events [50; 50; 51].
Proof.
  split; [vm_compute; reflexivity|]. split; [vm_compute; reflexivity|].
  eexists. split; vm_compute; reflexivity.
Qed.

(** ** The uv thread's [send] *)

Section UvSend.
Context `{Platform}.

(** X2.  The [send] of the uv thread, which its author copied from
    [chan_id_send] and feared could bitrot, still is [chan_id_send] with
    the result dropped: in every world both end in the same outcome
    (the same world after a normal return, the same assertion failure,
    the same fault). *)
Theorem uvtmp_send_is_chan_id_send (chan : chan_handle) (data : unit_data)
    (w : world) :
  uvtmp_send chan data w =
    (chan_id_send (chan_task chan) (chan_port chan) data ;; ret tt) w.
Proof.
  unfold uvtmp_send, chan_id_send, bind, ret.
  destruct (rust_kernel_get_task_by_id (chan_task chan) w)
    as [[[target|] w1]|msg|why]; try reflexivity.
  destruct (rust_task_get_port_by_id target (chan_port chan) w1)
    as [[[port|] w2]|msg|why]; try reflexivity.
  - destruct (rust_port_send port data w2) as [[[] w3]|msg|why];
      try reflexivity.
    destruct (lock (task_lock target) w3) as [[[] w4]|msg|why];
      try reflexivity.
    destruct (rust_port_deref port w4) as [[[] w5]|msg|why];
      try reflexivity.
    destruct (unlock (task_lock target) w5) as [[[] w6]|msg|why];
      try reflexivity.
    destruct (rust_task_deref target w6) as [[[] w7]|msg|why];
      reflexivity.
  - destruct (rust_task_deref target w2) as [[[] w7]|msg|why]; reflexivity.
Qed.

End UvSend.

(** ** [schedule_task] *)

Section ScheduleTask.
Context `{Platform}.

(** X3.  [schedule_task] returns NULL and leaves the worker as it is
    when [running_tasks] is empty.  Otherwise it draws one number [k]
    from the worker's generator, which advances by that one draw, and
    returns the running task at index [k % length], [k] taken as a
    [size_t]; nothing else in the world changes, and tasks on the other
    lists are never returned. *)
Theorem schedule_task_picks_running (w : world) (th : Z)
    (thr : rust_task_thread) :
  threads w !! th = Some thr ->
  (running_tasks thr = [] ->
   rust_task_thread_schedule_task th w = Ok (None, w)) /\
  (running_tasks thr <> [] ->
   exists t,
     rust_task_thread_schedule_task th w =
       Ok (Some t,
           set_threads
             (<[th := set_thread_rctx (snd (isaac_rand (thread_rctx thr)))
                        thr]> (threads w)) w) /\
     t ∈ running_tasks thr /\
     running_tasks thr !!
       Z.to_nat (size_wrap (fst (isaac_rand (thread_rctx thr))) mod
                 Z.of_nat (length (running_tasks thr))) = Some t).
Proof.
  intros Hthr. split.
  - intros Hnil. unfold rust_task_thread_schedule_task. rt_unfold.
    rewrite Hthr, Hnil. reflexivity.
  - intros Hne. unfold rust_task_thread_schedule_task. rt_unfold.
    rewrite Hthr.
    assert (Hlen : Z.of_nat (length (running_tasks thr)) > 0).
    { destruct (running_tasks thr); [done|cbn; lia]. }
    destruct (decide _) as [_|E]; [|lia].
    destruct (isaac_rand (thread_rctx thr)) as [r rctx'] eqn:Hr. cbn.
    assert (Hk : size_add 0 (size_wrap r) = size_wrap r).
    { unfold size_add. rewrite Z.add_0_l. unfold size_wrap.
      apply Z.mod_mod. pose proof size_modulus_gt_1. lia. }
    rewrite Hk.
    pose proof (Z.mod_pos_bound (size_wrap r)
                  (Z.of_nat (length (running_tasks thr))) ltac:(lia)) as Hi.
    destruct (running_tasks thr !! _) as [t|] eqn:Ht.
    + exists t. split; [reflexivity|]. split; [|done].
      by eapply list_elem_of_lookup_2.
    + apply lookup_ge_None in Ht. lia.
Qed.

End ScheduleTask.

Lemma schedule_task_picks_running_witness :
  exists t w',
    @rust_task_thread_schedule_task x86_64 0 world_kill = Ok (Some t, w') /\
    t ∈ running_tasks thread_kill.
Proof.
  destruct (@schedule_task_picks_running x86_64 world_kill 0 thread_kill)
    as (_ & Hrun); [vm_compute; reflexivity|].
  destruct Hrun as (t & Hrun & Hin & _); [discriminate|].
  exists t. eexists. split; [exact Hrun|exact Hin].
Defined.

(** ** [transition] and the four lists *)

Section Transition.
Context `{Platform}.

Lemma elem_of_all_tasks thr t :
  t ∈ all_tasks thr <-> exists l, t ∈ get_list l thr.
Proof.
  unfold all_tasks. rewrite !elem_of_app. split.
  - intros [Ht|[Ht|[Ht|Ht]]];
      [exists newborn|exists running|exists blocked|exists dead]; done.
  - intros [[] Ht]; cbn in Ht; tauto.
Qed.

Lemma elem_of_remove_task t x l : x ∈ remove_task t l <-> x ∈ l /\ x <> t.
Proof. unfold remove_task. rewrite list_elem_of_filter. tauto. Qed.

Lemma NoDup_remove_task t l : NoDup l -> NoDup (remove_task t l).
Proof. apply NoDup_filter. Qed.

Lemma get_list_moved t src dst thr l :
  get_list l (moved t src dst thr) =
    if decide (l = dst) then
      (if decide (src = dst) then remove_task t (get_list src thr)
       else get_list dst thr) ++ [t]
    else if decide (l = src) then remove_task t (get_list src thr)
    else get_list l thr.
Proof. by destruct src, dst, l. Qed.

Lemma elem_of_get_list_moved t src dst thr l x :
  x ∈ get_list l (moved t src dst thr) <->
  (x = t /\ l = dst) \/ (x <> t /\ x ∈ get_list l thr) \/
  (x = t /\ l <> src /\ l <> dst /\ x ∈ get_list l thr).
Proof.
  rewrite get_list_moved.
  destruct (decide (l = dst)) as [->|Hd].
  - rewrite elem_of_app, list_elem_of_singleton.
    destruct (decide (src = dst)) as [->|Hs].
    + rewrite elem_of_remove_task. destruct (decide (x = t)); tauto.
    + destruct (decide (x = t)); tauto.
  - destruct (decide (l = src)) as [->|Hs].
    + rewrite elem_of_remove_task. tauto.
    + destruct (decide (x = t)); tauto.
Qed.

Lemma NoDup_all_tasks_moved t src dst thr :
  NoDup (all_tasks thr) ->
  (forall l, t ∈ get_list l thr -> l = src) ->
  NoDup (all_tasks (moved t src dst thr)).
Proof.
  unfold all_tasks. intros Hnd Honly.
  assert (Hn : forall l, l <> src -> t ∉ get_list l thr).
  { intros l Hl Hin. by apply Hl, Honly. }
  rewrite !NoDup_app in Hnd.
  destruct Hnd as (Hn1 & Hn2 & Hr1 & Hr2 & Hb1 & Hb2 & Hd1).
  assert (Hsnoc : forall l : list Z, NoDup l -> t ∉ l -> NoDup (l ++ [t])).
  { intros l Hl Ht. apply NoDup_app. split; [done|]. split.
    - intros x Hx Hx'. apply list_elem_of_singleton in Hx'. by subst.
    - apply NoDup_singleton. }
  change (newborn_tasks ?x) with (get_list newborn x).
  change (running_tasks ?x) with (get_list running x).
  change (blocked_tasks ?x) with (get_list blocked x).
  change (dead_tasks ?x) with (get_list dead x).
  change (newborn_tasks ?x) with (get_list newborn x) in *.
  change (running_tasks ?x) with (get_list running x) in *.
  change (blocked_tasks ?x) with (get_list blocked x) in *.
  change (dead_tasks ?x) with (get_list dead x) in *.
  assert (Hnd_l : forall l, NoDup (get_list l (moved t src dst thr))).
  { intros l. rewrite get_list_moved.
    assert (Hl : NoDup (get_list l thr)) by (by destruct l).
    assert (Hs : NoDup (get_list src thr)) by (by destruct src).
    assert (Hdst : NoDup (get_list dst thr)) by (by destruct dst).
    destruct (decide (l = dst)) as [->|Hld].
    - destruct (decide (src = dst)) as [->|Hsd].
      + apply Hsnoc; [by apply NoDup_remove_task|].
        rewrite elem_of_remove_task. tauto.
      + apply Hsnoc; [done|]. apply Hn. congruence.
    - destruct (decide (l = src)) as [->|Hls]; [|done].
      by apply NoDup_remove_task. }
  assert (Hdisj : forall l1 l2 x, l1 <> l2 ->
            x ∈ get_list l1 (moved t src dst thr) ->
            x ∈ get_list l2 (moved t src dst thr) -> False).
  { intros l1 l2 x Hne H1 H2.
    assert (Hold : forall y, y ∈ get_list l1 thr -> y ∈ get_list l2 thr ->
                             False).
    { intros y Hy1 Hy2.
      destruct l1, l2; try done; cbn in Hy1, Hy2;
        first [ apply (Hn2 y Hy1); rewrite !elem_of_app; tauto
              | apply (Hn2 y Hy2); rewrite !elem_of_app; tauto
              | apply (Hr2 y Hy1); rewrite !elem_of_app; tauto
              | apply (Hr2 y Hy2); rewrite !elem_of_app; tauto
              | apply (Hb2 y Hy1); tauto
              | apply (Hb2 y Hy2); tauto ]. }
    apply elem_of_get_list_moved in H1, H2.
    destruct H1 as [[-> ->]|[[Hx1 H1]|(-> & Hs1 & Hd1' & H1)]];
      destruct H2 as [[E2 ->]|[[Hx2 H2]|(E2 & Hs2 & Hd2' & H2)]];
      try done; try (by eapply Hold);
      try (by apply (Hn l1)); try (by apply (Hn l2)). }
  rewrite !NoDup_app. repeat split; try apply Hnd_l.
  - intros x Hx Hx'. rewrite !elem_of_app in Hx'.
    destruct Hx' as [Hx'|[Hx'|Hx']].
    + by apply (Hdisj newborn running x).
    + by apply (Hdisj newborn blocked x).
    + by apply (Hdisj newborn dead x).
  - intros x Hx Hx'. rewrite !elem_of_app in Hx'.
    destruct Hx' as [Hx'|Hx'].
    + by apply (Hdisj running blocked x).
    + by apply (Hdisj running dead x).
  - intros x Hx Hx'. by apply (Hdisj blocked dead x).
Qed.

(** X4.  [transition] in a world whose task lists are consistent (no
    task twice on the lists of a worker, every listed task live, owned
    by that worker and in the state of its list).  If the task is not in
    state [src], the call fails on the assertion
    [task->get_state() == src] (this includes a second transition out
    of the same [src]).  If it is, the call returns, the lists are
    consistent again, the task is the last element of [dst] and on no
    other list, every other task is on the lists it was on, and the
    worker's lock is signalled once. *)
Theorem transition_keeps_partition (w : world) (t : Z) (T : rust_task)
    (thr : rust_task_thread) (src dst : task_list) (c : option rust_cond)
    (n : string) :
  lists_consistent w ->
  tasks w !! t = Some T ->
  threads w !! task_thread T = Some thr ->
  (task_state T <> src ->
   rust_task_thread_transition (task_thread T) t src dst c n w =
     Fatal "task->get_state() == src") /\
  (task_state T = src ->
   exists w',
     rust_task_thread_transition (task_thread T) t src dst c n w =
       Ok (tt, w') /\
     lists_consistent w' /\
     tasks w' = <[t := set_state dst c n T]> (tasks w) /\
     threads w' =
       <[task_thread T := moved t src dst thr]> (threads w) /\
     (forall thr', threads w' !! task_thread T = Some thr' ->
        last (get_list dst thr') = Some t /\
        (forall l, t ∈ get_list l thr' <-> l = dst) /\
        (forall l x, x <> t ->
                     (x ∈ get_list l thr' <-> x ∈ get_list l thr))) /\
     trace w' = trace w ++ [ev_signal (thread_lock (task_thread T))]).
Proof.
  intros Hcons HT Hthr. split.
  - intros Hne. unfold rust_task_thread_transition. rt_unfold. cbn.
    rewrite HT. cbn. by rewrite bool_decide_eq_false_2.
  - intros Hst.
    exists (set_trace (trace w ++ [ev_signal (thread_lock (task_thread T))])
              (set_tasks (<[t := set_state dst c n T]> (tasks w))
                 (set_threads
                    (<[task_thread T := moved t src dst thr]> (threads w))
                    w))).
    split.
    { unfold rust_task_thread_transition. rt_unfold. cbn.
      rewrite HT. cbn. rewrite bool_decide_eq_true_2 by done. cbn.
      rewrite Hthr. cbn. rewrite lookup_insert_eq. cbn.
      rewrite insert_insert_eq. reflexivity. }
    cbn [tasks threads trace set_trace set_tasks set_threads].
    destruct (Hcons _ thr Hthr) as [Hnd Hmem].
    assert (Honly : forall l, t ∈ get_list l thr -> l = src).
    { intros l Hl. destruct (Hmem l t Hl) as (T' & HT' & _ & Hst').
      congruence. }
    assert (Hmoved : forall l, t ∈ get_list l (moved t src dst thr) <->
                               l = dst).
    { intros l. rewrite elem_of_get_list_moved. split.
      - intros [[_ ->]|[[Hx _]|(_ & Hs & _ & Hin)]]; try done.
        by apply Honly in Hin.
      - intros ->. by left. }
    split; [|split; [done|split; [done|split; [|done]]]].
    + intros th0 thr0 Hthr0.
      cbn [tasks threads trace set_trace set_tasks set_threads] in *.
      destruct (decide (task_thread T = th0)) as [<-|Hne].
      * rewrite lookup_insert_eq in Hthr0. injection Hthr0 as <-.
        split; [by apply NoDup_all_tasks_moved|].
        intros l x Hx.
        destruct (decide (x = t)) as [->|Hxt].
        -- apply Hmoved in Hx as ->. rewrite lookup_insert_eq.
           eexists. split; [done|]. done.
        -- rewrite lookup_insert_ne by done.
           apply (Hmem l x).
           apply elem_of_get_list_moved in Hx.
           destruct Hx as [[-> _]|[[_ Hx]|(-> & _)]]; done.
      * rewrite lookup_insert_ne in Hthr0 by done.
        destruct (Hcons th0 thr0 Hthr0) as [Hnd0 Hmem0].
        split; [done|]. intros l x Hx.
        destruct (Hmem0 l x Hx) as (T0 & HT0 & Hth0 & Hst0).
        destruct (decide (x = t)) as [->|Hxt].
        -- congruence.
        -- rewrite lookup_insert_ne by done. by exists T0.
    + intros thr'. rewrite lookup_insert_eq. intros [= <-].
      split; [|split].
      * rewrite get_list_moved. rewrite decide_True by done.
        apply last_snoc.
      * exact Hmoved.
      * intros l x Hx. rewrite elem_of_get_list_moved. split.
        -- intros [[-> _]|[[_ Hin]|(-> & _)]]; done.
        -- intros Hin. right. by left.
Qed.

End Transition.

Lemma world_kill_consistent : @lists_consistent x86_64 world_kill.
Proof.
  intros th thr Hthr. unfold world_kill in Hthr. cbn in Hthr.
  apply lookup_singleton_Some in Hthr as [<- <-]. split.
  - apply (bool_decide_unpack _). vm_compute. exact I.
  - intros l t Hin.
    destruct l; cbn in Hin; apply list_elem_of_singleton in Hin as ->;
      eexists; (split; [vm_compute; reflexivity|split; reflexivity]).
Qed.

Lemma transition_keeps_partition_witness :
  exists w',
    @rust_task_thread_transition x86_64 0 11 running blocked
      (Some (cond_port 5)) "blocked" world_kill = Ok (tt, w') /\
    lists_consistent w' /\
    @rust_task_thread_transition x86_64 0 11 running blocked
      (Some (cond_port 5)) "blocked" w' = Fatal "task->get_state() == src".
Proof.
  destruct (@transition_keeps_partition x86_64 world_kill 11
              (mk_task 1 0 running None) thread_kill running blocked
              (Some (cond_port 5)) "blocked" world_kill_consistent)
    as (_ & Hok); [vm_compute; reflexivity|vm_compute; reflexivity|].
  destruct Hok as (w' & Hrun & Hcons & _); [reflexivity|].
  exists w'. split; [exact Hrun|]. split; [exact Hcons|].
  vm_compute in Hrun. injection Hrun as <-. vm_compute. reflexivity.
Defined.

(** ** The last task of a scheduler *)

Section SchedulerExit.
Context `{Platform}.

Lemma told_to_exit_nil m : told_to_exit [] m m.
Proof.
  intros th. split; [intros Hin; by apply elem_of_nil in Hin|done].
Qed.

Lemma exit_loop_spec (ths : list Z) (n : nat) :
  forall (i : nat) (w : world),
  (i + n = length ths)%nat ->
  Z.of_nat (length ths) < size_modulus ->
  NoDup ths ->
  (forall th, th ∈ ths -> is_Some (threads w !! th)) ->
  exists m',
    exit_loop ths (Z.of_nat i) n w =
      Ok (tt, set_trace (trace w ++ exit_events (drop i ths))
                (set_threads m' w)) /\
    told_to_exit (drop i ths) (threads w) m'.
Proof.
  induction n as [|n IH]; intros i w Hlen Hmod Hnd Halive.
  - exists (threads w). rewrite drop_ge by lia. cbn. split.
    + unfold ret. apply Ok_eq; [done|]. apply world_ext; cbn; try done.
      by rewrite app_nil_r.
    + apply told_to_exit_nil.
  - cbn [exit_loop]. rewrite Nat2Z.id.
    destruct (ths !! i) as [th|] eqn:Hth.
    2:{ apply lookup_ge_None in Hth. lia. }
    assert (Hin : th ∈ ths) by (by eapply list_elem_of_lookup_2).
    destruct (Halive th Hin) as [thr Hthr].
    unfold bind at 1.
    assert (Hexit : rust_task_thread_exit th w =
              Ok (tt, set_trace (trace w ++ [ev_lock (thread_lock th);
                                             ev_signal (thread_lock th);
                                             ev_unlock (thread_lock th)])
                        (set_threads
                           (<[th := set_should_exit true thr]> (threads w))
                           w))).
    { unfold rust_task_thread_exit. rt_unfold. cbn. rewrite Hthr. cbn.
      apply Ok_eq; [done|]. apply world_ext; cbn; try done.
      by rewrite <- !app_assoc. }
    rewrite Hexit.
    replace (size_add (Z.of_nat i) 1) with (Z.of_nat (S i)).
    2:{ unfold size_add. rewrite size_wrap_small; lia. }
    match goal with
    | |- context [exit_loop _ _ _ ?W] =>
        destruct (IH (S i) W) as (m' & Hrun & Htold); [lia|done|done| |]
    end.
    { intros th' Hin'. cbn.
      destruct (decide (th = th')) as [<-|Hne].
      - rewrite lookup_insert_eq. eauto.
      - rewrite lookup_insert_ne by done. by apply Halive. }
    rewrite Hrun. exists m'. split.
    + apply Ok_eq; [done|]. apply world_ext; cbn; try done.
      rewrite (drop_S _ th i Hth). cbn. by rewrite <- !app_assoc.
    + rewrite (drop_S _ th i Hth). intros th'. cbn in Htold.
      destruct (Htold th') as [Hin' Hout'].
      assert (Hfresh : th ∉ drop (S i) ths).
      { intros Hd. apply list_elem_of_lookup in Hd as [k Hk].
        rewrite lookup_drop in Hk.
        pose proof (NoDup_lookup _ _ _ _ Hnd Hth Hk). lia. }
      split.
      * intros Hcons. apply elem_of_cons in Hcons as [->|Hd].
        -- exists thr. split; [done|].
           rewrite (proj2 (Htold th) Hfresh). apply lookup_insert_eq.
        -- destruct (Hin' Hd) as (thr' & H1 & H2).
           assert (th <> th') by (intros ->; done).
           rewrite lookup_insert_ne in H1 by done. by exists thr'.
      * intros Hcons. apply not_elem_of_cons in Hcons as [Hne Hd].
        rewrite (Hout' Hd). by rewrite lookup_insert_ne.
Qed.

(** X5.  [rust_scheduler::release_task] decrements [live_tasks] in
    [size_t] under the scheduler's lock.  When the count reaches zero,
    every worker of the scheduler is told to exit, in the order of the
    vector, and no other worker is touched; otherwise no worker is
    touched.  Releasing with [live_tasks = 0] wraps the count to
    [SIZE_MAX] and tells no worker to exit.  Tasks, ports, selectors
    and memory are as before in either case. *)
Theorem release_task_last_exits (w : world) (sched : Z) (s : rust_scheduler) :
  sched_wf w sched s ->
  let n := size_sub (live_tasks s) 1 in
  let leave := bool_decide (n = 0) in
  exists w',
    rust_scheduler_release_task sched w = Ok (tt, w') /\
    sched_table (kernel w') =
      <[sched := set_live_tasks n s]> (sched_table (kernel w)) /\
    (1 <= live_tasks s -> n = live_tasks s - 1) /\
    (live_tasks s = 0 -> n = size_modulus - 1) /\
    (leave = true ->
     told_to_exit (sched_threads s) (threads w) (threads w') /\
     trace w' =
       trace w ++ [ev_lock (sched_lock sched); ev_unlock (sched_lock sched)] ++
       exit_events (sched_threads s)) /\
    (leave = false ->
     threads w' = threads w /\
     trace w' =
       trace w ++ [ev_lock (sched_lock sched); ev_unlock (sched_lock sched)]) /\
    tasks w' = tasks w /\ ports w' = ports w /\
    selectors w' = selectors w /\ mem w' = mem w.
Proof.
  intros (Hs & HN & Hcur & Hlive & Hlen & Hnd & Halive) n leave.
  set (w1 := set_trace
               ((trace w ++ [ev_lock (sched_lock sched)]) ++
                [ev_unlock (sched_lock sched)])
               (set_kernel
                  (set_sched_table
                     (<[sched := set_live_tasks n s]> (sched_table (kernel w)))
                     (kernel w))
                  (set_trace (trace w ++ [ev_lock (sched_lock sched)]) w))).
  assert (Hrun : rust_scheduler_release_task sched w =
                 (if leave then rust_scheduler_exit sched else ret tt) w1).
  { unfold rust_scheduler_release_task. rt_unfold.
    cbn -[rust_scheduler_exit]. rewrite Hs. reflexivity. }
  assert (Hn1 : 1 <= live_tasks s -> n = live_tasks s - 1).
  { intros Hge. unfold n, size_sub. apply size_wrap_small. lia. }
  assert (Hn0 : live_tasks s = 0 -> n = size_modulus - 1).
  { intros E. unfold n, size_sub, size_wrap. rewrite E.
    pose proof size_modulus_gt_1. change (0 - 1) with (-1).
    rewrite <- (Z.mod_add (-1) 1 size_modulus) by lia.
    rewrite Z.mod_small by lia. lia. }
  destruct leave eqn:Hleave.
  - assert (Hexit : exists m',
              rust_scheduler_exit sched w1 =
                Ok (tt, set_trace (trace w1 ++ exit_events (sched_threads s))
                          (set_threads m' w1)) /\
              told_to_exit (sched_threads s) (threads w) m').
    { unfold rust_scheduler_exit. rt_unfold. unfold w1 at 1. cbn -[w1].
      rewrite lookup_insert_eq. cbn -[w1].
      rewrite <- Hlen, Nat2Z.id.
      destruct (exit_loop_spec (sched_threads s) (length (sched_threads s))
                  0%nat w1) as (m' & Hloop & Htold).
      { done. }
      { lia. }
      { done. }
      { apply Forall_forall. exact Halive. }
      change (Z.of_nat 0) with 0 in Hloop. rewrite drop_0 in Hloop, Htold.
      exists m'. split; [exact Hloop|exact Htold]. }
    destruct Hexit as (m' & Hexit & Htold).
    eexists. split; [rewrite Hrun; exact Hexit|]. cbn.
    split; [done|]. split; [done|]. split; [done|].
    split; [intros _; split; [done|by rewrite <- !app_assoc]|].
    split; [done|]. done.
  - eexists. split; [rewrite Hrun; reflexivity|]. cbn.
    split; [done|]. split; [done|]. split; [done|].
    split; [done|]. split; [intros _; split; [done|by rewrite <- !app_assoc]|].
    done.
Qed.

End SchedulerExit.

Lemma world3_task_wf : @sched_wf x86_64 world3_task 0 sched3_task.
Proof.
  unfold sched_wf. split; [vm_compute; reflexivity|].
  split; [vm_compute; split; congruence|].
  split; [vm_compute; split; congruence|].
  split; [vm_compute; split; congruence|].
  split; [reflexivity|].
  split; [apply (bool_decide_unpack _); vm_compute; exact I|].
  repeat constructor; eexists; vm_compute; reflexivity.
Qed.

Lemma release_task_last_exits_witness :
  exists w',
    @rust_scheduler_release_task x86_64 0 world3_task = Ok (tt, w') /\
    told_to_exit [0; 1; 2] (threads world3_task) (threads w') /\
    tasks w' = tasks world3_task.
Proof.
  destruct (@release_task_last_exits x86_64 world3_task 0 sched3_task
              world3_task_wf)
    as (w' & Hrun & _ & _ & _ & Hexit & _ & Htasks & _).
  exists w'. split; [exact Hrun|]. split; [|exact Htasks].
  apply Hexit. vm_compute. reflexivity.
Defined.

(** ** A worker that is told to exit *)

Section WorkerExit.
Context `{Platform}.

Lemma main_loop_should_exit (w : world) th thr scripts :
  threads w !! th = Some thr -> should_exit thr = true ->
  main_loop th scripts w = Ok (true, w).
Proof.
  intros Hthr Hexit. destruct scripts as [|script scripts];
    cbn [main_loop]; rt_unfold; rewrite Hthr; cbn; by rewrite Hexit.
Qed.

(** X6.  [rust_task_thread::exit] sets [should_exit] and returns.  A
    worker that is then run leaves its loop without running any task:
    if one of its lists still holds a task, [start_main_loop] fails on
    the assertion for the first non-empty list (newborn, running,
    blocked, dead, in this order); with all four empty, the loop is
    left at once whatever the tasks would have done, and [run] goes on
    to decrement [live_threads] of the worker's scheduler, which is
    removed from the kernel's table exactly when the count reaches
    zero. *)
Theorem worker_leaves_after_exit (w : world) (th : Z)
    (thr : rust_task_thread) (scripts : list (list action)) :
  threads w !! th = Some thr ->
  let w1 := world_of (rust_task_thread_exit th w) in
  rust_task_thread_exit th w = Ok (tt, w1) /\
  threads w1 = <[th := set_should_exit true thr]> (threads w) /\
  (newborn_tasks thr <> [] ->
   rust_task_thread_start_main_loop th scripts w1 =
     Fatal "Should have no newborn tasks") /\
  (newborn_tasks thr = [] -> running_tasks thr <> [] ->
   rust_task_thread_start_main_loop th scripts w1 =
     Fatal "Should have no running tasks") /\
  (newborn_tasks thr = [] -> running_tasks thr = [] ->
   blocked_tasks thr <> [] ->
   rust_task_thread_start_main_loop th scripts w1 =
     Fatal "Should have no blocked tasks") /\
  (newborn_tasks thr = [] -> running_tasks thr = [] ->
   blocked_tasks thr = [] -> dead_tasks thr <> [] ->
   rust_task_thread_start_main_loop th scripts w1 =
     Fatal "Should have no dead tasks") /\
  (all_tasks thr = [] ->
   rust_task_thread_start_main_loop th scripts w1 =
     Ok (true, set_trace (trace w1 ++ [ev_lock (thread_lock th);
                                       ev_unlock (thread_lock th)]) w1) /\
   forall s,
     sched_table (kernel w) !! thread_sched thr = Some s ->
     exists w2,
       rust_task_thread_run th scripts w1 = Ok (true, w2) /\
       tasks w2 = tasks w /\ threads w2 = threads w1 /\
       (size_sub (live_threads s) 1 = 0 ->
        sched_table (kernel w2) =
          delete (sched_id s)
            (<[thread_sched thr := set_live_threads 0 s]>
               (sched_table (kernel w)))) /\
       (size_sub (live_threads s) 1 <> 0 ->
        sched_table (kernel w2) =
          <[thread_sched thr :=
              set_live_threads (size_sub (live_threads s) 1) s]>
            (sched_table (kernel w)))).
Proof.
  intros Hthr w1.
  assert (Hexit : rust_task_thread_exit th w =
            Ok (tt, set_trace (trace w ++ [ev_lock (thread_lock th);
                                           ev_signal (thread_lock th);
                                           ev_unlock (thread_lock th)])
                      (set_threads
                         (<[th := set_should_exit true thr]> (threads w))
                         w))).
  { unfold rust_task_thread_exit. rt_unfold. cbn. rewrite Hthr. cbn.
    apply Ok_eq; [done|]. apply world_ext; cbn; try done.
    by rewrite <- !app_assoc. }
  assert (Hw1 : w1 = set_trace (trace w ++ [ev_lock (thread_lock th);
                                           ev_signal (thread_lock th);
                                           ev_unlock (thread_lock th)])
                      (set_threads
                         (<[th := set_should_exit true thr]> (threads w))
                         w)).
  { unfold w1. by rewrite Hexit. }
  clearbody w1. subst w1.
  set (w1 := set_trace _ _).
  assert (Hthr1 : threads w1 !! th = Some (set_should_exit true thr)).
  { unfold w1. cbn. apply lookup_insert_eq. }
  set (w1' := set_trace (trace w1 ++ [ev_lock (thread_lock th)]) w1).
  assert (Hloop : main_loop th scripts w1' = Ok (true, w1')).
  { by apply (main_loop_should_exit w1' th (set_should_exit true thr)). }
  assert (Hstart : forall k : bool -> M bool,
            (do left <- (lock (thread_lock th) ;; main_loop th scripts);
             k left) w1 = k true w1').
  { intros k. unfold bind at 1. unfold bind at 1.
    unfold lock at 1, emit, modify. fold w1'. by rewrite Hloop. }
  split; [exact Hexit|]. split; [done|].
  assert (Hrun : rust_task_thread_start_main_loop th scripts w1 =
    (do thr <- load_thread th;
     assert_A (bool_decide (newborn_tasks thr = []))
       "Should have no newborn tasks" ;;
     assert_A (bool_decide (running_tasks thr = []))
       "Should have no running tasks" ;;
     assert_A (bool_decide (blocked_tasks thr = []))
       "Should have no blocked tasks" ;;
     assert_A (bool_decide (dead_tasks thr = []))
       "Should have no dead tasks" ;;
     unlock (thread_lock th) ;;
     ret true) w1').
  { unfold rust_task_thread_start_main_loop. unfold bind at 1.
    unfold lock at 1, emit, modify. fold w1'.
    unfold bind at 1. by rewrite Hloop. }
  assert (Hthr1' : threads w1' !! th = Some (set_should_exit true thr)).
  { exact Hthr1. }
  split; [|split; [|split; [|split]]].
  - intros Hn. rewrite Hrun. rt_unfold. rewrite Hthr1'. cbn.
    rewrite (bool_decide_eq_false_2 (newborn_tasks thr = [])) by done.
    reflexivity.
  - intros Hn Hr. rewrite Hrun. rt_unfold. rewrite Hthr1'. cbn.
    rewrite (bool_decide_eq_true_2 (newborn_tasks thr = [])) by done. cbn.
    rewrite (bool_decide_eq_false_2 (running_tasks thr = [])) by done.
    reflexivity.
  - intros Hn Hr Hb. rewrite Hrun. rt_unfold. rewrite Hthr1'. cbn.
    rewrite (bool_decide_eq_true_2 (newborn_tasks thr = [])) by done. cbn.
    rewrite (bool_decide_eq_true_2 (running_tasks thr = [])) by done. cbn.
    rewrite (bool_decide_eq_false_2 (blocked_tasks thr = [])) by done.
    reflexivity.
  - intros Hn Hr Hb Hd. rewrite Hrun. rt_unfold. rewrite Hthr1'. cbn.
    rewrite (bool_decide_eq_true_2 (newborn_tasks thr = [])) by done. cbn.
    rewrite (bool_decide_eq_true_2 (running_tasks thr = [])) by done. cbn.
    rewrite (bool_decide_eq_true_2 (blocked_tasks thr = [])) by done. cbn.
    rewrite (bool_decide_eq_false_2 (dead_tasks thr = [])) by done.
    reflexivity.
  - intros Hall. unfold all_tasks in Hall.
    apply app_eq_nil in Hall as [Hn Hall].
    apply app_eq_nil in Hall as [Hr Hall].
    apply app_eq_nil in Hall as [Hb Hd].
    assert (Hleft : rust_task_thread_start_main_loop th scripts w1 =
              Ok (true, set_trace (trace w1 ++ [ev_lock (thread_lock th);
                                                ev_unlock (thread_lock th)])
                          w1)).
    { rewrite Hrun. rt_unfold. rewrite Hthr1'. cbn.
      rewrite (bool_decide_eq_true_2 (newborn_tasks thr = [])) by done. cbn.
      rewrite (bool_decide_eq_true_2 (running_tasks thr = [])) by done. cbn.
      rewrite (bool_decide_eq_true_2 (blocked_tasks thr = [])) by done. cbn.
      rewrite (bool_decide_eq_true_2 (dead_tasks thr = [])) by done. cbn.
      apply Ok_eq; [done|]. apply world_ext; cbn; try done.
      by rewrite <- !app_assoc. }
    split; [exact Hleft|]. intros s Hs.
    set (w3 := set_trace _ w1) in Hleft.
    destruct (release_task_thread_spec w3 (thread_sched thr) s Hs)
      as (w2 & Hrel & Htr2 & Htab2).
    assert (Hframe : tasks w2 = tasks w3 /\ threads w2 = threads w3).
    { revert Hrel. unfold rust_scheduler_release_task_thread,
        rust_kernel_release_scheduler_id. rt_unfold. cbn. rewrite Hs. cbn.
      case_decide; cbn; intros [= <-]; done. }
    exists w2. split.
    { unfold rust_task_thread_run. unfold bind at 1. rewrite Hleft.
      unfold bind at 1. unfold load_thread, deref_ptr.
      change (threads w3 !! th) with (threads w1 !! th). rewrite Hthr1.
      change (thread_sched (set_should_exit true thr)) with (thread_sched thr).
      unfold bind, ret. by rewrite Hrel. }
    split; [apply Hframe|]. split; [apply Hframe|].
    change (sched_table (kernel w3)) with (sched_table (kernel w)) in Htab2.
    split; intros E.
    + rewrite Htab2. rewrite decide_True by done. by rewrite E.
    + rewrite Htab2. by rewrite decide_False.
Qed.

End WorkerExit.

Lemma worker_leaves_after_exit_witness :
  exists w2,
    @rust_task_thread_run x86_64 0 [[act_create 0; act_start 0]]
      (world_of (@rust_task_thread_exit x86_64 0 world3)) = Ok (true, w2) /\
    tasks w2 = tasks world3 /\
    sched_table (kernel w2) =
      <[0 := set_live_threads (@size_sub x86_64 3 1) sched3]>
        (sched_table (kernel world3)).
Proof.
  destruct (@worker_leaves_after_exit x86_64 world3 0
              (@rust_task_thread_new x86_64 0 0)
              [[act_create 0; act_start 0]])
    as (_ & _ & _ & _ & _ & _ & Hleave); [vm_compute; reflexivity|].
  destruct Hleave as (_ & Hrun); [reflexivity|].
  destruct (Hrun sched3) as (w2 & Hw2 & Htasks & _ & _ & Hkeep);
    [vm_compute; reflexivity|].
  exists w2. split; [exact Hw2|]. split; [exact Htasks|].
  apply Hkeep. vm_compute. discriminate.
Defined.

(** ** The requests of the uv thread *)

Section UvRequests.

Lemma to_int_inj (x y : Z) :
  0 <= x < 2 ^ 32 -> 0 <= y < 2 ^ 32 -> to_int x = to_int y -> x = y.
Proof.
  unfold to_int. intros Hx Hy E.
  assert (E' : (x + 2 ^ 31) mod 2 ^ 32 = (y + 2 ^ 31) mod 2 ^ 32) by lia.
  destruct (Z_lt_le_dec x (2 ^ 31)) as [Hx'|Hx'];
    destruct (Z_lt_le_dec y (2 ^ 31)) as [Hy'|Hy'].
  - rewrite !Z.mod_small in E' by lia. lia.
  - rewrite (Z.mod_small (x + 2 ^ 31)) in E' by lia.
    replace (y + 2 ^ 31) with ((y - 2 ^ 31) + 1 * 2 ^ 32) in E' by lia.
    rewrite Z.mod_add, Z.mod_small in E' by lia. lia.
  - rewrite (Z.mod_small (y + 2 ^ 31)) in E' by lia.
    replace (x + 2 ^ 31) with ((x - 2 ^ 31) + 1 * 2 ^ 32) in E' by lia.
    rewrite Z.mod_add, Z.mod_small in E' by lia. lia.
  - replace (y + 2 ^ 31) with ((y - 2 ^ 31) + 1 * 2 ^ 32) in E' by lia.
    replace (x + 2 ^ 31) with ((x - 2 ^ 31) + 1 * 2 ^ 32) in E' by lia.
    rewrite !Z.mod_add, !Z.mod_small in E' by lia. lia.
Qed.

Lemma new_connect_data_fresh (u : rust_uvtmp_thread) :
  new_connect_data u <> 0 /\ cds u !! new_connect_data u = None.
Proof.
  unfold new_connect_data.
  pose proof (is_fresh ({[0]} ∪ dom (cds u))) as Hf.
  split.
  - intros E. apply Hf. rewrite E. set_solver.
  - apply not_elem_of_dom. intros Hin. apply Hf. set_solver.
Qed.

(** X7.  [rust_uvtmp_thread::connect] with a request id that is in use
    returns NULL and changes nothing.  With an unused id it returns a
    new connection, not NULL and at no address in use, registers it
    under the id, queues it with the caller's channel, and leaves the
    other request ids and queues alone; [rust_uvtmp_get_req_id] of the
    new connection is the id, and a second [connect] with the same id
    returns NULL. *)
Theorem connect_registers_once (u : rust_uvtmp_thread) (req_id ip : Z)
    (chan : chan_handle) :
  0 <= req_id < 2 ^ 32 ->
  (is_Some (req_map u !! to_int req_id) ->
   rust_uvtmp_thread_connect req_id ip chan u = (0, u)) /\
  (req_map u !! to_int req_id = None ->
   exists cd u',
     rust_uvtmp_thread_connect req_id ip chan u = (cd, u') /\
     cd <> 0 /\ cds u !! cd = None /\
     req_map u' = <[to_int req_id := cd]> (req_map u) /\
     connect_queue u' = connect_queue u ++ [(cd, chan)] /\
     rust_uvtmp_get_req_id cd u' = Ok req_id /\
     (forall ip' chan',
        rust_uvtmp_thread_connect req_id ip' chan' u' = (0, u')) /\
     (forall other,
        0 <= other < 2 ^ 32 -> other <> req_id ->
        req_map u' !! to_int other = req_map u !! to_int other) /\
     uv_calls u' = uv_calls u /\
     close_connection_queue u' = close_connection_queue u /\
     write_queue u' = write_queue u /\
     read_start_queue u' = read_start_queue u /\
     timer_start_queue u' = timer_start_queue u).
Proof.
  intros Hid. split.
  - intros [cd Hcd]. unfold rust_uvtmp_thread_connect. by rewrite Hcd.
  - intros Hnone. destruct (new_connect_data_fresh u) as [Hnz Hfresh].
    eexists _, _. split.
    { unfold rust_uvtmp_thread_connect. rewrite Hnone. reflexivity. }
    cbn. split; [done|]. split; [done|]. split; [done|]. split; [done|].
    split.
    { unfold rust_uvtmp_get_req_id. cbn. by rewrite lookup_insert_eq. }
    split.
    { intros ip' chan'. unfold rust_uvtmp_thread_connect. cbn.
      by rewrite lookup_insert_eq. }
    split; [|done].
    intros other Ho Hne. apply lookup_insert_ne.
    intros E. apply Hne. symmetry. by apply to_int_inj.
Qed.

(** X8.  [connect] followed by [close_connection] of the same unused
    request id: the request map is as before the two calls, the
    connection is queued both for connecting and for closing, and it is
    still allocated (it is freed only by the close callback).  The id
    can be used again at once: the next [connect] with it returns a
    connection that is neither NULL nor the one just closed. *)
Theorem connect_close_round_trip (u : rust_uvtmp_thread) (req_id ip : Z)
    (chan : chan_handle) :
  req_map u !! to_int req_id = None ->
  let '(cd, u1) := rust_uvtmp_thread_connect req_id ip chan u in
  let u2 := rust_uvtmp_thread_close_connection req_id u1 in
  req_map u2 = req_map u /\
  close_connection_queue u2 = close_connection_queue u ++ [cd] /\
  connect_queue u2 = connect_queue u ++ [(cd, chan)] /\
  cds u2 = cds u1 /\ is_Some (cds u2 !! cd) /\
  forall ip' chan',
    let '(cd', u3) := rust_uvtmp_thread_connect req_id ip' chan' u2 in
    cd' <> 0 /\ cd' <> cd /\
    req_map u3 !! to_int req_id = Some cd' /\
    is_Some (cds u3 !! cd) /\ is_Some (cds u3 !! cd').
Proof.
  intros Hnone. unfold rust_uvtmp_thread_connect at 1. rewrite Hnone.
  cbn zeta.
  set (cd := new_connect_data u).
  set (u1 := set_connect_queue _ _).
  assert (Hu1 : req_map u1 !! to_int req_id = Some cd).
  { unfold u1. cbn. apply lookup_insert_eq. }
  unfold rust_uvtmp_thread_close_connection, req_map_index. rewrite Hu1.
  cbn zeta.
  split.
  { cbn. rewrite delete_insert_eq. by apply delete_id. }
  split; [done|]. split; [done|]. split; [done|].
  split; [cbn; rewrite lookup_insert_eq; eauto|].
  intros ip' chan'.
  set (u2 := set_req_map _ _).
  assert (Hu2 : req_map u2 !! to_int req_id = None).
  { unfold u2. cbn. apply lookup_delete_eq. }
  unfold rust_uvtmp_thread_connect. rewrite Hu2.
  destruct (new_connect_data_fresh u2) as [Hnz Hfresh].
  split; [done|]. split.
  { intros E. rewrite E in Hfresh. unfold u2 in Hfresh. cbn in Hfresh.
    by rewrite lookup_insert_eq in Hfresh. }
  split; [cbn; apply lookup_insert_eq|].
  split.
  - cbn. rewrite lookup_insert_ne.
    + rewrite lookup_insert_eq. eauto.
    + intros E. rewrite E in Hfresh. unfold u2 in Hfresh. cbn in Hfresh.
      by rewrite lookup_insert_eq in Hfresh.
  - cbn. rewrite lookup_insert_eq. eauto.
Qed.

End UvRequests.

Lemma connect_registers_once_witness :
  exists cd u',
    rust_uvtmp_thread_connect 7 8192 chan_1_50 rust_uvtmp_thread_new =
      (cd, u') /\
    cd <> 0 /\
    rust_uvtmp_get_req_id cd u' = Ok 7 /\
    rust_uvtmp_thread_connect 7 8192 chan_1_50 u' = (0, u').
Proof.
  destruct (connect_registers_once rust_uvtmp_thread_new 7 8192 chan_1_50)
    as (_ & Hnew); [lia|].
  destruct Hnew as (cd & u' & Hrun & Hcd & _ & _ & _ & Hid & Hagain & _);
    [reflexivity|].
  exists cd, u'. split; [exact Hrun|]. split; [exact Hcd|].
  split; [exact Hid|apply Hagain].
Defined.

Lemma connect_close_round_trip_witness :
  req_map
    (rust_uvtmp_thread_close_connection 7
       (snd (rust_uvtmp_thread_connect 7 8192 chan_1_50
               rust_uvtmp_thread_new))) =
  req_map rust_uvtmp_thread_new.
Proof.
  generalize (connect_close_round_trip rust_uvtmp_thread_new 7 8192
                chan_1_50 eq_refl).
  destruct (rust_uvtmp_thread_connect 7 8192 chan_1_50
              rust_uvtmp_thread_new) as [cd u1].
  intros (Hmap & _). exact Hmap.
Defined.

(** ** The idle callback of the uv thread *)

Section UvIdle.








Lemma loop_not_fatal_connections this fuel : forall u msg,
  make_new_connections_loop this fuel u <> Fatal msg.
Proof.
  induction fuel as [|fuel IH]; intros u msg; cbn; [done|].
  destruct (connect_queue u) as [|[cd chan] rest]; [done|]. cbn.
  destruct (cds u !! cd); [apply IH|done].
Qed.

Lemma loop_not_fatal_closes fuel : forall u msg,
  close_connections_loop fuel u <> Fatal msg.
Proof.
  induction fuel as [|fuel IH]; intros u msg; cbn; [done|].
  destruct (close_connection_queue u) as [|cd rest]; [done|]. cbn.
  destruct (cds u !! cd); [apply IH|done].
Qed.

Lemma make_new_connections_keeps this fuel : forall u u',
  make_new_connections_loop this fuel u = Ok u' ->
  cds u !! 0 = None ->
  cds u' !! 0 = None /\
  close_connection_queue u' = close_connection_queue u /\
  write_queue u' = write_queue u /\
  read_start_queue u' = read_start_queue u.
Proof.
  induction fuel as [|fuel IH]; intros u u'; cbn.
  - intros [= <-]. done.
  - destruct (connect_queue u) as [|[cd chan] rest]; [intros [= <-]; done|].
    cbn. destruct (cds u !! cd) as [c|] eqn:Hc; [|done].
    intros Hrun Hnull. apply IH in Hrun; [exact Hrun|].
    cbn. rewrite lookup_insert_ne; [done|]. intros ->. congruence.
Qed.

Lemma close_connections_null fuel : forall u,
  cds u !! 0 = None ->
  0 ∈ close_connection_queue u ->
  (length (close_connection_queue u) <= fuel)%nat ->
  exists why, close_connections_loop fuel u = Stuck why.
Proof.
  induction fuel as [|fuel IH]; intros u Hnull Hin Hlen.
  - destruct (close_connection_queue u); [by apply elem_of_nil in Hin|].
    cbn in Hlen. lia.
  - cbn. destruct (close_connection_queue u) as [|cd rest] eqn:Hq;
      [by apply elem_of_nil in Hin|].
    cbn. destruct (cds u !! cd) as [c|] eqn:Hc; [|eauto].
    apply elem_of_cons in Hin as [<-|Hin]; [congruence|].
    apply IH; cbn.
    + rewrite lookup_insert_ne; [done|]. intros ->. congruence.
    + done.
    + cbn in Hlen. lia.
Qed.

Lemma close_connections_keeps fuel : forall u u',
  close_connections_loop fuel u = Ok u' ->
  cds u !! 0 = None ->
  cds u' !! 0 = None /\ write_queue u' = write_queue u /\
  read_start_queue u' = read_start_queue u.
Proof.
  induction fuel as [|fuel IH]; intros u u'; cbn.
  - intros [= <-]. done.
  - destruct (close_connection_queue u) as [|cd rest]; [intros [= <-]; done|].
    cbn. destruct (cds u !! cd) as [c|] eqn:Hc; [|done].
    intros Hrun Hnull. apply IH in Hrun; [exact Hrun|].
    cbn. rewrite lookup_insert_ne; [done|]. intros ->. congruence.
Qed.

Lemma write_buffers_null fuel : forall u,
  cds u !! 0 = None ->
  (exists wd, wd ∈ write_queue u /\ wd_cd wd = 0) ->
  (length (write_queue u) <= fuel)%nat ->
  exists why, write_buffers_loop fuel u = Stuck why.
Proof.
  induction fuel as [|fuel IH]; intros u Hnull (wd & Hin & Hwd) Hlen.
  - destruct (write_queue u); [by apply elem_of_nil in Hin|].
    cbn in Hlen. lia.
  - cbn. destruct (write_queue u) as [|wd' rest] eqn:Hq;
      [by apply elem_of_nil in Hin|].
    cbn. destruct (cds u !! wd_cd wd') as [c|] eqn:Hc; [|eauto].
    apply elem_of_cons in Hin as [<-|Hin]; [congruence|].
    apply IH; cbn; [done|eauto|]. cbn in Hlen. lia.
Qed.

Lemma loop_not_fatal_writes fuel : forall u msg,
  write_buffers_loop fuel u <> Fatal msg.
Proof.
  induction fuel as [|fuel IH]; intros u msg; cbn; [done|].
  destruct (write_queue u) as [|wd rest]; [done|]. cbn.
  destruct (cds u !! wd_cd wd); [apply IH|done].
Qed.

Lemma write_buffers_keeps fuel : forall u u',
  write_buffers_loop fuel u = Ok u' ->
  cds u' = cds u /\ read_start_queue u' = read_start_queue u.
Proof.
  induction fuel as [|fuel IH]; intros u u'; cbn.
  - intros [= <-]. done.
  - destruct (write_queue u) as [|wd rest]; [intros [= <-]; done|].
    cbn. destruct (cds u !! wd_cd wd) as [c|] eqn:Hc; [|done].
    intros Hrun. by apply IH in Hrun.
Qed.

Lemma start_reads_null fuel : forall u,
  cds u !! 0 = None ->
  (exists rd, rd ∈ read_start_queue u /\ rd_cd rd = 0) ->
  (length (read_start_queue u) <= fuel)%nat ->
  exists why, start_reads_loop fuel u = Stuck why.
Proof.
  induction fuel as [|fuel IH]; intros u Hnull (rd & Hin & Hrd) Hlen.
  - destruct (read_start_queue u); [by apply elem_of_nil in Hin|].
    cbn in Hlen. lia.
  - cbn. destruct (read_start_queue u) as [|rd' rest] eqn:Hq;
      [by apply elem_of_nil in Hin|].
    cbn. destruct (cds u !! rd_cd rd') as [c|] eqn:Hc; [|eauto].
    apply elem_of_cons in Hin as [<-|Hin]; [congruence|].
    apply IH; cbn.
    + rewrite lookup_insert_ne; [done|]. intros E. rewrite E in Hc.
      congruence.
    + eauto.
    + cbn in Hlen. lia.
Qed.

(** The idle callback cannot get past a queued request that names the
    NULL connection: closing or reading through it is a store through
    NULL. *)
Lemma on_idle_null_request this u :
  cds u !! 0 = None ->
  0 ∈ close_connection_queue u \/
  (exists rd, rd ∈ read_start_queue u /\ rd_cd rd = 0) ->
  exists why, rust_uvtmp_thread_on_idle this u = Stuck why.
Proof.
  intros Hnull Hreq. unfold rust_uvtmp_thread_on_idle.
  destruct (make_new_connections this u) as [u1|msg|why] eqn:E1; [| |eauto].
  2:{ by apply loop_not_fatal_connections in E1. }
  apply make_new_connections_keeps in E1 as (Hn1 & Hq1 & Hw1 & Hr1); [|done].
  destruct (close_connections u1) as [u2|msg|why] eqn:E2; [| |eauto].
  2:{ by apply loop_not_fatal_closes in E2. }
  destruct Hreq as [Hin|Hin].
  { destruct (close_connections_null (length (close_connection_queue u1)) u1)
      as [why Hwhy]; [done|by rewrite Hq1|done|].
    unfold close_connections in E2. congruence. }
  apply close_connections_keeps in E2 as (Hn2 & Hw2 & Hr2); [|done].
  destruct (write_buffers u2) as [u3|msg|why] eqn:E3; [| |eauto].
  2:{ by apply loop_not_fatal_writes in E3. }
  apply write_buffers_keeps in E3 as (Hn3 & Hr3).
  destruct (start_reads_null (length (read_start_queue u3)) u3)
    as [why Hwhy]; [by rewrite Hn3|by rewrite Hr3, Hr2, Hr1|done|].
  unfold start_reads. rewrite Hwhy. eauto.
Qed.

(** X9.  A request id that is not in the request map.
    [close_connection] queues the NULL connection and leaves the map as
    it was; [read_start] queues a read on the NULL connection; after
    either, the next [on_idle] stores through NULL.  [read_start] and
    [write] moreover leave the id in the map, bound to NULL
    ([operator[]] of [std::map]), so that [connect] with this id
    returns NULL from then on, until [close_connection] erases the
    id. *)
Theorem unknown_request_id_breaks_idle (this : Z) (u : rust_uvtmp_thread)
    (req_id : Z) :
  req_map u !! to_int req_id = None ->
  cds u !! 0 = None ->
  (let u' := rust_uvtmp_thread_close_connection req_id u in
   req_map u' = req_map u /\
   close_connection_queue u' = close_connection_queue u ++ [0] /\
   exists why, rust_uvtmp_thread_on_idle this u' = Stuck why) /\
  (forall chan,
     let u' := rust_uvtmp_thread_read_start req_id chan u in
     req_map u' = <[to_int req_id := 0]> (req_map u) /\
     read_start_queue u' =
       read_start_queue u ++ [{| rd_cd := 0; rd_chan := chan |}] /\
     (forall ip chan', rust_uvtmp_thread_connect req_id ip chan' u' = (0, u')) /\
     exists why, rust_uvtmp_thread_on_idle this u' = Stuck why) /\
  (forall buf len chan,
     let u' := rust_uvtmp_thread_write req_id buf len chan u in
     req_map u' = <[to_int req_id := 0]> (req_map u) /\
     write_queue u' =
       write_queue u ++
       [{| wd_cd := 0; wd_buf := buf; wd_len := len; wd_chan := chan |}] /\
     (forall ip chan', rust_uvtmp_thread_connect req_id ip chan' u' = (0, u')) /\
     req_map (rust_uvtmp_thread_close_connection req_id u') = req_map u).
Proof.
  intros Hnone Hnull. split; [|split].
  - unfold rust_uvtmp_thread_close_connection, req_map_index.
    rewrite Hnone. cbn zeta. split.
    { cbn. rewrite delete_insert_eq. by apply delete_id. }
    split; [done|].
    apply on_idle_null_request; [done|]. left. cbn.
    apply elem_of_app. right. left.
  - intros chan.
    unfold rust_uvtmp_thread_read_start, req_map_index. rewrite Hnone.
    cbn zeta. split; [done|]. split; [done|]. split.
    { intros ip chan'. unfold rust_uvtmp_thread_connect. cbn.
      by rewrite lookup_insert_eq. }
    apply on_idle_null_request; [done|]. right. eexists. split.
    + cbn. apply elem_of_app. right. left.
    + done.
  - intros buf len chan.
    unfold rust_uvtmp_thread_write, req_map_index. rewrite Hnone. cbn zeta.
    split; [done|]. split; [done|]. split.
    { intros ip chan'. unfold rust_uvtmp_thread_connect. cbn.
      by rewrite lookup_insert_eq. }
    unfold rust_uvtmp_thread_close_connection, req_map_index. cbn.
    rewrite lookup_insert_eq. cbn.
    rewrite delete_insert_eq. by apply delete_id.
Qed.

End UvIdle.

Lemma unknown_request_id_breaks_idle_witness :
  (exists why,
     rust_uvtmp_thread_on_idle 1
       (rust_uvtmp_thread_close_connection 7 rust_uvtmp_thread_new) =
     Stuck why) /\
  rust_uvtmp_thread_connect 7 8192 chan_1_50
    (rust_uvtmp_thread_write 7 4096 4 chan_1_50 rust_uvtmp_thread_new) =
  (0, rust_uvtmp_thread_write 7 4096 4 chan_1_50 rust_uvtmp_thread_new).
Proof.
  destruct (unknown_request_id_breaks_idle 1 rust_uvtmp_thread_new 7)
    as ((_ & _ & Hstuck) & _ & Hwrite); [reflexivity|reflexivity|].
  split; [exact Hstuck|].
  destruct (Hwrite 4096 4 chan_1_50) as (_ & _ & Hnull & _). apply Hnull.
Defined.



(** ** The life of a connection *)

Section UvLife.

Lemma on_idle_step (this : Z) (u u1 u2 u3 u4 : rust_uvtmp_thread) :
  make_new_connections this u = Ok u1 ->
  close_connections u1 = Ok u2 ->
  write_buffers u2 = Ok u3 ->
  start_reads u3 = Ok u4 ->
  rust_uvtmp_thread_on_idle this u =
    Ok (close_idle_if_stop (start_timers this u4)).
Proof.
  intros H1 H2 H3 H4. unfold rust_uvtmp_thread_on_idle.
  by rewrite H1, H2, H3, H4.
Qed.

Lemma uv_calls_close_idle (u : rust_uvtmp_thread) :
  uv_calls (close_idle_if_stop u) = uv_calls u ++ stop_calls u.
Proof.
  unfold close_idle_if_stop, stop_calls.
  destruct (stop_flag u); cbn; [done|by rewrite app_nil_r].
Qed.

Lemma on_idle_one_connect (this : Z) (u : rust_uvtmp_thread) cd chan c :
  connect_queue u = [(cd, chan)] -> close_connection_queue u = [] ->
  write_queue u = [] -> read_start_queue u = [] ->
  timer_start_queue u = [] -> cds u !! cd = Some c ->
  rust_uvtmp_thread_on_idle this u =
    Ok (close_idle_if_stop
          (uv_call_made (uv_tcp_connect cd)
             (set_cds (<[cd := set_cd_bound this cd chan c]> (cds u))
                (set_connect_queue [] u)))).
Proof.
  destruct u; cbn. intros -> -> -> -> -> Hcd.
  unfold rust_uvtmp_thread_on_idle, make_new_connections. cbn.
  rewrite Hcd. reflexivity.
Qed.

Lemma on_idle_one_close (this : Z) (u : rust_uvtmp_thread) cd c :
  connect_queue u = [] -> close_connection_queue u = [cd] ->
  write_queue u = [] -> read_start_queue u = [] ->
  timer_start_queue u = [] -> cds u !! cd = Some c ->
  rust_uvtmp_thread_on_idle this u =
    Ok (close_idle_if_stop
          (uv_call_made (uv_close_tcp cd)
             (set_cds (<[cd := set_cd_tcp_data (tcp_cd cd) c]> (cds u))
                (set_close_connection_queue [] u)))).
Proof.
  destruct u; cbn. intros -> -> -> -> -> Hcd.
  unfold rust_uvtmp_thread_on_idle, make_new_connections, close_connections.
  cbn. rewrite Hcd. reflexivity.
Qed.

Lemma on_idle_close_and_read (this : Z) (u : rust_uvtmp_thread) cd c chan :
  connect_queue u = [] -> close_connection_queue u = [cd] ->
  write_queue u = [] ->
  read_start_queue u = [{| rd_cd := cd; rd_chan := chan |}] ->
  timer_start_queue u = [] -> cds u !! cd = Some c ->
  rust_uvtmp_thread_on_idle this u =
    Ok (close_idle_if_stop
          (uv_call_made (uv_read_start cd)
             (set_cds
                (<[cd := set_cd_tcp_data
                           (tcp_rd {| rd_cd := cd; rd_chan := chan |}) c]>
                   (cds u))
                (set_read_start_queue []
                   (uv_call_made (uv_close_tcp cd)
                      (set_close_connection_queue [] u)))))).
Proof.
  destruct u; cbn. intros -> -> -> -> -> Hcd.
  unfold rust_uvtmp_thread_on_idle, make_new_connections, close_connections,
    write_buffers, start_reads.
  cbn. rewrite Hcd. cbn. rewrite lookup_insert_eq. cbn.
  by rewrite insert_insert_eq.
Qed.

Lemma close_idle_if_stop_fields (u : rust_uvtmp_thread) :
  req_map (close_idle_if_stop u) = req_map u /\
  cds (close_idle_if_stop u) = cds u /\
  stop_flag (close_idle_if_stop u) = stop_flag u /\
  connect_queue (close_idle_if_stop u) = connect_queue u /\
  close_connection_queue (close_idle_if_stop u) = close_connection_queue u /\
  write_queue (close_idle_if_stop u) = write_queue u /\
  read_start_queue (close_idle_if_stop u) = read_start_queue u /\
  timer_start_queue (close_idle_if_stop u) = timer_start_queue u.
Proof.
  unfold close_idle_if_stop.
  destruct (stop_flag u) eqn:E; cbn; rewrite ?E; by repeat split.
Qed.

(** X11.  The life of a connection, from a thread with no request
    waiting and an unused request id.  [connect] and the next
    [on_idle] hand the connection to libuv once, bound to this thread
    and to the caller's channel; [close_connection] and the next
    [on_idle] close it once; and when libuv then calls [tcp_close_cb]
    the connection is freed.  After that the set of allocated
    connections and the request map are what they were before
    [connect], and no request is waiting. *)
Theorem connection_lifecycle (this : Z) (u : rust_uvtmp_thread)
    (req_id ip : Z) (chan : chan_handle) :
  req_map u !! to_int req_id = None ->
  queues_empty u ->
  let cd := fst (rust_uvtmp_thread_connect req_id ip chan u) in
  let u1 := snd (rust_uvtmp_thread_connect req_id ip chan u) in
  exists u2 u4 u5,
    rust_uvtmp_thread_on_idle this u1 = Ok u2 /\
    uv_calls u2 = uv_calls u ++ uv_tcp_connect cd :: stop_calls u /\
    cds u2 !! cd =
      Some {| cd_req_id := req_id; cd_thread := this; cd_ip_addr := ip;
              cd_connect_data := cd; cd_tcp_data := tcp_none;
              cd_chan := chan |} /\
    req_map u2 !! to_int req_id = Some cd /\
    rust_uvtmp_thread_on_idle this
      (rust_uvtmp_thread_close_connection req_id u2) = Ok u4 /\
    uv_calls u4 = uv_calls u2 ++ uv_close_tcp cd :: stop_calls u /\
    is_Some (cds u4 !! cd) /\
    tcp_close_cb cd u4 = Ok u5 /\
    cds u5 = cds u /\ req_map u5 = req_map u /\ queues_empty u5 /\
    stop_flag u5 = stop_flag u.
Proof.
  intros Hnone (Hq1 & Hq2 & Hq3 & Hq4 & Hq5).
  unfold rust_uvtmp_thread_connect. rewrite Hnone. cbn zeta.
  cbn [fst snd]. set (cd := new_connect_data u).
  assert (Hfresh : cds u !! cd = None).
  { apply not_elem_of_dom. intros Hin.
    apply (is_fresh ({[0]} ∪ dom (cds u))).
    apply elem_of_union. by right. }
  set (c0 := {| cd_req_id := req_id; cd_thread := 0; cd_ip_addr := ip;
                cd_connect_data := 0; cd_tcp_data := tcp_none;
                cd_chan := {| chan_task := 0; chan_port := 0 |} |}).
  set (u1 := set_connect_queue _ _).
  pose proof (on_idle_one_connect this u1 cd chan c0) as Hidle1.
  cbn in Hidle1. rewrite Hq1, Hq2, Hq3, Hq4, Hq5, lookup_insert_eq in Hidle1.
  specialize (Hidle1 eq_refl eq_refl eq_refl eq_refl eq_refl eq_refl).
  rewrite insert_insert_eq in Hidle1.
  match type of Hidle1 with _ = Ok ?U => set (u2 := U) in * end.
  destruct (close_idle_if_stop_fields
              (uv_call_made (uv_tcp_connect cd)
                 (set_cds (<[cd := set_cd_bound this cd chan c0]> (cds u))
                    (set_connect_queue [] u1))))
    as (Hmap2 & Hcds2 & Hstop2 & Hc2 & Hcl2 & Hw2 & Hr2 & Ht2).
  fold u2 in Hmap2, Hcds2, Hstop2, Hc2, Hcl2, Hw2, Hr2, Ht2.
  cbn in Hmap2, Hcds2, Hstop2, Hc2, Hcl2, Hw2, Hr2, Ht2.
  assert (Hcalls2 :
    uv_calls u2 = uv_calls u ++ uv_tcp_connect cd :: stop_calls u).
  { unfold u2. rewrite uv_calls_close_idle. unfold stop_calls. cbn.
    by rewrite <- app_assoc. }
  set (u3 := rust_uvtmp_thread_close_connection req_id u2).
  assert (Hfields3 :
    req_map u3 = req_map u /\ cds u3 = cds u2 /\
    connect_queue u3 = [] /\ close_connection_queue u3 = [cd] /\
    write_queue u3 = [] /\ read_start_queue u3 = [] /\
    timer_start_queue u3 = [] /\ uv_calls u3 = uv_calls u2 /\
    stop_flag u3 = stop_flag u).
  { unfold u3, rust_uvtmp_thread_close_connection, req_map_index.
    rewrite Hmap2, lookup_insert_eq. cbn.
    rewrite Hmap2, delete_insert_eq, Hcl2, Hc2, Hw2, Hr2, Ht2, Hstop2.
    rewrite Hq2, Hq3, Hq4, Hq5.
    split; [by apply delete_id|done]. }
  destruct Hfields3 as (Hmap3 & Hcds3 & Hc3 & Hcl3 & Hw3 & Hr3 & Ht3 &
                        Hcalls3 & Hstop3).
  pose proof (on_idle_one_close this u3 cd (set_cd_bound this cd chan c0)
                Hc3 Hcl3 Hw3 Hr3 Ht3) as Hidle2.
  rewrite Hcds3, Hcds2, lookup_insert_eq in Hidle2.
  specialize (Hidle2 eq_refl). rewrite insert_insert_eq in Hidle2.
  match type of Hidle2 with _ = Ok ?U => set (u4 := U) in * end.
  match goal with
  | u4 := close_idle_if_stop ?U |- _ =>
      destruct (close_idle_if_stop_fields U)
        as (Hmap4 & Hcds4 & Hstop4 & Hc4 & Hcl4 & Hw4 & Hr4 & Ht4)
  end.
  fold u4 in Hmap4, Hcds4, Hstop4, Hc4, Hcl4, Hw4, Hr4, Ht4.
  cbn in Hmap4, Hcds4, Hstop4, Hc4, Hcl4, Hw4, Hr4, Ht4.
  assert (Hcalls4 :
    uv_calls u4 = uv_calls u2 ++ uv_close_tcp cd :: stop_calls u).
  { unfold u4. rewrite uv_calls_close_idle. unfold stop_calls. cbn.
    by rewrite Hstop3, Hcalls3, <- app_assoc. }
  exists u2, u4, (set_cds (delete cd (cds u4)) u4).
  split; [exact Hidle1|]. split; [exact Hcalls2|].
  split; [by rewrite Hcds2, lookup_insert_eq|].
  split; [by rewrite Hmap2, lookup_insert_eq|].
  split; [exact Hidle2|]. split; [exact Hcalls4|].
  split; [rewrite Hcds4, lookup_insert_eq; eauto|].
  split.
  { unfold tcp_close_cb. rewrite Hcds4, lookup_insert_eq. cbn.
    by rewrite lookup_insert_eq. }
  cbn. split.
  { rewrite Hcds4, delete_insert_eq. by apply delete_id. }
  split; [congruence|]. split; [|congruence].
  unfold queues_empty. cbn. rewrite Hc4, Hcl4, Hw4, Hr4, Ht4.
  by rewrite Hc3, Hw3, Hr3, Ht3.
Qed.

(** X12.  [tcp.data] of a connection serves two callbacks.  When a
    [read_start] and a [close_connection] for the same live connection
    wait for the same [on_idle], the connection is closed first and the
    read started second, so that [tcp.data] ends up pointing to the
    read request: [tcp_close_cb] then deletes something that is no
    [connect_data], and the connection itself stays allocated.  With
    [close_connection] alone, [tcp_close_cb] frees the connection. *)
Theorem read_and_close_same_idle (this : Z) (u : rust_uvtmp_thread)
    (req_id cd : Z) (c : connect_data) (chan : chan_handle) :
  req_map u !! to_int req_id = Some cd ->
  cds u !! cd = Some c ->
  queues_empty u ->
  let rd := {| rd_cd := cd; rd_chan := chan |} in
  (exists u2,
     rust_uvtmp_thread_on_idle this
       (rust_uvtmp_thread_close_connection req_id
          (rust_uvtmp_thread_read_start req_id chan u)) = Ok u2 /\
     uv_calls u2 =
       uv_calls u ++ [uv_close_tcp cd; uv_read_start cd] ++ stop_calls u /\
     cds u2 = <[cd := set_cd_tcp_data (tcp_rd rd) c]> (cds u) /\
     exists why, tcp_close_cb cd u2 = Stuck why) /\
  (exists u2 u3,
     rust_uvtmp_thread_on_idle this
       (rust_uvtmp_thread_close_connection req_id u) = Ok u2 /\
     uv_calls u2 = uv_calls u ++ [uv_close_tcp cd] ++ stop_calls u /\
     tcp_close_cb cd u2 = Ok u3 /\
     cds u3 = delete cd (cds u)).
Proof.
  intros Hmap Hcd (Hq1 & Hq2 & Hq3 & Hq4 & Hq5) rd. split.
  - set (u1 := rust_uvtmp_thread_close_connection req_id
                 (rust_uvtmp_thread_read_start req_id chan u)).
    assert (Hfields1 :
      cds u1 = cds u /\ connect_queue u1 = [] /\
      close_connection_queue u1 = [cd] /\ write_queue u1 = [] /\
      read_start_queue u1 = [rd] /\ timer_start_queue u1 = [] /\
      uv_calls u1 = uv_calls u /\ stop_flag u1 = stop_flag u).
    { unfold u1, rust_uvtmp_thread_close_connection,
        rust_uvtmp_thread_read_start, req_map_index.
      rewrite Hmap. cbn. rewrite Hmap. cbn.
      by rewrite Hq1, Hq2, Hq3, Hq4, Hq5. }
    destruct Hfields1 as (Hcds1 & Hc1 & Hcl1 & Hw1 & Hr1 & Ht1 & Hcalls1 &
                          Hstop1).
    pose proof (on_idle_close_and_read this u1 cd c chan
                  Hc1 Hcl1 Hw1 Hr1 Ht1) as Hidle.
    rewrite Hcds1 in Hidle. specialize (Hidle Hcd).
    match type of Hidle with _ = Ok ?U => set (u2 := U) in * end.
    match goal with
    | u2 := close_idle_if_stop ?U |- _ =>
        destruct (close_idle_if_stop_fields U) as (_ & Hcds2 & _)
    end.
    fold u2 in Hcds2. cbn in Hcds2.
    exists u2. split; [exact Hidle|].
    split.
    { unfold u2. rewrite uv_calls_close_idle. unfold stop_calls. cbn.
      by rewrite Hstop1, Hcalls1, <- !app_assoc. }
    split; [exact Hcds2|].
    unfold tcp_close_cb. rewrite Hcds2, lookup_insert_eq. cbn. eauto.
  - set (u1 := rust_uvtmp_thread_close_connection req_id u).
    assert (Hfields1 :
      cds u1 = cds u /\ connect_queue u1 = [] /\
      close_connection_queue u1 = [cd] /\ write_queue u1 = [] /\
      read_start_queue u1 = [] /\ timer_start_queue u1 = [] /\
      uv_calls u1 = uv_calls u /\ stop_flag u1 = stop_flag u).
    { unfold u1, rust_uvtmp_thread_close_connection, req_map_index.
      rewrite Hmap. cbn. by rewrite Hq1, Hq2, Hq3, Hq4, Hq5. }
    destruct Hfields1 as (Hcds1 & Hc1 & Hcl1 & Hw1 & Hr1 & Ht1 & Hcalls1 &
                          Hstop1).
    pose proof (on_idle_one_close this u1 cd c Hc1 Hcl1 Hw1 Hr1 Ht1)
      as Hidle.
    rewrite Hcds1 in Hidle. specialize (Hidle Hcd).
    match type of Hidle with _ = Ok ?U => set (u2 := U) in * end.
    match goal with
    | u2 := close_idle_if_stop ?U |- _ =>
        destruct (close_idle_if_stop_fields U) as (_ & Hcds2 & _)
    end.
    fold u2 in Hcds2. cbn in Hcds2.
    exists u2, (set_cds (delete cd (cds u2)) u2).
    split; [exact Hidle|]. split.
    { unfold u2. rewrite uv_calls_close_idle. unfold stop_calls. cbn.
      by rewrite Hstop1, Hcalls1, <- !app_assoc. }
    split.
    { unfold tcp_close_cb. rewrite Hcds2, lookup_insert_eq. cbn.
      by rewrite lookup_insert_eq. }
    cbn. by rewrite Hcds2, delete_insert_eq.
Qed.

End UvLife.

Lemma connection_lifecycle_witness :
  exists u2 u4 u5,
    rust_uvtmp_thread_on_idle 1
      (snd (rust_uvtmp_thread_connect 7 8192 chan_1_50
              rust_uvtmp_thread_new)) = Ok u2 /\
    rust_uvtmp_thread_on_idle 1
      (rust_uvtmp_thread_close_connection 7 u2) = Ok u4 /\
    tcp_close_cb
      (fst (rust_uvtmp_thread_connect 7 8192 chan_1_50
              rust_uvtmp_thread_new)) u4 = Ok u5 /\
    cds u5 = cds rust_uvtmp_thread_new /\
    req_map u5 = req_map rust_uvtmp_thread_new.
Proof.
  destruct (connection_lifecycle 1 rust_uvtmp_thread_new 7 8192 chan_1_50)
    as (u2 & u4 & u5 & H1 & _ & _ & _ & H2 & _ & _ & H3 & H4 & H5 & _).
  - reflexivity.
  - repeat split.
  - exists u2, u4, u5. repeat split; assumption.
Defined.

Lemma read_and_close_same_idle_witness :
  exists u2 why,
    rust_uvtmp_thread_on_idle 1
      (rust_uvtmp_thread_close_connection 7
         (rust_uvtmp_thread_read_start 7 chan_1_50 uv_connected)) = Ok u2 /\
    tcp_close_cb (new_connect_data rust_uvtmp_thread_new) u2 = Stuck why.
Proof.
  destruct (read_and_close_same_idle 1 uv_connected 7
              (new_connect_data rust_uvtmp_thread_new)
              {| cd_req_id := 7; cd_thread := 1; cd_ip_addr := 8192;
                 cd_connect_data := new_connect_data rust_uvtmp_thread_new;
                 cd_tcp_data := tcp_none; cd_chan := chan_1_50 |}
              chan_1_50)
    as ((u2 & Hidle & _ & _ & why & Hcb) & _).
  - vm_compute. reflexivity.
  - vm_compute. reflexivity.
  - repeat split.
  - exists u2, why. split; assumption.
Defined.

(** ** Messages in order *)

Section RoundTrip.
Context `{Platform}.

Lemma set_port_ref_count_id (P : rust_port) n b :
  set_port_ref_count (port_ref_count P)
    (set_port_buffer b (set_port_ref_count n P)) = set_port_buffer b P.
Proof. by destruct P. Qed.

Lemma rust_port_send_buffered (w : world) p d P owner :
  ports w !! p = Some P ->
  tasks w !! port_task P = Some owner ->
  task_state owner <> blocked ->
  rust_port_send p d w =
    Ok (tt,
        set_trace (trace w ++ [ev_send p d; ev_lock (port_lock p);
                               ev_unlock (port_lock p)])
          (set_ports (<[p := set_port_buffer (port_buffer P ++ [d]) P]>
                        (ports w)) w)).
Proof.
  intros Hp Ho Hst. unfold rust_port_send. rt_unfold. cbn.
  rewrite Hp. cbn. rewrite Ho. cbn.
  rewrite bool_decide_eq_false_2 by tauto.
  destruct (task_rendezvous_ptr owner); destruct (task_state owner) eqn:E;
    try congruence; cbn;
    (apply Ok_eq; [done|]; apply world_ext; cbn; try done;
     by rewrite <- !app_assoc).
Qed.

Lemma chan_id_send_buffered (w : world) (tid pid : Z) (d : unit_data)
    (owner p : Z) (T : rust_task) (P : rust_port) :
  task_table (kernel w) !! tid = Some owner ->
  tasks w !! owner = Some T ->
  task_port_table T !! pid = Some p ->
  ports w !! p = Some P ->
  port_task P = owner ->
  task_state T <> blocked ->
  1 <= task_ref_count T -> 1 <= port_ref_count P ->
  chan_id_send tid pid d w =
    Ok (true,
        set_trace (trace w ++ send_events owner p d)
          (set_ports (<[p := set_port_buffer (port_buffer P ++ [d]) P]>
                        (ports w)) w)).
Proof.
  intros Hid HT Hpid HP Howner Hst HrcT HrcP.
  unfold chan_id_send, rust_kernel_get_task_by_id, rust_task_get_port_by_id.
  rt_unfold. cbn -[rust_port_send]. rewrite Hid. cbn -[rust_port_send].
  rewrite HT. cbn -[rust_port_send]. rewrite lookup_insert_eq.
  cbn -[rust_port_send]. rewrite Hpid. cbn -[rust_port_send].
  rewrite HP. cbn -[rust_port_send].
  set (T1 := set_task_ref_count (task_ref_count T + 1) T).
  set (P1 := set_port_ref_count (port_ref_count P + 1) P).
  lazymatch goal with
  | |- context [rust_port_send p d ?W] => set (w2 := W)
  end.
  rewrite (rust_port_send_buffered w2 p d P1 T1).
  2:{ apply lookup_insert_eq. }
  2:{ cbn. rewrite Howner. apply lookup_insert_eq. }
  2:{ exact Hst. }
  rt_unfold. unfold rust_port_deref, rust_task_deref. rt_unfold.
  cbn. rewrite !lookup_insert_eq. cbn.
  destruct (decide (port_ref_count P + 1 - 1 = 0)) as [E|_]; [lia|].
  cbn. rewrite !lookup_insert_eq. cbn.
  destruct (decide (task_ref_count T + 1 - 1 = 0)) as [E|_]; [lia|].
  apply Ok_eq; [done|]. apply world_ext; cbn; try done.
  - rewrite !insert_insert_eq.
    replace (task_ref_count T + 1 - 1) with (task_ref_count T) by lia.
    apply insert_id. rewrite HT. f_equal. by destruct T.
  - rewrite !insert_insert_eq. f_equal.
    replace (port_ref_count P + 1 - 1) with (port_ref_count P) by lia.
    by destruct P.
  - unfold send_events. by rewrite <- !app_assoc.
Qed.

Lemma send_each_buffered (tid pid owner p : Z) (T : rust_task)
    (ds : list unit_data) :
  forall (w : world) (P : rust_port),
  task_table (kernel w) !! tid = Some owner ->
  tasks w !! owner = Some T ->
  task_port_table T !! pid = Some p ->
  ports w !! p = Some P ->
  port_task P = owner ->
  task_state T <> blocked ->
  1 <= task_ref_count T -> 1 <= port_ref_count P ->
  exists w',
    send_each tid pid ds w = Ok (replicate (length ds) true, w') /\
    ports w' = <[p := set_port_buffer (port_buffer P ++ ds) P]> (ports w) /\
    tasks w' = tasks w /\ threads w' = threads w /\ kernel w' = kernel w /\
    selectors w' = selectors w /\ mem w' = mem w /\
    trace w' = trace w ++ flat_map (send_events owner p) ds.
Proof.
  induction ds as [|d ds IH]; intros w P Hid HT Hpid HP Howner Hst HrcT HrcP.
  - exists w. cbn. rewrite !app_nil_r. split; [done|]. split; [|done].
    symmetry. apply insert_id. rewrite HP. f_equal. by destruct P.
  - cbn [send_each]. unfold bind at 1.
    rewrite (chan_id_send_buffered w tid pid d owner p T P) by done.
    set (P1 := set_port_buffer (port_buffer P ++ [d]) P).
    set (w1 := set_trace _ _).
    destruct (IH w1 P1) as (w' & Hrun & Hports & Htasks & Hthr & Hk & Hsel &
                            Hmem & Htr); try done.
    { apply lookup_insert_eq. }
    exists w'. unfold bind. rewrite Hrun. unfold ret. cbn [length replicate].
    split; [done|]. split.
    { rewrite Hports. unfold w1. cbn. rewrite insert_insert_eq.
      by rewrite <- app_assoc. }
    split; [done|]. split; [done|]. split; [done|]. split; [done|].
    split; [done|]. rewrite Htr. unfold w1. cbn [trace set_trace flat_map].
    by rewrite <- app_assoc.
Qed.

Lemma recv_each_buffered (owner p : Z) (dptrs : list Z) :
  forall (w : world) (P : rust_port),
  ports w !! p = Some P ->
  (length dptrs <= length (port_buffer P))%nat ->
  NoDup dptrs ->
  exists w',
    recv_each owner p dptrs w =
      Ok (replicate (length dptrs) (false, false), w') /\
    ports w' =
      <[p := set_port_buffer (drop (length dptrs) (port_buffer P)) P]>
        (ports w) /\
    (forall (i : nat) dptr,
       dptrs !! i = Some dptr ->
       exists d, port_buffer P !! i = Some d /\
                 mem w' !! dptr = Some (cell_unit d)) /\
    (forall a, a ∉ dptrs -> mem w' !! a = mem w !! a) /\
    tasks w' = tasks w /\ threads w' = threads w /\ kernel w' = kernel w /\
    selectors w' = selectors w.
Proof.
  induction dptrs as [|dptr dptrs IH]; intros w P HP Hlen Hnd.
  - exists w. cbn. split; [done|]. split.
    { symmetry. apply insert_id. rewrite HP. f_equal. by destruct P. }
    split; [intros i dptr Hi; by rewrite lookup_nil in Hi|]. done.
  - destruct (port_buffer P) as [|d rest] eqn:Hbuf; [cbn in Hlen; lia|].
    apply NoDup_cons in Hnd as [Hnotin Hnd].
    cbn [recv_each]. unfold bind at 1.
    assert (Hrecv : port_recv owner dptr p w =
              Ok ((false, false),
                  set_trace (trace w ++ [ev_lock (port_lock p);
                                         ev_unlock (port_lock p)])
                    (set_ports (<[p := set_port_buffer rest P]> (ports w))
                       (set_mem (<[dptr := cell_unit d]> (mem w)) w)))).
    { unfold port_recv, rust_port_receive. rt_unfold. cbn.
      rewrite HP. cbn. rewrite Hbuf. cbn.
      apply Ok_eq; [done|]. apply world_ext; cbn; try done.
      by rewrite <- app_assoc. }
    rewrite Hrecv.
    set (w1 := set_trace _ _).
    destruct (IH w1 (set_port_buffer rest P))
      as (w' & Hrun & Hports & Hgot & Hother & Htasks & Hthr & Hk & Hsel).
    { apply lookup_insert_eq. }
    { cbn in *. lia. }
    { done. }
    exists w'. unfold bind. rewrite Hrun. unfold ret. cbn [length replicate].
    split; [done|]. split.
    { rewrite Hports. unfold w1. cbn. by rewrite insert_insert_eq. }
    split.
    { intros [|i] a Hi; cbn in Hi.
      - injection Hi as <-. exists d. split; [done|].
        rewrite Hother by done. unfold w1. cbn. apply lookup_insert_eq.
      - cbn. apply (Hgot i a Hi). }
    split.
    { intros a Ha. apply not_elem_of_cons in Ha as [Hne Ha].
      rewrite Hother by done. unfold w1. cbn.
      by rewrite lookup_insert_ne. }
    done.
Qed.

(** X13.  Messages arrive in the order in which they were sent.  On
    a channel that resolves to a port whose owner is not blocked, a
    sequence of [chan_id_send] calls reports every message as sent and
    appends them to the port's buffer in order, leaving tasks, workers,
    reference counts and memory as they were.  The owner's
    [port_recv] calls that follow, as many as there are messages
    buffered at most, each return at once (neither yield nor killed),
    the [i]-th storing the [i]-th buffered message at its destination,
    and leave the remaining messages in the buffer. *)
Theorem messages_arrive_in_order (w : world) (tid pid owner p : Z)
    (T : rust_task) (P : rust_port) (ds : list unit_data) (dptrs : list Z) :
  task_table (kernel w) !! tid = Some owner ->
  tasks w !! owner = Some T ->
  task_port_table T !! pid = Some p ->
  ports w !! p = Some P ->
  port_task P = owner ->
  task_state T <> blocked ->
  1 <= task_ref_count T -> 1 <= port_ref_count P ->
  NoDup dptrs ->
  (length dptrs <= length (port_buffer P ++ ds))%nat ->
  exists w1 w2,
    send_each tid pid ds w = Ok (replicate (length ds) true, w1) /\
    ports w1 = <[p := set_port_buffer (port_buffer P ++ ds) P]> (ports w) /\
    mem w1 = mem w /\
    trace w1 = trace w ++ flat_map (send_events owner p) ds /\
    recv_each owner p dptrs w1 =
      Ok (replicate (length dptrs) (false, false), w2) /\
    (forall (i : nat) dptr,
       dptrs !! i = Some dptr ->
       exists d, (port_buffer P ++ ds) !! i = Some d /\
                 mem w2 !! dptr = Some (cell_unit d)) /\
    (forall a, a ∉ dptrs -> mem w2 !! a = mem w !! a) /\
    ports w2 =
      <[p := set_port_buffer
               (drop (length dptrs) (port_buffer P ++ ds)) P]> (ports w) /\
    tasks w2 = tasks w /\ threads w2 = threads w /\ kernel w2 = kernel w /\
    selectors w2 = selectors w.
Proof.
  intros Hid HT Hpid HP Howner Hst HrcT HrcP Hnd Hlen.
  destruct (send_each_buffered tid pid owner p T ds w P)
    as (w1 & Hsend & Hports1 & Htasks1 & Hthr1 & Hk1 & Hsel1 & Hmem1 & Htr1);
    try done.
  destruct (recv_each_buffered owner p dptrs w1
              (set_port_buffer (port_buffer P ++ ds) P))
    as (w2 & Hrecv & Hports2 & Hgot & Hother & Htasks2 & Hthr2 & Hk2 & Hsel2);
    try done.
  { rewrite Hports1. apply lookup_insert_eq. }
  exists w1, w2. split; [done|]. split; [done|]. split; [done|].
  split; [done|]. split; [done|]. split; [exact Hgot|].
  split; [intros a Ha; rewrite Hother by done; by rewrite Hmem1|].
  split; [rewrite Hports2, Hports1; cbn; by rewrite insert_insert_eq|].
  repeat split; congruence.
Qed.

End RoundTrip.

Lemma messages_arrive_in_order_witness :
  exists w1 w2,
    @send_each x86_64 1 5 [raw_unit [1]; raw_unit [2]] world_sel =
      Ok ([true; true], w1) /\
    @recv_each x86_64 1 50 [7; 8] w1 = Ok ([(false, false); (false, false)], w2) /\
    mem w2 !! 7 = Some (cell_unit (raw_unit [1])) /\
    mem w2 !! 8 = Some (cell_unit (raw_unit [2])).
Proof.
  destruct (@messages_arrive_in_order x86_64 world_sel 1 5 1 50 task_1
              port_50 [raw_unit [1]; raw_unit [2]] [7; 8])
    as (w1 & w2 & Hsend & _ & _ & _ & Hrecv & Hgot & _).
  - vm_compute. reflexivity.
  - vm_compute. reflexivity.
  - vm_compute. reflexivity.
  - vm_compute. reflexivity.
  - reflexivity.
  - discriminate.
  - vm_compute. discriminate.
  - vm_compute. discriminate.
  - apply (bool_decide_unpack _). vm_compute. exact I.
  - cbn. lia.
  - exists w1, w2. split; [exact Hsend|]. split; [exact Hrecv|].
    destruct (Hgot 0%nat 7 eq_refl) as (d0 & Hd0 & Hm0).
    destruct (Hgot 1%nat 8 eq_refl) as (d1 & Hd1 & Hm1).
    cbn in Hd0, Hd1. injection Hd0 as <-. injection Hd1 as <-.
    split; assumption.
Defined.

(** ** The rendezvous of [port_recv] and [chan_id_send] *)

Section RecvThenSend.
Context `{Platform}.

(** X14.  The rendezvous.  When the owner calls [port_recv] on its
    empty port first, it blocks with its destination remembered (yield
    is set).  A [chan_id_send] to the port then stores the message
    directly at that destination, clears the rendezvous slot and wakes
    the owner, which is running again at the back of its worker's
    running list; the port's buffer stays empty, and the reference
    counts of the task and of the port are what they were. *)
Theorem recv_then_send_rendezvous (w : world) (tid pid owner p dptr : Z)
    (T : rust_task) (P : rust_port) (thr : rust_task_thread)
    (d : unit_data) :
  task_table (kernel w) !! tid = Some owner ->
  tasks w !! owner = Some T ->
  task_port_table T !! pid = Some p ->
  ports w !! p = Some P ->
  port_task P = owner ->
  port_buffer P = [] ->
  task_state T = running ->
  task_killed T = false ->
  threads w !! task_thread T = Some thr ->
  1 <= task_ref_count T -> 1 <= port_ref_count P ->
  exists w1 w2,
    port_recv owner dptr p w = Ok ((true, false), w1) /\
    tasks w1 = <[owner := recv_blocked p dptr T]> (tasks w) /\
    mem w1 = mem w /\
    chan_id_send tid pid d w1 = Ok (true, w2) /\
    mem w2 = <[dptr := cell_unit d]> (mem w) /\
    tasks w2 =
      <[owner := set_state running None "none"
                   (set_task_rendezvous_ptr None T)]> (tasks w) /\
    ports w2 = ports w /\
    threads w2 =
      <[task_thread T :=
          moved owner blocked running (moved owner running blocked thr)]>
        (threads w) /\
    kernel w2 = kernel w /\ selectors w2 = selectors w.
Proof.
  intros Hid HT Hpid HP Howner Hbuf Hst Hk Hthr HrcT HrcP.
  set (w1 := set_trace
               (trace w ++ [ev_lock (port_lock p);
                            ev_signal (thread_lock (task_thread T));
                            ev_unlock (port_lock p)])
               (set_tasks (<[owner := recv_blocked p dptr T]> (tasks w))
                  (set_threads
                     (<[task_thread T := moved owner running blocked thr]>
                        (threads w)) w))).
  assert (Hrecv : port_recv owner dptr p w = Ok ((true, false), w1)).
  { unfold port_recv, rust_port_receive, rust_task_block,
      rust_task_thread_transition. rt_unfold. cbn.
    rewrite HP. cbn. rewrite Hbuf. cbn. rewrite HT. cbn. rewrite Hk. cbn.
    rewrite lookup_insert_eq. cbn. rewrite lookup_insert_eq. cbn.
    rewrite Hst. rewrite bool_decide_eq_true_2 by done. cbn.
    rewrite Hthr. cbn. rewrite lookup_insert_eq. cbn.
    apply Ok_eq; [done|]. apply world_ext; cbn; try done.
    - by rewrite !insert_insert_eq.
    - by rewrite !insert_insert_eq.
    - by rewrite <- !app_assoc. }
  exists w1. eexists. split; [exact Hrecv|]. split; [done|]. split; [done|].
  unfold chan_id_send, rust_kernel_get_task_by_id, rust_task_get_port_by_id,
    rust_port_send, rust_task_wakeup, rust_task_thread_transition,
    rust_port_deref, rust_task_deref.
  rt_unfold. cbn. rewrite Hid. cbn. rewrite lookup_insert_eq. cbn.
  rewrite lookup_insert_eq. cbn. rewrite Hpid. cbn. rewrite HP. cbn.
  rewrite lookup_insert_eq. cbn. rewrite Howner. rewrite lookup_insert_eq.
  cbn. rewrite bool_decide_eq_true_2 by done. cbn.
  rewrite lookup_insert_eq. cbn.
  rewrite bool_decide_eq_true_2 by done. cbn.
  rewrite lookup_insert_eq. cbn.
  rewrite (bool_decide_eq_true_2 (blocked = blocked)) by done. cbn.
  rewrite lookup_insert_eq. cbn. rewrite lookup_insert_eq. cbn.
  rewrite lookup_insert_eq. cbn.
  destruct (decide (port_ref_count P + 1 - 1 = 0)) as [E|_]; [lia|].
  cbn. rewrite lookup_insert_eq. cbn.
  destruct (decide (task_ref_count T + 1 - 1 = 0)) as [E|_]; [lia|].
  split; [reflexivity|]. cbn.
  split; [done|]. split.
  { rewrite !insert_insert_eq. f_equal.
    replace (task_ref_count T + 1 - 1) with (task_ref_count T) by lia.
    by destruct T. }
  split.
  { rewrite !insert_insert_eq.
    replace (port_ref_count P + 1 - 1) with (port_ref_count P) by lia.
    apply insert_id. rewrite HP. f_equal. by destruct P. }
  split; [|done].
  by rewrite !insert_insert_eq.
Qed.
End RecvThenSend.

Lemma recv_then_send_rendezvous_witness :
  exists w1 w2,
    @port_recv x86_64 1 7 50 world_sel = Ok ((true, false), w1) /\
    @chan_id_send x86_64 1 5 (raw_unit [42]) w1 = Ok (true, w2) /\
    mem w2 = <[7 := cell_unit (raw_unit [42])]> (mem world_sel) /\
    ports w2 = ports world_sel.
Proof.
  destruct (@recv_then_send_rendezvous x86_64 world_sel 1 5 1 50 7 task_1
              port_50 thread_sel (raw_unit [42]))
    as (w1 & w2 & Hrecv & _ & _ & Hsend & Hmem & _ & Hports & _).
  - vm_compute. reflexivity.
  - vm_compute. reflexivity.
  - vm_compute. reflexivity.
  - vm_compute. reflexivity.
  - reflexivity.
  - reflexivity.
  - reflexivity.
  - reflexivity.
  - vm_compute. reflexivity.
  - vm_compute. discriminate.
  - vm_compute. discriminate.
  - exists w1, w2. repeat split; assumption.
Defined.

(** ** Task pointers and the deletion of ports *)

Section TaskPointer.
Context `{Platform}.

(** X15.  [get_task_pointer] and [drop_task].  For an id that the
    kernel does not know, [get_task_pointer] returns NULL and
    [drop_task] of NULL does nothing.  For a registered task with a
    non-zero reference count, [get_task_pointer] takes a reference and
    [drop_task] of the result gives it back: apart from the trace the
    world is as before.  A [drop_task] without such a reference, on a
    task that holds its last reference and is still registered under
    its id, fails in [release_task] on the assertion
    [kernel->get_task_by_id(task->id) == NULL]. *)
Theorem task_pointer_round_trip (w : world) (id : Z) :
  (task_table (kernel w) !! id = None ->
   get_task_pointer id w = Ok (None, w) /\
   drop_task None w = Ok (tt, w)) /\
  (forall t T,
     task_table (kernel w) !! id = Some t ->
     tasks w !! t = Some T ->
     (task_ref_count T <> 0 ->
      exists w1,
        get_task_pointer id w = Ok (Some t, w1) /\
        tasks w1 =
          <[t := set_task_ref_count (task_ref_count T + 1) T]> (tasks w) /\
        drop_task (Some t) w1 =
          Ok (tt, set_trace (trace w ++ [ev_deref t]) w)) /\
     (task_ref_count T = 1 -> task_id T = id ->
      drop_task (Some t) w =
        Fatal "kernel->get_task_by_id(task->id) == NULL")).
Proof.
  split.
  - intros Hnone. unfold get_task_pointer, rust_kernel_get_task_by_id,
      drop_task. rt_unfold. cbn. by rewrite Hnone.
  - intros t T Hid HT. split.
    + intros Hrc. eexists. split.
      { unfold get_task_pointer, rust_kernel_get_task_by_id. rt_unfold.
        cbn. rewrite Hid. cbn. rewrite HT. cbn. reflexivity. }
      split; [done|].
      unfold drop_task, rust_task_deref. rt_unfold. cbn.
      rewrite lookup_insert_eq. cbn.
      destruct (decide (task_ref_count T + 1 - 1 = 0)) as [E|_]; [lia|].
      apply Ok_eq; [done|]. apply world_ext; cbn; try done.
      rewrite insert_insert_eq.
      replace (task_ref_count T + 1 - 1) with (task_ref_count T) by lia.
      apply insert_id. rewrite HT. f_equal. by destruct T.
    + intros Hrc Htid.
      unfold drop_task, rust_task_deref, rust_task_thread_release_task,
        rust_kernel_get_task_by_id. rt_unfold. cbn.
      rewrite HT. cbn. rewrite Hrc. cbn.
      destruct (decide (1 - 1 = 0)) as [_|E]; [|lia].
      cbn. rewrite lookup_insert_eq. cbn.
      rewrite Htid. cbn.
      rewrite (bool_decide_eq_true_2 (1 - 1 = 0)) by lia. cbn.
      rewrite Hid. cbn. rewrite lookup_insert_eq. cbn.
      reflexivity.
Qed.

(** X16.  [del_port] fails on the assertion
    [Expected port ref_count == 1] unless the caller holds the only
    reference; with the only reference the port is deleted and nothing
    else changes.  Sends that have returned hold no reference:
    [del_port] after any number of [chan_id_send] calls succeeds, and
    the messages still buffered go with the port.  A sender that has
    looked the port up and not yet released it does hold one:
    [del_port] then fails. *)
Theorem del_port_needs_last_reference (w : world) (p : Z) (P : rust_port) :
  ports w !! p = Some P ->
  (port_ref_count P <> 1 ->
   del_port p w = Fatal "Expected port ref_count == 1") /\
  (port_ref_count P = 1 ->
   del_port p w = Ok (tt, set_ports (delete p (ports w)) w) /\
   (forall tid pid owner T ds,
      task_table (kernel w) !! tid = Some owner ->
      tasks w !! owner = Some T ->
      task_port_table T !! pid = Some p ->
      port_task P = owner ->
      task_state T <> blocked ->
      1 <= task_ref_count T ->
      exists w1 w2,
        send_each tid pid ds w = Ok (replicate (length ds) true, w1) /\
        ports w1 !! p = Some (set_port_buffer (port_buffer P ++ ds) P) /\
        del_port p w1 = Ok (tt, w2) /\
        ports w2 = delete p (ports w) /\ mem w2 = mem w /\
        tasks w2 = tasks w) /\
   (forall owner pid T,
      tasks w !! owner = Some T ->
      task_port_table T !! pid = Some p ->
      (rust_task_get_port_by_id owner pid ;; del_port p) w =
        Fatal "Expected port ref_count == 1")).
Proof.
  intros HP. split.
  - intros Hrc. unfold del_port. rt_unfold. cbn. rewrite HP. cbn.
    by rewrite bool_decide_eq_false_2.
  - intros Hrc. split; [|split].
    + unfold del_port, rust_port_deref. rt_unfold. cbn. rewrite HP. cbn.
      rewrite Hrc. rewrite (bool_decide_eq_true_2 (1 = 1)) by done. cbn.
      rewrite HP. cbn. rewrite Hrc.
      destruct (decide (1 - 1 = 0)) as [_|E]; [|lia]. reflexivity.
    + intros tid pid owner T ds Hid HT Hpid Howner Hst HrcT.
      destruct (send_each_buffered tid pid owner p T ds w P)
        as (w1 & Hsend & Hports1 & Htasks1 & Hthr1 & Hk1 & Hsel1 & Hmem1 &
            Htr1); try done; [lia|].
      exists w1. eexists. split; [exact Hsend|].
      assert (HP1 : ports w1 !! p =
                Some (set_port_buffer (port_buffer P ++ ds) P)).
      { rewrite Hports1. apply lookup_insert_eq. }
      split; [exact HP1|].
      split.
      { unfold del_port, rust_port_deref. rt_unfold. cbn. rewrite HP1. cbn.
        rewrite Hrc. rewrite (bool_decide_eq_true_2 (1 = 1)) by done. cbn.
        rewrite HP1. cbn. rewrite Hrc.
        destruct (decide (1 - 1 = 0)) as [_|E]; [|lia]. reflexivity. }
      cbn. split; [by rewrite Hports1, delete_insert_eq|]. done.
    + intros owner pid T HT Hpid.
      unfold rust_task_get_port_by_id, del_port. rt_unfold. cbn.
      rewrite HT. cbn. rewrite Hpid. cbn. rewrite HP. cbn.
      rewrite lookup_insert_eq. cbn.
      rewrite bool_decide_eq_false_2; [done|]. lia.
Qed.

End TaskPointer.

Lemma task_pointer_round_trip_witness :
  exists w1,
    @get_task_pointer x86_64 1 world_sel = Ok (Some 1, w1) /\
    @drop_task x86_64 (Some 1) w1 =
      Ok (tt, set_trace (trace world_sel ++ [ev_deref 1]) world_sel) /\
    @drop_task x86_64 (Some 1) world_sel =
      Fatal "kernel->get_task_by_id(task->id) == NULL".
Proof.
  destruct (@task_pointer_round_trip x86_64 world_sel 1) as [_ Hknown].
  destruct (Hknown 1 task_1) as [Hback Hlast].
  - vm_compute. reflexivity.
  - vm_compute. reflexivity.
  - destruct Hback as (w1 & Hget & _ & Hdrop); [vm_compute; discriminate|].
    exists w1. split; [exact Hget|]. split; [exact Hdrop|].
    apply Hlast; reflexivity.
Defined.

Lemma del_port_needs_last_reference_witness :
  @del_port x86_64 50 world_sel =
    Ok (tt, set_ports (delete 50 (ports world_sel)) world_sel) /\
  (@rust_task_get_port_by_id x86_64 1 5 ;; @del_port x86_64 50) world_sel =
    Fatal "Expected port ref_count == 1".
Proof.
  destruct (@del_port_needs_last_reference x86_64 world_sel 50 port_50)
    as [_ Hlast]; [vm_compute; reflexivity|].
  destruct Hlast as (Hdel & _ & Hheld); [reflexivity|].
  split; [exact Hdel|]. apply (Hheld 1 5 task_1); vm_compute; reflexivity.
Defined.

(** ** The log types *)

Section RustLogProps.

Lemma is_tracing_lor_mask m1 m2 bits :
  rust_log_is_tracing (Z.lor m1 m2) bits =
    rust_log_is_tracing m1 bits || rust_log_is_tracing m2 bits.
Proof.
  unfold rust_log_is_tracing. rewrite Z.land_lor_distr_r.
  destruct (Z.land bits m1 =? 0) eqn:E1, (Z.land bits m2 =? 0) eqn:E2; cbn;
    rewrite ?negb_true_iff, ?negb_false_iff;
    rewrite ?Z.eqb_eq, ?Z.eqb_neq in *; rewrite ?Z.lor_eq_0_iff; tauto.
Qed.

Lemma is_tracing_single (t t' : log_type) :
  t <> ALL -> t' <> ALL ->
  rust_log_is_tracing (log_type_bits t') (log_type_bits t) =
    bool_decide (t = t').
Proof.
  intros Ht Ht'. destruct t, t'; try done; vm_compute; reflexivity.
Qed.

(** X17.  The log types of [rust_log] are independent bits.  With a
    mask that enables the types of a list (none of them [ALL]),
    [is_tracing] of a type other than [ALL] holds exactly when the type
    is in the list, and [is_tracing(ALL)] holds exactly when the list
    is not empty.  [is_tracing] of a union of type bits holds when it
    holds for one of the two, and with the mask [ALL] every non-zero
    32-bit value is traced. *)
Theorem log_types_are_independent (enabled : list log_type) (t : log_type) :
  ALL ∉ enabled ->
  (t <> ALL ->
   rust_log_is_tracing (mask_of enabled) (log_type_bits t) =
     bool_decide (t ∈ enabled)) /\
  rust_log_is_tracing (mask_of enabled) (log_type_bits ALL) =
    bool_decide (enabled <> []) /\
  (forall a b,
     rust_log_is_tracing (mask_of enabled) (Z.lor a b) =
       rust_log_is_tracing (mask_of enabled) a ||
       rust_log_is_tracing (mask_of enabled) b) /\
  (forall bits,
     0 <= bits < 2 ^ 32 ->
     rust_log_is_tracing (log_type_bits ALL) bits = negb (bits =? 0)).
Proof.
  intros Hall. split; [|split; [|split]].
  - intros Ht. induction enabled as [|t' ts IH].
    + cbn. unfold rust_log_is_tracing. by rewrite Z.land_0_r.
    + apply not_elem_of_cons in Hall as [Hne Hall].
      cbn [mask_of foldr]. rewrite is_tracing_lor_mask.
      fold (mask_of ts). rewrite IH by done.
      rewrite is_tracing_single by done.
      destruct (decide (t = t')) as [->|Hneq].
      * rewrite bool_decide_eq_true_2 by done. cbn.
        symmetry. apply bool_decide_eq_true_2. left.
      * rewrite bool_decide_eq_false_2 by done. cbn.
        apply bool_decide_ext. rewrite elem_of_cons. tauto.
  - destruct enabled as [|t' ts].
    + cbn. unfold rust_log_is_tracing. by rewrite Z.land_0_r.
    + rewrite (bool_decide_eq_true_2 (t' :: ts <> [])) by done.
      apply not_elem_of_cons in Hall as [Hne Hall].
      unfold rust_log_is_tracing. cbn [mask_of foldr].
      rewrite Z.land_lor_distr_r.
      apply negb_true_iff, Z.eqb_neq. rewrite Z.lor_eq_0_iff.
      intros [E _]. destruct t'; try done; vm_compute in E; discriminate.
  - intros a b. unfold rust_log_is_tracing.
    rewrite Z.land_lor_distr_l.
    destruct (Z.land a (mask_of enabled) =? 0) eqn:E1,
             (Z.land b (mask_of enabled) =? 0) eqn:E2; cbn;
      rewrite ?negb_true_iff, ?negb_false_iff;
      rewrite ?Z.eqb_eq, ?Z.eqb_neq in *; rewrite ?Z.lor_eq_0_iff; tauto.
  - intros bits Hb. unfold rust_log_is_tracing.
    change (log_type_bits ALL) with (Z.ones 32).
    rewrite Z.land_ones by lia. by rewrite Z.mod_small by lia.
Qed.

End RustLogProps.

Lemma log_types_are_independent_witness :
  rust_log_is_tracing (mask_of [ERR; TASK]) (log_type_bits TASK) = true /\
  rust_log_is_tracing (mask_of [ERR; TASK]) (log_type_bits COMM) = false.
Proof.
  assert (Hall : ALL ∉ [ERR; TASK]).
  { apply (bool_decide_unpack _). vm_compute. exact I. }
  split.
  - destruct (log_types_are_independent [ERR; TASK] TASK Hall) as [Hin _].
    rewrite Hin by discriminate. vm_compute. reflexivity.
  - destruct (log_types_are_independent [ERR; TASK] COMM Hall) as [Hin _].
    rewrite Hin by discriminate. vm_compute. reflexivity.
Defined.

(** ** Pushing a byte onto a string *)

Section StrPush.
Context `{Platform}.
Variable reserve_vec : rust_vec -> Z -> rust_vec.

(** X18.  [rust_str_push] on a vector that holds the string [s]
    followed by its terminator, when [fill + 1] does not wrap and
    [reserve_vec] has kept the bytes in use and made room for one
    more: afterwards the vector holds [s] with [byte] appended,
    followed by a terminator, [fill] is one more, and the bytes beyond
    are untouched.  On a vector with [fill = 0], which holds no string,
    the index [fill - 1] wraps to [SIZE_MAX] and the store is outside
    the allocation. *)
Theorem rust_str_push_appends (sp : rust_vec) (byte : Z) :
  (forall s : list Z,
     let n := Z.of_nat (length s) in
     let sp1 := reserve_vec sp (n + 2) in
     str_of sp s ->
     n + 2 < size_modulus ->
     take (S (length s)) (vec_data sp1) = take (S (length s)) (vec_data sp) ->
     n + 2 <= Z.of_nat (length (vec_data sp1)) ->
     exists sp',
       rust_str_push reserve_vec sp byte = Ok sp' /\
       str_of sp' (s ++ [byte]) /\
       vec_alloc sp' = vec_alloc sp1 /\
       length (vec_data sp') = length (vec_data sp1) /\
       drop (length s + 2) (vec_data sp') =
         drop (length s + 2) (vec_data sp1)) /\
  (vec_fill sp = 0 ->
   Z.of_nat (length (vec_data (reserve_vec sp 1))) < size_modulus ->
   rust_str_push reserve_vec sp byte = Stuck "sp->data[fill-1]").
Proof.
  pose proof size_modulus_gt_1 as HM. split.
  - intros s n sp1 [Hfill Hstr] Hn Hkeep Hroom.
    unfold rust_str_push. rewrite Hfill. fold n.
    assert (E1 : size_add (n + 1) 1 = n + 2).
    { unfold size_add. rewrite size_wrap_small by lia. lia. }
    assert (E2 : size_sub (n + 1) 1 = n).
    { unfold size_sub. rewrite size_wrap_small by lia. lia. }
    rewrite E1, E2. fold sp1.
    unfold vec_store.
    rewrite bool_decide_eq_true_2 by lia.
    rewrite bool_decide_eq_true_2 by (rewrite length_insert; lia).
    exists {| vec_fill := n + 2; vec_alloc := vec_alloc sp1;
              vec_data := <[Z.to_nat (n + 1) := 0]>
                            (<[Z.to_nat n := byte]> (vec_data sp1)) |}.
    split; [reflexivity|]. unfold str_of.
    cbn [vec_fill vec_alloc vec_data].
    assert (Hlen : (length s + 2 <= length (vec_data sp1))%nat) by lia.
    assert (Hs : take (length s) (vec_data sp1) = s).
    { apply (f_equal (take (length s))) in Hkeep.
      rewrite !take_take in Hkeep.
      replace (length s `min` S (length s))%nat with (length s) in Hkeep
        by lia.
      rewrite Hkeep.
      apply (f_equal (take (length s))) in Hstr.
      rewrite take_take in Hstr.
      replace (length s `min` S (length s))%nat with (length s) in Hstr
        by lia.
      rewrite Hstr. by rewrite take_app_length. }
    replace (Z.to_nat (n + 1)) with (S (length s)) by lia.
    replace (Z.to_nat n) with (length s) by lia.
    split.
    + split; [rewrite length_app; cbn; unfold n; lia|].
      rewrite length_app. cbn [length].
      replace (length s + 1)%nat with (S (length s)) by lia.
      apply list_eq. intros i.
      destruct (decide (i < length s)%nat) as [Hi|Hi].
      * rewrite lookup_take_lt by lia.
        rewrite list_lookup_insert_ne by lia.
        rewrite list_lookup_insert_ne by lia.
        rewrite <- app_assoc, lookup_app_l by lia.
        assert (Hsi : s !! i = vec_data sp1 !! i).
        { rewrite <- Hs at 1. apply lookup_take_lt. lia. }
        by rewrite Hsi.
      * destruct (decide (i = length s)) as [->|Hi1].
        { rewrite lookup_take_lt by lia.
          rewrite list_lookup_insert_ne by lia.
          rewrite list_lookup_insert_eq by lia.
          rewrite <- app_assoc, lookup_app_r by lia.
          by rewrite Nat.sub_diag. }
        destruct (decide (i = S (length s))) as [->|Hi2].
        { rewrite lookup_take_lt by lia.
          rewrite list_lookup_insert_eq by (rewrite length_insert; lia).
          rewrite <- app_assoc, lookup_app_r by lia.
          by replace (S (length s) - length s)%nat with 1%nat by lia. }
        rewrite lookup_take_ge by lia.
        symmetry. apply lookup_ge_None. rewrite !length_app. cbn. lia.
    + split; [done|]. split; [by rewrite !length_insert|].
      apply list_eq. intros i. rewrite !lookup_drop.
      rewrite list_lookup_insert_ne by lia.
      by rewrite list_lookup_insert_ne by lia.
  - intros Hfill Hlen.
    unfold rust_str_push. rewrite Hfill.
    assert (E1 : size_add 0 1 = 1).
    { unfold size_add. rewrite size_wrap_small by lia. lia. }
    assert (E2 : size_sub 0 1 = size_modulus - 1).
    { unfold size_sub, size_wrap. change (0 - 1) with (-1).
      rewrite <- (Z.mod_add (-1) 1 size_modulus) by lia.
      rewrite Z.mod_small by lia. lia. }
    rewrite E1, E2. unfold vec_store.
    by rewrite bool_decide_eq_false_2 by lia.
Qed.

End StrPush.

Lemma rust_str_push_appends_witness :
  exists sp',
    @rust_str_push x86_64 reserve_pow2 vec_hi 33 = Ok sp' /\
    str_of sp' [104; 105; 33].
Proof.
  destruct (@rust_str_push_appends x86_64 reserve_pow2 vec_hi 33)
    as [Hpush _].
  destruct (Hpush [104; 105]) as (sp' & Hrun & Hstr & _).
  - split; reflexivity.
  - vm_compute. reflexivity.
  - vm_compute. reflexivity.
  - vm_compute. discriminate.
  - exists sp'. split; [exact Hrun|exact Hstr].
Defined.

(** ** Killing the tasks of a scheduler *)

Section KillUnblocks.
Context `{Platform}.

Lemma thread_ext (a b : rust_task_thread) :
  thread_id a = thread_id b -> thread_sched a = thread_sched b ->
  should_exit a = should_exit b -> newborn_tasks a = newborn_tasks b ->
  running_tasks a = running_tasks b -> blocked_tasks a = blocked_tasks b ->
  dead_tasks a = dead_tasks b -> thread_rctx a = thread_rctx b -> a = b.
Proof. destruct a, b; cbn; intros; subst; reflexivity. Qed.

Lemma filter_all {A} (P : A -> Prop) `{!forall x, Decision (P x)}
    (l : list A) :
  (forall x, x ∈ l -> P x) -> filter P l = l.
Proof.
  induction l as [|a l IH]; intros Hall; [done|].
  rewrite filter_cons_True by (apply Hall; left).
  f_equal. apply IH. intros x Hx. apply Hall. by right.
Qed.

Lemma filter_none {A} (P : A -> Prop) `{!forall x, Decision (P x)}
    (l : list A) :
  (forall x, x ∈ l -> ~ P x) -> filter P l = [].
Proof.
  induction l as [|a l IH]; intros Hnone; [done|].
  rewrite filter_cons_False by (apply Hnone; left).
  apply IH. intros x Hx. apply Hnone. by right.
Qed.

Lemma woken_fields (bs : list Z) : forall thr,
  running_tasks (woken bs thr) = running_tasks thr ++ bs /\
  blocked_tasks (woken bs thr) =
    filter (fun x => x ∉ bs) (blocked_tasks thr) /\
  newborn_tasks (woken bs thr) = newborn_tasks thr /\
  dead_tasks (woken bs thr) = dead_tasks thr /\
  thread_id (woken bs thr) = thread_id thr /\
  thread_sched (woken bs thr) = thread_sched thr /\
  should_exit (woken bs thr) = should_exit thr /\
  thread_rctx (woken bs thr) = thread_rctx thr.
Proof.
  induction bs as [|t bs IH]; intros thr.
  - cbn. rewrite app_nil_r. split; [done|]. split; [|done].
    symmetry. apply filter_all. intros x _. apply not_elem_of_nil.
  - cbn [woken foldl]. fold (woken bs (moved t blocked running thr)).
    destruct (IH (moved t blocked running thr))
      as (Hr & Hb & Hn & Hd & Hi & Hs & He & Hc).
    rewrite Hr, Hb, Hn, Hd, Hi, Hs, He, Hc. cbn.
    split; [by rewrite <- app_assoc|]. split; [|done].
    unfold remove_task. rewrite list_filter_filter.
    apply list_filter_iff. intros x. rewrite not_elem_of_cons. tauto.
Qed.

Lemma woken_all (thr : rust_task_thread) :
  woken (reverse (blocked_tasks thr)) thr = unblocked thr.
Proof.
  destruct (woken_fields (reverse (blocked_tasks thr)) thr)
    as (Hr & Hb & Hn & Hd & Hi & Hs & He & Hc).
  apply thread_ext; try done.
  rewrite Hb. cbn. apply filter_none.
  intros x Hx Hn'. apply Hn'. by apply elem_of_reverse.
Qed.

Lemma lists_consistent_ext (w w' : world) :
  threads w' = threads w -> tasks w' = tasks w ->
  lists_consistent w -> lists_consistent w'.
Proof.
  intros Ht Hk Hc th thr Hthr. rewrite Ht in Hthr.
  destruct (Hc th thr Hthr) as [Hnd Hl]. split; [done|].
  intros l t Hin. rewrite Hk. by apply Hl.
Qed.

Lemma killed_task_fields (T : rust_task) :
  task_thread (killed_task T) = task_thread T /\
  task_state (killed_task T) =
    (if decide (task_state T = blocked) then running else task_state T) /\
  task_killed (killed_task T) = true /\
  task_supervised (killed_task T) = false.
Proof. unfold killed_task. by destruct (decide (task_state T = blocked)). Qed.

(** One task of a consistent world is killed. *)
Lemma kill_one_consistent (w : world) t T thr :
  lists_consistent w ->
  tasks w !! t = Some T ->
  threads w !! task_thread T = Some thr ->
  t ∈ get_list (task_state T) thr ->
  exists w',
    (rust_task_unsupervise t ;; rust_task_kill t) w = Ok (tt, w') /\
    lists_consistent w' /\
    tasks w' = <[t := killed_task T]> (tasks w) /\
    threads w' =
      (if decide (task_state T = blocked)
       then <[task_thread T := moved t blocked running thr]> (threads w)
       else threads w) /\
    kernel w' = kernel w /\ ports w' = ports w /\
    selectors w' = selectors w /\ mem w' = mem w.
Proof.
  intros Hcons Ht Hth Hon.
  destruct (Hcons _ _ Hth) as [Hnd Hlists].
  assert (Honly : forall l, t ∈ get_list l thr -> l = task_state T).
  { intros l Hl. destruct (Hlists l t Hl) as (T' & HT' & _ & Hst).
    rewrite Ht in HT'. by injection HT' as <-. }
  assert (Hother : forall th' thr' l x,
            th' <> task_thread T -> threads w !! th' = Some thr' ->
            x ∈ get_list l thr' -> x <> t).
  { intros th' thr' l x Hne Hthr' Hx ->.
    destruct (Hcons _ _ Hthr') as [_ Hl'].
    destruct (Hl' l t Hx) as (T' & HT' & Hth' & _).
    rewrite Ht in HT'. injection HT' as <-. done. }
  destruct (killed_task_fields T) as (Hkth & Hkst & _).
  set (w' := set_trace (trace w ++ kill_events t T)
               (set_tasks (<[t := killed_task T]> (tasks w))
                  (set_threads
                     (if decide (task_state T = blocked)
                      then <[task_thread T := moved t blocked running thr]>
                             (threads w)
                      else threads w) w))).
  assert (Hrun : (rust_task_unsupervise t ;; rust_task_kill t) w =
                 Ok (tt, w')).
  { unfold w', rust_task_unsupervise, rust_task_kill, rust_task_wakeup,
      rust_task_thread_transition, killed_task, kill_events.
    rt_unfold. cbn. rewrite Ht. cbn. rewrite lookup_insert_eq. cbn.
    destruct (decide (task_state T = blocked)) as [Hb|Hb]; cbn.
    - rewrite lookup_insert_eq. cbn.
      rewrite bool_decide_eq_true_2 by done. cbn.
      rewrite lookup_insert_eq. cbn.
      rewrite bool_decide_eq_true_2 by done. cbn.
      rewrite Hth. cbn. rewrite lookup_insert_eq. cbn.
      apply Ok_eq; [done|]. apply world_ext; cbn; try done.
      + by rewrite !insert_insert_eq.
      + by rewrite !insert_insert_eq.
      + by rewrite <- !app_assoc.
    - apply Ok_eq; [done|]. apply world_ext; cbn; try done.
      + by rewrite !insert_insert_eq.
      + by rewrite <- !app_assoc. }
  exists w'. split; [exact Hrun|]. split; [|done].
  intros th' thr' Hthr'. unfold w' in Hthr' |- *.
  cbn [threads tasks set_trace set_tasks set_threads] in Hthr' |- *.
  destruct (decide (task_state T = blocked)) as [Hb|Hb].
  - destruct (decide (th' = task_thread T)) as [->|Hne].
    + rewrite lookup_insert_eq in Hthr'.
      apply (inj Some) in Hthr'. subst thr'. split.
      { apply NoDup_all_tasks_moved; [done|].
        intros l Hl. rewrite <- Hb. by apply Honly. }
      intros l x Hx.
      apply elem_of_get_list_moved in Hx
        as [[-> ->]|[[Hxt Hx]|(-> & Hl1 & Hl2 & Hx)]].
      * exists (killed_task T). rewrite lookup_insert_eq. done.
      * rewrite lookup_insert_ne by done. by apply Hlists.
      * exfalso. apply Hl1. rewrite <- Hb. by apply Honly.
    + rewrite lookup_insert_ne in Hthr' by done.
      destruct (Hcons _ _ Hthr') as [Hnd' Hl']. split; [done|].
      intros l x Hx.
      rewrite lookup_insert_ne by (symmetry; by eapply Hother).
      by apply Hl'.
  - destruct (Hcons _ _ Hthr') as [Hnd' Hl']. split; [done|].
    intros l x Hx.
    destruct (decide (x = t)) as [->|Hxt].
    + rewrite lookup_insert_eq. exists (killed_task T).
      destruct (Hl' l t Hx) as (T' & HT' & Hth' & Hst').
      rewrite Ht in HT'. injection HT' as <-.
      split; [done|]. split; [by rewrite Hkth|]. by rewrite Hkst.
    + rewrite lookup_insert_ne by done. by apply Hl'.
Qed.

Lemma filter_ext_in {A} (P Q : A -> Prop) `{!forall x, Decision (P x)}
    `{!forall x, Decision (Q x)} (l : list A) :
  (forall x, x ∈ l -> (P x <-> Q x)) -> filter P l = filter Q l.
Proof.
  induction l as [|a l IH]; intros Hext; [done|].
  assert (Hl : forall x, x ∈ l -> (P x <-> Q x)).
  { intros x Hx. apply Hext. by right. }
  destruct (decide (P a)) as [Ha|Ha].
  - rewrite !filter_cons_True; [|by apply Hext; [left|]|done].
    f_equal. by apply IH.
  - rewrite !filter_cons_False; [by apply IH| |done].
    intros Hq. apply Ha. apply Hext; [left|done].
Qed.

(** The tasks [ts] of one worker are killed one after the other. *)
Lemma kill_each_worker (th : Z) (ts : list Z) :
  forall (w : world) (thr : rust_task_thread),
  lists_consistent w ->
  threads w !! th = Some thr ->
  NoDup ts ->
  (forall t, t ∈ ts -> t ∈ running_tasks thr ++ blocked_tasks thr) ->
  exists w',
    kill_each ts w = Ok (tt, w') /\
    lists_consistent w' /\
    threads w' =
      <[th := woken (filter (fun t => t ∈ blocked_tasks thr) ts) thr]>
        (threads w) /\
    (forall t, t ∉ ts -> tasks w' !! t = tasks w !! t) /\
    (forall t, t ∈ ts ->
       exists T, tasks w !! t = Some T /\
                 tasks w' !! t = Some (killed_task T)) /\
    kernel w' = kernel w /\ ports w' = ports w /\
    selectors w' = selectors w /\ mem w' = mem w.
Proof.
  induction ts as [|t ts IH]; intros w thr Hcons Hthr Hnd Hon.
  - exists w. cbn. split; [done|]. split; [done|].
    split; [symmetry; by apply insert_id|].
    split; [done|]. split; [|done].
    intros t Ht. by apply elem_of_nil in Ht.
  - apply NoDup_cons in Hnd as [Hnotin Hnd].
    destruct (Hcons _ _ Hthr) as [Hndl Hlists].
    assert (Hl : exists l, (l = running \/ l = blocked) /\
                           t ∈ get_list l thr).
    { assert (Hin : t ∈ running_tasks thr ++ blocked_tasks thr)
        by (apply Hon; left).
      apply elem_of_app in Hin as [Hin|Hin];
        [exists running|exists blocked]; split; try done; tauto. }
    destruct Hl as (l & Hl & Hin).
    destruct (Hlists l t Hin) as (T & HT & HthT & HstT).
    destruct (kill_one_consistent w t T thr Hcons HT)
      as (w1 & Hrun1 & Hcons1 & Htasks1 & Hthreads1 & Hk1 & Hp1 & Hs1 & Hm1).
    { by rewrite HthT. }
    { by rewrite HstT. }
    set (thr1 := if decide (task_state T = blocked)
                 then moved t blocked running thr else thr).
    assert (Hthr1 : threads w1 !! th = Some thr1).
    { rewrite Hthreads1. unfold thr1.
      destruct (decide (task_state T = blocked)); [|done].
      rewrite HthT. apply lookup_insert_eq. }
    assert (Hblk : forall x, x <> t ->
              (x ∈ blocked_tasks thr1 <-> x ∈ blocked_tasks thr)).
    { intros x Hx. unfold thr1.
      destruct (decide (task_state T = blocked)); [|done].
      change (x ∈ get_list blocked (moved t blocked running thr) <->
              x ∈ get_list blocked thr).
      rewrite elem_of_get_list_moved. split.
      - intros [[_ ?]|[[_ ?]|(_ & ? & _)]]; done.
      - intros ?. right. left. done. }
    assert (Hrunl : forall x, x ∈ running_tasks thr ->
                              x ∈ running_tasks thr1).
    { intros x Hx. unfold thr1.
      destruct (decide (task_state T = blocked)); [|done].
      change (x ∈ get_list running (moved t blocked running thr)).
      rewrite elem_of_get_list_moved.
      destruct (decide (x = t)) as [->|Hne]; [by left|right; by left]. }
    destruct (IH w1 thr1 Hcons1 Hthr1 Hnd)
      as (w' & Hrun & Hcons' & Hthreads' & Hout & Hkilled & Hk & Hp & Hs &
          Hm).
    { intros x Hx. assert (x <> t) by (intros ->; done).
      apply elem_of_app.
      assert (Hx' : x ∈ running_tasks thr ++ blocked_tasks thr)
        by (apply Hon; by right).
      apply elem_of_app in Hx' as [Hx'|Hx'].
      - left. by apply Hrunl.
      - right. by apply Hblk. }
    exists w'. split.
    { cbn [kill_each]. rewrite <- Hrun. revert Hrun1.
      unfold bind. destruct (rust_task_unsupervise t w) as [[[] w0]|?|?];
        try done.
      intros ->. done. }
    split; [done|]. split.
    { rewrite Hthreads', Hthreads1.
      rewrite (filter_ext_in (fun x => x ∈ blocked_tasks thr1)
                 (fun x => x ∈ blocked_tasks thr) ts).
      2:{ intros x Hx. apply Hblk. intros ->. done. }
      unfold thr1. destruct (decide (task_state T = blocked)) as [Hb|Hb].
      - rewrite filter_cons_True.
        2:{ rewrite HstT in Hb. rewrite Hb in Hin. exact Hin. }
        cbn [woken foldl]. rewrite HthT. by rewrite insert_insert_eq.
      - rewrite filter_cons_False; [done|].
        intros Hinb. destruct (Hlists blocked t Hinb) as (T' & HT' & _ & Hst').
        rewrite HT in HT'. injection HT' as <-. done. }
    split.
    { intros x Hx. apply not_elem_of_cons in Hx as [Hne Hx].
      rewrite Hout by done. rewrite Htasks1. by rewrite lookup_insert_ne. }
    split.
    { intros x Hx. apply elem_of_cons in Hx as [->|Hx].
      - exists T. split; [done|]. rewrite Hout by done.
        rewrite Htasks1. apply lookup_insert_eq.
      - destruct (Hkilled x Hx) as (T' & HT' & HT'').
        exists T'. split; [|done].
        rewrite Htasks1, lookup_insert_ne in HT'; [done|].
        intros ->. done. }
    repeat split; congruence.
Qed.

(** [kill_all_tasks] of one worker of a consistent world. *)
Lemma kill_all_tasks_worker (w : world) (th : Z) (thr : rust_task_thread) :
  lists_consistent w ->
  threads w !! th = Some thr ->
  exists w',
    rust_task_thread_kill_all_tasks th w = Ok (tt, w') /\
    lists_consistent w' /\
    threads w' = <[th := unblocked thr]> (threads w) /\
    (forall t, t ∉ running_tasks thr ++ blocked_tasks thr ->
       tasks w' !! t = tasks w !! t) /\
    (forall t, t ∈ running_tasks thr ++ blocked_tasks thr ->
       exists T, tasks w !! t = Some T /\
                 tasks w' !! t = Some (killed_task T)) /\
    kernel w' = kernel w /\ ports w' = ports w /\
    selectors w' = selectors w /\ mem w' = mem w.
Proof.
  intros Hcons Hthr.
  destruct (Hcons _ _ Hthr) as [Hnd _].
  destruct (task_lists_partition _ _ _ _ Hnd) as [Hnd' _].
  unfold rust_task_thread_kill_all_tasks. rt_unfold. cbn.
  rewrite Hthr. cbn. rewrite kill_all_loop_rev.
  set (w0 := set_trace _ _).
  destruct (kill_each_worker th
              (reverse (running_tasks thr ++ blocked_tasks thr)) w0 thr)
    as (w' & Hrun & Hcons' & Hthreads & Hout & Hkilled & Hrest).
  { by apply (lists_consistent_ext w). }
  { done. }
  { by rewrite reverse_Permutation. }
  { intros t Ht. rewrite elem_of_reverse in Ht. exact Ht. }
  exists w'. split; [exact Hrun|]. split; [done|]. split.
  { change (threads w' = <[th := unblocked thr]> (threads w)).
    rewrite Hthreads. cbn [threads set_trace w0]. f_equal.
    rewrite <- woken_all. f_equal.
    rewrite reverse_app, filter_app.
    rewrite (filter_all _ (reverse (blocked_tasks thr))).
    2:{ intros x Hx. rewrite elem_of_reverse in Hx. exact Hx. }
    rewrite (filter_none _ (reverse (running_tasks thr))).
    2:{ intros x Hx Hb. rewrite elem_of_reverse in Hx.
        apply NoDup_app in Hnd' as (_ & Hdisj & _). by apply (Hdisj x). }
    by rewrite app_nil_r. }
  split.
  { intros t Ht. apply Hout. by rewrite elem_of_reverse. }
  split; [|done].
  intros t Ht. apply Hkilled. by rewrite elem_of_reverse.
Qed.

Lemma live_on_cons (w : world) th ths t :
  live_on w (th :: ths) t <->
  (exists thr, threads w !! th = Some thr /\
               t ∈ running_tasks thr ++ blocked_tasks thr) \/
  live_on w ths t.
Proof.
  unfold live_on. split.
  - intros (th' & thr & Hin & Hthr & Ht).
    apply elem_of_cons in Hin as [->|Hin]; [left; eauto|right; eauto].
  - intros [(thr & Hthr & Ht)|(th' & thr & Hin & Hthr & Ht)].
    + exists th, thr. split; [left|done].
    + exists th', thr. split; [by right|done].
Qed.

(** The loop of [rust_scheduler::kill_all_tasks] from index [i] on. *)
Lemma sched_kill_all_loop_spec (ths : list Z) (n : nat) :
  forall (i : nat) (w : world),
  (i + n = length ths)%nat ->
  Z.of_nat (length ths) < size_modulus ->
  NoDup ths ->
  (forall th, th ∈ ths -> is_Some (threads w !! th)) ->
  lists_consistent w ->
  exists w',
    sched_kill_all_loop ths (Z.of_nat i) n w = Ok (tt, w') /\
    lists_consistent w' /\
    (forall th thr, th ∈ drop i ths -> threads w !! th = Some thr ->
       threads w' !! th = Some (unblocked thr)) /\
    (forall th, th ∉ drop i ths -> threads w' !! th = threads w !! th) /\
    (forall t, live_on w (drop i ths) t ->
       exists T, tasks w !! t = Some T /\
                 tasks w' !! t = Some (killed_task T)) /\
    (forall t, ~ live_on w (drop i ths) t -> tasks w' !! t = tasks w !! t) /\
    kernel w' = kernel w /\ ports w' = ports w /\
    selectors w' = selectors w /\ mem w' = mem w.
Proof.
  induction n as [|n IH]; intros i w Hlen Hmod Hnd Halive Hcons.
  - exists w. rewrite drop_ge by lia. cbn. split; [done|]. split; [done|].
    split; [intros th thr Hin; by apply elem_of_nil in Hin|].
    split; [done|]. split; [|done].
    intros t (th & thr & Hin & _). by apply elem_of_nil in Hin.
  - cbn [sched_kill_all_loop]. rewrite Nat2Z.id.
    destruct (ths !! i) as [th|] eqn:Hth.
    2:{ apply lookup_ge_None in Hth. lia. }
    assert (Hin : th ∈ ths) by (by eapply list_elem_of_lookup_2).
    destruct (Halive th Hin) as [thr Hthr].
    destruct (kill_all_tasks_worker w th thr Hcons Hthr)
      as (w1 & Hrun1 & Hcons1 & Hthreads1 & Hout1 & Hkilled1 & Hk1 & Hp1 &
          Hs1 & Hm1).
    unfold bind at 1. rewrite Hrun1.
    replace (size_add (Z.of_nat i) 1) with (Z.of_nat (S i)).
    2:{ unfold size_add. rewrite size_wrap_small; lia. }
    assert (Hfresh : th ∉ drop (S i) ths).
    { intros Hd. apply list_elem_of_lookup in Hd as [k Hk].
      rewrite lookup_drop in Hk.
      pose proof (NoDup_lookup _ _ _ _ Hnd Hth Hk). lia. }
    assert (Hsame : forall th', th' <> th ->
              threads w1 !! th' = threads w !! th').
    { intros th' Hne. rewrite Hthreads1. by rewrite lookup_insert_ne. }
    assert (Hlive1 : forall t, live_on w1 (drop (S i) ths) t <->
                               live_on w (drop (S i) ths) t).
    { intros t. unfold live_on. split;
        intros (th' & thr' & Hin' & Hthr' & Ht); exists th', thr';
        (split; [done|]); (split; [|done]).
      - rewrite <- Hsame; [done|]. intros ->. done.
      - rewrite Hsame; [done|]. intros ->. done. }
    assert (Hdisj : forall t, live_on w (drop (S i) ths) t ->
              t ∉ running_tasks thr ++ blocked_tasks thr).
    { intros t (th' & thr' & Hin' & Hthr' & Ht) Ht0.
      assert (Hne : th' <> th) by (intros ->; done).
      destruct (Hcons _ _ Hthr') as [_ Hl'].
      destruct (Hcons _ _ Hthr) as [_ Hl].
      assert (H1 : exists T, tasks w !! t = Some T /\ task_thread T = th').
      { apply elem_of_app in Ht as [Ht|Ht].
        - destruct (Hl' running t Ht) as (T & ? & ? & _). eauto.
        - destruct (Hl' blocked t Ht) as (T & ? & ? & _). eauto. }
      assert (H2 : exists T, tasks w !! t = Some T /\ task_thread T = th).
      { apply elem_of_app in Ht0 as [Ht0|Ht0].
        - destruct (Hl running t Ht0) as (T & ? & ? & _). eauto.
        - destruct (Hl blocked t Ht0) as (T & ? & ? & _). eauto. }
      destruct H1 as (T1 & HT1 & E1). destruct H2 as (T2 & HT2 & E2).
      rewrite HT1 in HT2. injection HT2 as <-. congruence. }
    destruct (IH (S i) w1) as (w' & Hrun & Hcons' & Hin' & Hout' & Hkilled' &
                               Hrest' & Hk & Hp & Hs & Hm);
      [lia|done|done| |done|].
    { intros th' Hth'. rewrite Hthreads1.
      destruct (decide (th' = th)) as [->|Hne].
      - rewrite lookup_insert_eq. eauto.
      - rewrite lookup_insert_ne by done. by apply Halive. }
    exists w'. split; [exact Hrun|]. split; [done|].
    rewrite (drop_S _ th i Hth). split.
    { intros th' thr' Hth' Hthr'.
      apply elem_of_cons in Hth' as [->|Hth'].
      - rewrite Hout' by done. rewrite Hthreads1, lookup_insert_eq.
        rewrite Hthr in Hthr'. by injection Hthr' as <-.
      - apply Hin'; [done|]. rewrite Hsame; [done|]. intros ->. done. }
    split.
    { intros th' Hth'. apply not_elem_of_cons in Hth' as [Hne Hth'].
      rewrite Hout' by done. by apply Hsame. }
    split.
    { intros t Ht. apply live_on_cons in Ht as [(thr0 & Hthr0 & Ht)|Ht].
      - rewrite Hthr in Hthr0. injection Hthr0 as <-.
        destruct (Hkilled1 t Ht) as (T & HT & HT1).
        exists T. split; [done|]. rewrite Hrest'; [done|].
        rewrite Hlive1. intros Hl. by apply (Hdisj t Hl).
      - destruct (Hkilled' t) as (T & HT & HT'); [by apply Hlive1|].
        exists T. split; [|done]. rewrite <- HT. symmetry.
        apply Hout1. by apply Hdisj. }
    split.
    { intros t Ht. rewrite Hrest'.
      - apply Hout1. intros Ht0. apply Ht. apply live_on_cons. left. eauto.
      - rewrite Hlive1. intros Hl. apply Ht. apply live_on_cons. by right. }
    repeat split; congruence.
Qed.

(** X19.  [rust_scheduler::kill_all_tasks] in a world whose task lists
    are consistent.  The call returns, and afterwards no worker of the
    scheduler has a blocked task: the blocked tasks of each worker have
    been woken, the last of the list first, and stand behind its
    running tasks.  Every task that was on the running or on the
    blocked list of one of these workers is killed, unsupervised and
    running; the lists are consistent again; the newborn and dead
    lists, the workers of other schedulers and every other task are as
    they were. *)
Theorem scheduler_kill_all_tasks_unblocks (w : world) (sched : Z)
    (s : rust_scheduler) :
  sched_wf w sched s ->
  lists_consistent w ->
  exists w',
    rust_scheduler_kill_all_tasks sched w = Ok (tt, w') /\
    lists_consistent w' /\
    (forall th thr, th ∈ sched_threads s -> threads w !! th = Some thr ->
       exists thr',
         threads w' !! th = Some thr' /\
         blocked_tasks thr' = [] /\
         running_tasks thr' =
           running_tasks thr ++ reverse (blocked_tasks thr) /\
         newborn_tasks thr' = newborn_tasks thr /\
         dead_tasks thr' = dead_tasks thr) /\
    (forall th, th ∉ sched_threads s -> threads w' !! th = threads w !! th) /\
    (forall t, live_on w (sched_threads s) t ->
       exists T, tasks w !! t = Some T /\
                 tasks w' !! t = Some (killed_task T) /\
                 task_killed (killed_task T) = true /\
                 propagates_failure (killed_task T) = false /\
                 task_state (killed_task T) = running) /\
    (forall t, ~ live_on w (sched_threads s) t ->
       tasks w' !! t = tasks w !! t) /\
    kernel w' = kernel w /\ ports w' = ports w /\
    selectors w' = selectors w /\ mem w' = mem w.
Proof.
  intros (Hs & HN & Hcur & Hlive & Hlen & Hnd & Halive) Hcons.
  destruct (sched_kill_all_loop_spec (sched_threads s)
              (Z.to_nat (num_threads s)) 0 w)
    as (w' & Hrun & Hcons' & Hin & Hout & Hkilled & Hrest & Hframe);
    [lia|lia|done| |done|].
  { intros th Hth. rewrite Forall_forall in Halive. by apply Halive. }
  rewrite drop_0 in Hin, Hout, Hkilled, Hrest.
  exists w'. split.
  { unfold rust_scheduler_kill_all_tasks. rt_unfold. cbn. rewrite Hs. cbn.
    exact Hrun. }
  split; [done|]. split.
  { intros th thr Hth Hthr. exists (unblocked thr).
    split; [by apply Hin|]. done. }
  split; [done|]. split; [|by split].
  intros t Ht. destruct (Hkilled t Ht) as (T & HT & HT').
  exists T. split; [done|]. split; [done|].
  destruct (killed_task_fields T) as (_ & Hst & Hkl & Hsup).
  split; [done|]. split; [done|].
  rewrite Hst. destruct (decide (task_state T = blocked)); [done|].
  destruct Ht as (th & thr & Hth & Hthr & Ht).
  destruct (Hcons _ _ Hthr) as [_ Hl].
  apply elem_of_app in Ht as [Ht|Ht].
  - destruct (Hl running t Ht) as (T0 & HT0 & _ & Hst0).
    rewrite HT in HT0. by injection HT0 as <-.
  - destruct (Hl blocked t Ht) as (T0 & HT0 & _ & Hst0).
    rewrite HT in HT0. injection HT0 as <-. done.
Qed.

End KillUnblocks.

Lemma world_kill_sched_wf : @sched_wf x86_64 world_kill_sched 0 sched_kill.
Proof.
  unfold sched_wf. split; [vm_compute; reflexivity|].
  split; [vm_compute; split; congruence|].
  split; [vm_compute; split; congruence|].
  split; [vm_compute; split; congruence|].
  split; [reflexivity|].
  split; [apply (bool_decide_unpack _); vm_compute; exact I|].
  repeat constructor; eexists; vm_compute; reflexivity.
Qed.

Lemma world_kill_sched_consistent : @lists_consistent x86_64 world_kill_sched.
Proof.
  apply (lists_consistent_ext world_kill); [done|done|].
  apply world_kill_consistent.
Qed.

Lemma scheduler_kill_all_tasks_unblocks_witness :
  exists w' thr',
    @rust_scheduler_kill_all_tasks x86_64 0 world_kill_sched = Ok (tt, w') /\
    threads w' !! 0 = Some thr' /\
    blocked_tasks thr' = [] /\
    running_tasks thr' = [11; 12] /\
    lists_consistent w'.
Proof.
  destruct (@scheduler_kill_all_tasks_unblocks x86_64 world_kill_sched 0
              sched_kill world_kill_sched_wf world_kill_sched_consistent)
    as (w' & Hrun & Hcons & Hworkers & _).
  destruct (Hworkers 0 thread_kill) as (thr' & Hthr' & Hb & Hr & _).
  - vm_compute. left.
  - vm_compute. reflexivity.
  - exists w', thr'. split; [exact Hrun|]. split; [exact Hthr'|].
    split; [exact Hb|]. split; [exact Hr|exact Hcons].
Defined.

(** ** Spawning a task *)

Section Spawn.
Context `{Platform}.


End Spawn.


(** ** A send to a selecting task *)

Section SelectSend.
Context `{Platform}.

(** X21.  A send to a task that is blocked in a select.  While the
    task waits in a select that has published the ports [ps],
    [chan_id_send] on a channel that resolves to one of these ports
    appends the message to the port's buffer, writes the port's
    reference into the task's rendezvous slot, withdraws the published
    ports and wakes the task, with the reference counts of the task
    and of the port as before.  If the port was empty, the woken
    task's [port_recv] on the port it was told about returns at once
    with this message and leaves the port empty. *)
Theorem send_wakes_selecting_task (w : world) (tid pid task p slot sel : Z)
    (ps : list Z) (s : rust_port_selector) (t : rust_task)
    (thr : rust_task_thread) (P : rust_port) (d : unit_data) :
  task_table (kernel w) !! tid = Some task ->
  tasks w !! task = Some t ->
  task_port_table t !! pid = Some p ->
  ports w !! p = Some P ->
  port_task P = task ->
  selectors w !! sel = Some s ->
  sel_ports s = Some ps ->
  sel_n_ports s = Z.of_nat (length ps) ->
  Z.of_nat (length ps) < size_modulus ->
  p ∈ ps ->
  task_state t = blocked ->
  task_cond t = Some (cond_selector sel) ->
  task_rendezvous_ptr t = Some slot ->
  threads w !! task_thread t = Some thr ->
  1 <= task_ref_count t -> 1 <= port_ref_count P ->
  exists w1,
    chan_id_send tid pid d w = Ok (true, w1) /\
    mem w1 = <[slot := cell_port p]> (mem w) /\
    ports w1 = <[p := set_port_buffer (port_buffer P ++ [d]) P]> (ports w) /\
    tasks w1 = <[task := select_woken t]> (tasks w) /\
    selectors w1 = <[sel := set_sel_published None 0 s]> (selectors w) /\
    threads w1 =
      <[task_thread t := moved task blocked running thr]> (threads w) /\
    kernel w1 = kernel w /\
    (port_buffer P = [] ->
     forall dptr,
       exists w2,
         port_recv task dptr p w1 = Ok ((false, false), w2) /\
         mem w2 = <[dptr := cell_unit d]> (mem w1) /\
         ports w2 = <[p := P]> (ports w)).
Proof.
  intros Hid Ht Hpid HP Howner Hs Hsp Hsn Hlen Hin Hst Hcond Hslot Hthr
    HrcT HrcP.
  set (t1 := set_task_ref_count (task_ref_count t + 1) t).
  set (P1 := set_port_ref_count (port_ref_count P + 1) P).
  set (P2 := set_port_buffer (port_buffer P ++ [d]) P1).
  set (w3 := set_trace
               (trace w ++ [ev_send p d; ev_lock (port_lock p);
                            ev_unlock (port_lock p)])
               (set_ports (<[p := P2]> (ports w))
                  (set_tasks (<[task := t1]> (tasks w)) w))).
  pose proof (msg_sent_on_first w3 sel task slot ps p P2 s t1 thr)
    as Hmsg.
  cbn in Hmsg. rewrite !lookup_insert_eq in Hmsg.
  specialize (Hmsg Hs Hsp Hsn Hlen eq_refl Hst Hcond Hslot Hthr Hin eq_refl
                Howner).
  unfold chan_id_send, rust_kernel_get_task_by_id, rust_task_get_port_by_id.
  rt_unfold. cbn -[rust_port_send]. rewrite Hid. cbn -[rust_port_send].
  rewrite Ht. cbn -[rust_port_send]. rewrite lookup_insert_eq.
  cbn -[rust_port_send]. rewrite Hpid. cbn -[rust_port_send].
  rewrite HP. cbn -[rust_port_send]. fold t1 P1.
  lazymatch goal with
  | |- context [rust_port_send p d ?W] => set (w2 := W)
  end.
  assert (Hsend : rust_port_send p d w2 =
                  rust_port_selector_msg_sent_on sel p w3).
  { unfold rust_port_send, w2. rt_unfold.
    cbn -[rust_port_selector_msg_sent_on].
    rewrite lookup_insert_eq. cbn -[rust_port_selector_msg_sent_on].
    rewrite Howner, lookup_insert_eq.
    cbn -[rust_port_selector_msg_sent_on].
    rewrite Hslot.
    rewrite bool_decide_eq_false_2.
    2:{ intros [_ E]. rewrite Hcond in E. discriminate. }
    cbn -[rust_port_selector_msg_sent_on]. rewrite Hst, Hcond.
    f_equal. apply world_ext; cbn; try done.
    - by rewrite insert_insert_eq.
    - by rewrite <- !app_assoc. }
  rewrite Hsend, Hmsg.
  unfold rust_port_deref, rust_task_deref. rt_unfold. cbn.
  rewrite !lookup_insert_eq. cbn.
  destruct (decide (port_ref_count P + 1 - 1 = 0)) as [E|_]; [lia|].
  cbn. rewrite !lookup_insert_eq. cbn.
  destruct (decide (task_ref_count t + 1 - 1 = 0)) as [E|_]; [lia|].
  eexists. split; [reflexivity|]. cbn.
  assert (HP' : set_port_ref_count (port_ref_count P + 1 - 1) P2 =
                set_port_buffer (port_buffer P ++ [d]) P).
  { replace (port_ref_count P + 1 - 1) with (port_ref_count P) by lia.
    by destruct P. }
  split; [done|]. split; [by rewrite !insert_insert_eq, HP'|].
  split.
  { rewrite !insert_insert_eq. f_equal.
    replace (task_ref_count t + 1 - 1) with (task_ref_count t) by lia.
    by destruct t. }
  split; [done|]. split; [done|]. split; [done|].
  intros Hbuf dptr.
  unfold port_recv, rust_port_receive. rt_unfold. cbn.
  rewrite !lookup_insert_eq. cbn. rewrite Hbuf. cbn.
  eexists. split; [reflexivity|]. cbn. split; [done|].
  rewrite !insert_insert_eq. f_equal.
  replace (port_ref_count P + 1 - 1) with (port_ref_count P) by lia.
  destruct P; cbn in *. by subst.
Qed.

End SelectSend.

Lemma send_wakes_selecting_task_witness :
  exists w1 w2,
    @chan_id_send x86_64 1 5 (raw_unit [42]) world_sel_blocked =
      Ok (true, w1) /\
    mem w1 = <[8 := cell_port 50]> (mem world_sel_blocked) /\
    @port_recv x86_64 1 9 50 w1 = Ok ((false, false), w2) /\
    mem w2 = <[9 := cell_unit (raw_unit [42])]> (mem w1).
Proof.
  destruct (@send_wakes_selecting_task x86_64 world_sel_blocked 1 5 1 50 8 1
              [50]
              (set_sel_published (Some [50]) 1
                 (set_sel_rctx (1 : @randctx x86_64)
                    (@rust_port_selector_new x86_64)))
              (select_blocked 1 8 task_1)
              (moved 1 running blocked thread_sel)
              port_50 (raw_unit [42]))
    as (w1 & Hsend & Hmem & _ & _ & _ & _ & _ & Hrecv).
  - vm_compute. reflexivity.
  - vm_compute. reflexivity.
  - vm_compute. reflexivity.
  - vm_compute. reflexivity.
  - reflexivity.
  - vm_compute. reflexivity.
  - reflexivity.
  - reflexivity.
  - vm_compute. reflexivity.
  - left.
  - reflexivity.
  - reflexivity.
  - reflexivity.
  - vm_compute. reflexivity.
  - vm_compute. discriminate.
  - vm_compute. discriminate.
  - destruct (Hrecv eq_refl 9) as (w2 & Hrun & Hmem2 & _).
    exists w1, w2. split; [exact Hsend|]. split; [exact Hmem|].
    split; [exact Hrun|exact Hmem2].
Defined.
